(** * Designer Booking API: a shallow embedding of [main.py] and [schemas.py]

    The development follows the layout of the service:

    - Python values, strings and documents (dicts keyed by strings);
    - the six schemas of [schemas.py] and their serialisation;
    - the part of the MongoDB query language the handlers use;
    - the document-store gateway ([database.py]);
    - the handlers of [main.py], as functions that thread the store;
    - the properties of the handlers.

    Text is modelled by [string], as the bytes of its UTF-8 encoding: a
    character is a byte that begins it with the bytes that continue it, and
    a character of ASCII is one byte.  Equality, concatenation and the
    search for a substring are the same on the bytes as on the characters;
    the operations that are not (lower-casing, slicing, the dot of a
    pattern) go by characters.  A [datetime] is modelled by the instant it
    denotes, an integer number of ticks of the store's clock. *)

From Stdlib Require Import ZArith String Ascii List Lia.
From Stdlib Require Import PrimFloat.
From stdpp Require Import gmap strings list fin_maps.

Open Scope string_scope.

(** ** Python strings *)

Module Py.

(** A character of ASCII. *)
Definition is_ascii (c : ascii) : bool := (N_of_ascii c <? 128)%N.

(** A text of ASCII characters only. *)
Fixpoint ascii_text (s : string) : bool :=
  match s with
  | EmptyString => true
  | String c s' => is_ascii c && ascii_text s'
  end.

(** A letter A..Z. *)
Definition is_upper (c : ascii) : bool :=
  let n := N_of_ascii c in ((65 <=? n) && (n <=? 90))%N.

(** A letter a..z. *)
Definition is_lower (c : ascii) : bool :=
  let n := N_of_ascii c in ((97 <=? n) && (n <=? 122))%N.

(** [c.lower()] for a character of ASCII: the letters A..Z move 32 code
    points up; every other byte is left alone. *)
Definition lower_char (c : ascii) : ascii :=
  if is_upper c then ascii_of_N (N_of_ascii c + 32) else c.

(** [s.lower()] for a text of ASCII: each letter on its own. *)
Fixpoint lower_ascii (s : string) : string :=
  match s with
  | EmptyString => EmptyString
  | String c s' => String (lower_char c) (lower_ascii s')
  end.

(** A byte that continues a character: 10xxxxxx. *)
Definition continuation (c : ascii) : bool :=
  let n := N_of_ascii c in ((128 <=? n) && (n <? 192))%N.

(** The characters of a text, each with all of its bytes. *)
Fixpoint chars (s : string) : list string :=
  match s with
  | EmptyString => []
  | String c s' =>
      match chars s' with
      | String d x :: l =>
          if continuation d then String c (String d x) :: l
          else String c EmptyString :: String d x :: l
      | l => String c EmptyString :: l
      end
  end.

(** The text of a list of characters. *)
Definition text (l : list string) : string := String.concat "" l.

(** *** Lower case beyond ASCII

    [str.lower()] follows the tables of Unicode.  It is computed here for
    the text made of ASCII and of the 24 letters of the Greek alphabet, for
    which it is not a map of the characters: a capital sigma becomes the
    final small sigma at the end of a word and the small sigma elsewhere.
    Any other text is left to the runtime ([unicode_lower] below). *)

Definition greek_capitals : list string :=
  ["Α"; "Β"; "Γ"; "Δ"; "Ε"; "Ζ"; "Η"; "Θ"; "Ι"; "Κ"; "Λ"; "Μ";
   "Ν"; "Ξ"; "Ο"; "Π"; "Ρ"; "Σ"; "Τ"; "Υ"; "Φ"; "Χ"; "Ψ"; "Ω"]%list.

Definition greek_smalls : list string :=
  ["α"; "β"; "γ"; "δ"; "ε"; "ζ"; "η"; "θ"; "ι"; "κ"; "λ"; "μ";
   "ν"; "ξ"; "ο"; "π"; "ρ"; "σ"; "τ"; "υ"; "φ"; "χ"; "ψ"; "ω"]%list.

Definition final_sigma : string := "ς".

Definition among (c : string) (l : list string) : bool := existsb (String.eqb c) l.

(** The value of a key in a list of pairs; the key itself when it has
    none. *)
Fixpoint translate (c : string) (table : list (string * string)) : string :=
  match table with
  | nil => c
  | (k, v) :: table' => if String.eqb c k then v else translate c table'
  end.

(** A character of the text [lower_from] is computed for. *)
Definition known (c : string) : bool :=
  match c with
  | String b EmptyString => is_ascii b
  | _ => among c greek_capitals || among c greek_smalls || String.eqb c final_sigma
  end.

(** The property Cased of Unicode, on the known characters: the letters. *)
Definition cased (c : string) : bool :=
  match c with
  | String b EmptyString => is_upper b || is_lower b
  | _ => among c greek_capitals || among c greek_smalls || String.eqb c final_sigma
  end.

(** The property Case_Ignorable of Unicode, on the known characters. *)
Definition case_ignorable (c : string) : bool :=
  among c ["'"; "."; ":"; "^"; "`"]%list.

(** [c.lower()] for a known character that is not the capital sigma. *)
Definition lower_letter (c : string) : string :=
  match c with
  | String b EmptyString => String (lower_char b) EmptyString
  | _ => translate c (List.combine greek_capitals greek_smalls)
  end.

(** The first character that is not Case_Ignorable is Cased. *)
Fixpoint cased_follows (l : list string) : bool :=
  match l with
  | nil => false
  | c :: l' => if case_ignorable c then cased_follows l' else cased c
  end.

(** [s.lower()] on the characters of a known text.  [before] tells whether
    the last character before these that is not Case_Ignorable is Cased: a
    capital sigma is final when it comes after a cased character and no
    cased character follows, characters that are Case_Ignorable apart. *)
Fixpoint lower_from (before : bool) (l : list string) : list string :=
  match l with
  | nil => nil
  | c :: l' =>
      (if String.eqb c "Σ"
       then if before && negb (cased_follows l') then final_sigma else "σ"
       else lower_letter c)
      :: lower_from (if case_ignorable c then before else cased c) l'
  end.

(** [s.startswith(p)] *)
Fixpoint startswith (p s : string) : bool :=
  match p, s with
  | EmptyString, _ => true
  | String _ _, EmptyString => false
  | String a p', String b s' => if Ascii.eqb a b then startswith p' s' else false
  end.

(** [p in s]: [p] occurs in [s] as a contiguous substring. *)
Fixpoint contains (p s : string) : bool :=
  startswith p s ||
  match s with
  | EmptyString => false
  | String _ s' => contains p s'
  end.

(** [sep.join(l)] *)
Fixpoint join (sep : string) (l : list string) : string :=
  match l with
  | [] => ""
  | [x] => x
  | x :: l' => x +:+ sep +:+ join sep l'
  end.

(** Truth value of a [str]: the empty string is falsy. *)
Definition truthy_str (s : string) : bool :=
  match s with EmptyString => false | String _ _ => true end.

(** Truth value of a list: the empty list is falsy. *)
Definition truthy_list {A} (l : list A) : bool :=
  match l with [] => false | _ :: _ => true end.

End Py.

(** What the prose of the specification calls a substring and a
    case-insensitive substring, the latter for the letters of ASCII: two
    characters are the same letter when they are equal or are the capital
    and the small form of one of the 26 letters. *)
Definition substring (p s : string) : Prop :=
  ∃ a b : string, s = a +:+ p +:+ b.

Definition capital_of (a b : ascii) : Prop :=
  (65 ≤ N_of_ascii a ≤ 90)%N ∧ N_of_ascii b = (N_of_ascii a + 32)%N.

Definition same_letter (a b : ascii) : Prop :=
  a = b ∨ capital_of a b ∨ capital_of b a.

Fixpoint same_letters (p s : string) : Prop :=
  match p, s with
  | EmptyString, EmptyString => True
  | String a p', String b s' => same_letter a b ∧ same_letters p' s'
  | _, _ => False
  end.

Definition ci_substring (p s : string) : Prop :=
  ∃ a m b : string, s = a +:+ m +:+ b ∧ same_letters p m.

(** ** Values and documents *)

Set Warnings "-register-all".

(** The values a stored or returned document holds: [None], text, an
    [ObjectId] (of type [O]), a float, a [datetime], a list, a nested dict. *)
Inductive value (O : Type) : Type :=
| VNull
| VStr (s : string)
| VOid (o : O)
| VFloat (x : float)
| VTime (t : Z)
| VList (l : list (value O))
| VDict (kv : list (string * value O)).

Arguments VNull {O}.
Arguments VStr {O} s.
Arguments VOid {O} o.
Arguments VFloat {O} x.
Arguments VTime {O} t.
Arguments VList {O} l.
Arguments VDict {O} kv.

(** An [Optional] field: [None] is serialised as null. *)
Definition opt {O A} (f : A → value O) (o : option A) : value O :=
  match o with None => VNull | Some a => f a end.

(** A [List[str]] field. *)
Definition strs {O} (l : list string) : value O := VList (VStr <$> l).

(** ** What the service takes from outside

    [bson], the store's identifier generator, the regular-expression engine
    of the store, Python's [str] on non-text values and the case tables of
    Unicode are not part of the repository.  The handlers are verified for
    every behaviour of these. *)
Class Runtime := {
  (** the type of [bson.ObjectId] values *)
  oid : Type;
  oid_eq_dec :: EqDecision oid;
  (** [ObjectId(s)]; [None] when the constructor raises *)
  ObjectId : string → option oid;
  (** [str(o)] for an [ObjectId] *)
  oid_str : oid → string;
  (** the identifier the store gives to the [n]-th document it inserts *)
  generate_oid : nat → oid;
  (** the store's regular-expression engine on a pattern and its options,
      for the patterns [regex_compile] below does not interpret itself:
      [None] when the store refuses the pattern, otherwise the test it
      performs on a text *)
  regex_engine : string → string → option (string → bool);
  (** [str(v)] for floats, datetimes, lists and dicts *)
  str_other : value oid → string;
  (** [s.lower()] for a text with a character that is neither of ASCII nor
      a Greek letter *)
  unicode_lower : string → string;
}.

(** [s.lower()] *)
Definition str_lower `{Runtime} (s : string) : string :=
  if Py.ascii_text s then Py.lower_ascii s
  else if forallb Py.known (Py.chars s) then Py.text (Py.lower_from false (Py.chars s))
  else unicode_lower s.

(** The lower-cased name occurs in the lower-cased text. *)
Definition lower_substring `{Runtime} (p s : string) : Prop :=
  substring (str_lower p) (str_lower s).

(** ** schemas.py *)

Module Freelancer.
Record t := {
  name : string;
  email : string;
  skills : list string;
  bio : option string;
  avatar_url : option string;
  hourly_rate : option float;
  portfolio_links : list string;
  (** slots [{day, start, end, timezone}], kept as dicts of text *)
  availability : list (list (string * string));
}.
End Freelancer.

Module PortfolioItem.
Record t := {
  freelancer_id : string;
  title : string;
  description : option string;
  project_url : option string;
  image_url : option string;
  tags : list string;
}.
End PortfolioItem.

Module Reservation.
Inductive status_t := pending | confirmed | cancelled.

Definition status_str (s : status_t) : string :=
  match s with
  | pending => "pending"
  | confirmed => "confirmed"
  | cancelled => "cancelled"
  end.

Record t := {
  business_name : string;
  business_email : string;
  freelancer_id : string;
  start_time : Z;
  end_time : Z;
  notes : option string;
  status : status_t;
}.
End Reservation.

Module Advertisement.
Inductive ad_type_t := business | freelancer.

Definition ad_type_str (a : ad_type_t) : string :=
  match a with
  | business => "business"
  | freelancer => "freelancer"
  end.

Record t := {
  ad_type : ad_type_t;
  heading : string;
  content : string;
  designers : list string;
  business_name : option string;
  freelancer_id : option string;
}.
End Advertisement.

Module ForumThread.
Inductive author_type_t := business | freelancer | guest.

Definition author_type_str (a : author_type_t) : string :=
  match a with
  | business => "business"
  | freelancer => "freelancer"
  | guest => "guest"
  end.

Record t := {
  title : string;
  content : string;
  author_type : author_type_t;
  author_name : string;
  tags : list string;
}.
End ForumThread.

Module ForumPost.
Record t := {
  thread_id : string;
  content : string;
  author_name : string;
}.
End ForumPost.

(** A validated payload of one of the six schemas. *)
Inductive entity :=
| EFreelancer (f : Freelancer.t)
| EPortfolioItem (p : PortfolioItem.t)
| EReservation (r : Reservation.t)
| EAdvertisement (a : Advertisement.t)
| EForumThread (t : ForumThread.t)
| EForumPost (p : ForumPost.t).

(** ** Regular expressions of the store

    The handlers pass a query parameter as the pattern of a [$regex]
    condition with the option ["i"].  The patterns built from ordinary
    characters and the dot are interpreted here; every other pattern is left
    to [regex_engine]. *)

Module Regex.

Inductive atom :=
| Char (c : ascii)   (* an ordinary character, matched without regard to case *)
| AnyChar.           (* the dot: any character except a line feed *)

(** The characters with a meaning of their own in a pattern. *)
Definition metachars : list ascii :=
  list_ascii_of_string "\^$.|?*+()[]{}".

(** An ordinary character: ASCII, not NUL, not a metacharacter. *)
Definition ordinary (c : ascii) : bool :=
  let n := N_of_ascii c in
  (1 <=? n)%N && (n <=? 127)%N && negb (existsb (Ascii.eqb c) metachars).

Definition parse_char (c : ascii) : option atom :=
  if Ascii.eqb c "." then Some AnyChar
  else if ordinary c then Some (Char c)
  else None.

(** The atoms of a pattern inside the interpreted fragment. *)
Fixpoint parse (p : string) : option (list atom) :=
  match p with
  | EmptyString => Some []
  | String c p' =>
      match parse_char c, parse p' with
      | Some a, Some l => Some (a :: l)
      | _, _ => None
      end
  end.

(** The atoms match a prefix of the text.  An ordinary character of the
    pattern matches the same letter in either case.  The dot matches one
    character with all of its bytes: inside the character the dot has
    matched, the bytes that continue it are passed over. *)
Fixpoint match_from (inside : bool) (l : list atom) (s : string) : bool :=
  match s with
  | EmptyString => match l with [] => true | _ :: _ => false end
  | String c s' =>
      if inside && Py.continuation c then match_from true l s'
      else
        match l with
        | [] => true
        | Char x :: l' =>
            Ascii.eqb (Py.lower_char x) (Py.lower_char c) && match_from false l' s'
        | AnyChar :: l' =>
            negb (Ascii.eqb c "010") && negb (Py.continuation c) && match_from true l' s'
        end
  end.

Definition match_here (l : list atom) (s : string) : bool := match_from false l s.

(** The atoms match somewhere in the text (a pattern is not anchored). *)
Fixpoint search (l : list atom) (s : string) : bool :=
  match_here l s ||
  match s with
  | EmptyString => false
  | String _ s' => search l s'
  end.

(** A text is literal when all of its characters are ordinary: it has no
    metacharacter. *)
Fixpoint literal (p : string) : bool :=
  match p with
  | EmptyString => true
  | String c p' => ordinary c && literal p'
  end.

(** The atoms of a literal text. *)
Fixpoint chars (p : string) : list atom :=
  match p with
  | EmptyString => []
  | String c p' => Char c :: chars p'
  end.

End Regex.

(** ** Outcomes of a handler *)

Inductive exn :=
| HTTPException (status_code : Z) (detail : string)
| RequestValidationError   (* the body does not fit the schema *)
| OperationFailure         (* the store refuses a query *)
| TypeError                (* [db[name]] when [db] is [None] *)
| StorageError             (* the gateway without a store *)
| ValueError.              (* a float JSON has no text for *)

Arguments HTTPException status_code%_Z detail%_string.

Inductive result (A : Type) :=
| Return (a : A)
| Raise (e : exn).

Arguments Return {A} a.
Arguments Raise {A} e.

(** The status of the HTTP response: an exception that is not an
    [HTTPException] or a validation error is answered with 500. *)
Definition status_code_of {A} (r : result A) : Z :=
  match r with
  | Return _ => 200
  | Raise (HTTPException c _) => c
  | Raise RequestValidationError => 422
  | Raise (OperationFailure | TypeError | StorageError | ValueError) => 500
  end%Z.

(** The body [{"id": inserted_id}] of a creation response. *)
Record created := Created { id : string }.

(** FastAPI validates the body of a POST against the schema of the handler
    before it calls the handler, and answers 422 without calling it when the
    body does not fit. *)
Inductive body (A : Type) :=
| Valid (payload : A)
| Invalid.

Arguments Valid {A} payload.
Arguments Invalid {A}.

Section Service.

Context `{Runtime}.

(** A Python dict with text keys. *)
#[local] Abbreviation document := (gmap string (value oid)).

(** [model.model_dump()]: the fields of a payload, by name. *)
Definition model_dump (e : entity) : document :=
  match e with
  | EFreelancer f =>
      <["name" := VStr (Freelancer.name f)]>
      (<["email" := VStr (Freelancer.email f)]>
      (<["skills" := strs (Freelancer.skills f)]>
      (<["bio" := opt VStr (Freelancer.bio f)]>
      (<["avatar_url" := opt VStr (Freelancer.avatar_url f)]>
      (<["hourly_rate" := opt VFloat (Freelancer.hourly_rate f)]>
      (<["portfolio_links" := strs (Freelancer.portfolio_links f)]>
      (<["availability" :=
           VList ((λ slot : list (string * string),
                    VDict ((λ kv, (kv.1, VStr kv.2)) <$> slot)) <$> Freelancer.availability f)]>
       ∅)))))))
  | EPortfolioItem p =>
      <["freelancer_id" := VStr (PortfolioItem.freelancer_id p)]>
      (<["title" := VStr (PortfolioItem.title p)]>
      (<["description" := opt VStr (PortfolioItem.description p)]>
      (<["project_url" := opt VStr (PortfolioItem.project_url p)]>
      (<["image_url" := opt VStr (PortfolioItem.image_url p)]>
      (<["tags" := strs (PortfolioItem.tags p)]> ∅)))))
  | EReservation r =>
      <["business_name" := VStr (Reservation.business_name r)]>
      (<["business_email" := VStr (Reservation.business_email r)]>
      (<["freelancer_id" := VStr (Reservation.freelancer_id r)]>
      (<["start_time" := VTime (Reservation.start_time r)]>
      (<["end_time" := VTime (Reservation.end_time r)]>
      (<["notes" := opt VStr (Reservation.notes r)]>
      (<["status" := VStr (Reservation.status_str (Reservation.status r))]> ∅))))))
  | EAdvertisement a =>
      <["ad_type" := VStr (Advertisement.ad_type_str (Advertisement.ad_type a))]>
      (<["heading" := VStr (Advertisement.heading a)]>
      (<["content" := VStr (Advertisement.content a)]>
      (<["designers" := strs (Advertisement.designers a)]>
      (<["business_name" := opt VStr (Advertisement.business_name a)]>
      (<["freelancer_id" := opt VStr (Advertisement.freelancer_id a)]> ∅)))))
  | EForumThread t =>
      <["title" := VStr (ForumThread.title t)]>
      (<["content" := VStr (ForumThread.content t)]>
      (<["author_type" := VStr (ForumThread.author_type_str (ForumThread.author_type t))]>
      (<["author_name" := VStr (ForumThread.author_name t)]>
      (<["tags" := strs (ForumThread.tags t)]> ∅))))
  | EForumPost p =>
      <["thread_id" := VStr (ForumPost.thread_id p)]>
      (<["content" := VStr (ForumPost.content p)]>
      (<["author_name" := VStr (ForumPost.author_name p)]> ∅))
  end.

(** ** The store

    Every document the service stores is the serialisation of a payload:
    the gateway's [create_document] is the only writer, and nothing is ever
    updated or deleted.  A collection is therefore kept as the list of the
    payloads inserted into it, each with the identifier the store gave it,
    in insertion order; [raw_document] is the document the store holds.
    The store is taken to be reachable: [db] is connected. *)

Record stored := Stored { stored_id : oid; stored_entity : entity }.

Record database := Database {
  collections : gmap string (list stored);
  (** how many documents the store has inserted so far *)
  inserted : nat;
}.

(** [db[name]] *)
Definition collection (db : database) (name : string) : list stored :=
  default [] (collections db !! name).

Definition raw_document (x : stored) : document :=
  <["_id" := VOid (stored_id x)]> (delete "_id" (model_dump (stored_entity x))).

(** *** Queries *)

(** The condition a filter puts on one field. *)
Inductive condition :=
| EqualStr (s : string)               (* {k: s} with s a str *)
| EqualOid (o : oid)                  (* {k: o} with o an ObjectId *)
| LessThan (t : Z)                    (* {k: {"$lt": t}} with t a datetime *)
| GreaterThan (t : Z)                 (* {k: {"$gt": t}} with t a datetime *)
| RegexOpt (pattern options : string) (* {k: {"$regex": pattern, "$options": options}} *).

(** One entry of a filter dict: a field with its condition, or [$or] with
    its list of alternatives, each a dict of fields and conditions. *)
Inductive clause :=
| Field (k : string) (c : condition)
| Or (alternatives : list (list (string * condition))).

(** A filter dict; all of its entries must hold. *)
Definition filter_dict := list clause.

(** The test a [$regex] condition performs on a text, when the store accepts
    the pattern. *)
Definition regex_compile (pattern options : string) : option (string → bool) :=
  if String.eqb options "i" then
    match Regex.parse pattern with
    | Some atoms => Some (Regex.search atoms)
    | None => regex_engine pattern options
    end
  else regex_engine pattern options.

(** The test a condition performs on a value that is not a list.  A value of
    another type than the operand never satisfies the condition. *)
Definition compile_condition (c : condition) : option (value oid → bool) :=
  match c with
  | EqualStr s => Some (λ v, match v with VStr s' => String.eqb s' s | _ => false end)
  | EqualOid o => Some (λ v, match v with VOid o' => bool_decide (o' = o) | _ => false end)
  | LessThan t => Some (λ v, match v with VTime t' => (t' <? t)%Z | _ => false end)
  | GreaterThan t => Some (λ v, match v with VTime t' => (t' >? t)%Z | _ => false end)
  | RegexOpt p o =>
      test ← regex_compile p o;
      Some (λ v, match v with VStr s' => test s' | _ => false end)
  end.

(** A field satisfies a condition when it is present and its value does, or
    when its value is a list and one of the elements does. *)
Definition field_holds (test : value oid → bool) (k : string) (d : document) : bool :=
  match d !! k with
  | None => false
  | Some (VList l) => existsb test l
  | Some v => test v
  end.

Definition compile_field (kc : string * condition) : option (document → bool) :=
  test ← compile_condition kc.2;
  Some (field_holds test kc.1).

(** A dict of fields and conditions: all of them hold. *)
Definition compile_fields (l : list (string * condition)) : option (document → bool) :=
  tests ← mapM compile_field l;
  Some (λ d, forallb (λ test : document → bool, test d) tests).

(** [$or] needs at least one alternative. *)
Definition compile_clause (c : clause) : option (document → bool) :=
  match c with
  | Field k c => compile_field (k, c)
  | Or [] => None
  | Or alternatives =>
      tests ← mapM compile_fields alternatives;
      Some (λ d, existsb (λ test : document → bool, test d) tests)
  end.

(** The test a filter performs on a document; [None] when the store refuses
    the query. *)
Definition compile_filter (f : filter_dict) : option (document → bool) :=
  tests ← mapM compile_clause f;
  Some (λ d, forallb (λ test : document → bool, test d) tests).

(** A computation on the store: it returns or raises, and leaves a store. *)
Definition M (A : Type) : Type := database → result A * database.

Definition ret {A} (a : A) : M A := λ db, (Return a, db).

Definition raise {A} (e : exn) : M A := λ db, (Raise e, db).

Definition bind {A B} (m : M A) (k : A → M B) : M B :=
  λ db, match m db with
        | (Return a, db') => k a db'
        | (Raise e, db') => (Raise e, db')
        end.

Notation "'let*' x ':=' m 'in' k" := (bind m (λ x, k))
  (at level 10, x name, m at level 100, k at level 200, only parsing).

(** [db[name].find_one(filter)]: the first document of the collection, in
    insertion order, that passes the filter. *)
Definition find_one (name : string) (f : filter_dict) : M (option document) :=
  λ db, match compile_filter f with
        | None => (Raise OperationFailure, db)
        | Some test => (Return (head (List.filter test (raw_document <$> collection db name))), db)
        end.

(** Truth value of what [find_one] returns: [None] and the empty dict are
    falsy. *)
Definition truthy_doc (o : option document) : bool :=
  match o with
  | None => false
  | Some d => negb (bool_decide (size d = 0))
  end.

(** ** database.py *)

(** Modelled from the spec: [database.py] is not among the sources.
    [create_document(collection_name, data)] serialises the fields of the
    validated record, without any identity the client supplied, into a new
    document of the named collection, and returns the identifier the store
    generated, as a string.  No field is dropped. *)
Definition create_document (collection_name : string) (data : entity) : M string :=
  λ db,
    let _id := generate_oid (inserted db) in
    (Return (oid_str _id),
     {| collections :=
          <[collection_name := (collection db collection_name ++ [Stored _id data])%list]>
            (collections db);
        inserted := S (inserted db) |}).

(** The document the gateway hands out for a stored document: its
    identifier is included as a string field. *)
Definition gateway_document (x : stored) : document :=
  <["_id" := VStr (oid_str (stored_id x))]> (raw_document x).

(** Modelled from the spec: [database.py] is not among the sources.
    [get_documents(collection_name, filter, limit)] returns the documents of
    the collection that match the filter, in insertion order, each with its
    identifier included as a string field; [limit=None] returns all of them,
    a number caps how many are returned. *)
Definition get_documents (collection_name : string) (filt : filter_dict)
    (limit : option nat) : M (list document) :=
  λ db, match compile_filter filt with
        | None => (Raise OperationFailure, db)
        | Some test =>
            let matching :=
              List.filter (λ x, test (raw_document x)) (collection db collection_name) in
            let capped :=
              match limit with
              | None => matching
              | Some n => take n matching
              end in
            (Return (gateway_document <$> capped), db)
        end.

(** ** main.py *)

(** [str(v)], for [v] the result of [d.get(k)]. *)
Definition py_str (v : option (value oid)) : string :=
  match v with
  | None | Some VNull => "None"
  | Some (VStr s) => s
  | Some (VOid o) => oid_str o
  | Some v => str_other v
  end.

(** [d["_id"] = str(d.get("_id"))] *)
Definition stringify_id (d : document) : document :=
  <["_id" := VStr (py_str (d !! "_id"))]> d.

(** The body [{"items": docs}] of a listing response. *)
Record listing := Listing { items : list document }.

(** [post handler b] is the endpoint FastAPI builds from a handler. *)
Definition post {A B} (handler : A → M B) (b : body A) : M B :=
  match b with
  | Valid payload => handler payload
  | Invalid => raise RequestValidationError
  end.

(** *** Freelancers *)

Definition create_freelancer (payload : Freelancer.t) : M created :=
  let* inserted_id := create_document "freelancer" (EFreelancer payload) in
  ret {| id := inserted_id |}.

Definition list_freelancers (skill : option string) : M listing :=
  let filt :=
    match skill with
    | Some s => if Py.truthy_str s then [Field "skills" (RegexOpt s "i")] else []
    | None => []
    end in
  let* docs := get_documents "freelancer" filt None in
  ret {| items := stringify_id <$> docs |}.

(** *** Portfolio *)

Definition add_portfolio (item : PortfolioItem.t) : M created :=
  match ObjectId (PortfolioItem.freelancer_id item) with
  | None => raise (HTTPException 400 "Invalid freelancer_id")
  | Some _id =>
      let* exists_ := find_one "freelancer" [Field "_id" (EqualOid _id)] in
      if negb (truthy_doc exists_) then
        raise (HTTPException 404 "Freelancer not found")
      else
        let* inserted_id := create_document "portfolioitem" (EPortfolioItem item) in
        ret {| id := inserted_id |}
  end.

Definition list_portfolio (freelancer_id : option string) : M listing :=
  let filt :=
    match freelancer_id with
    | Some s => if Py.truthy_str s then [Field "freelancer_id" (EqualStr s)] else []
    | None => []
    end in
  let* docs := get_documents "portfolioitem" filt None in
  ret {| items := stringify_id <$> docs |}.

(** *** Reservations *)

Definition create_reservation (res : Reservation.t) : M created :=
  match ObjectId (Reservation.freelancer_id res) with
  | None => raise (HTTPException 400 "Invalid freelancer_id")
  | Some _id =>
      let* freelancer := find_one "freelancer" [Field "_id" (EqualOid _id)] in
      if negb (truthy_doc freelancer) then
        raise (HTTPException 404 "Freelancer not found")
      else
        let* overlap :=
          find_one "reservation"
            [Field "freelancer_id" (EqualStr (Reservation.freelancer_id res));
             Or [[("start_time", LessThan (Reservation.end_time res));
                  ("end_time", GreaterThan (Reservation.start_time res))]]] in
        if truthy_doc overlap then
          raise (HTTPException 409 "Reservation overlaps with an existing booking")
        else
          let* inserted_id := create_document "reservation" (EReservation res) in
          ret {| id := inserted_id |}
  end.

Definition list_reservations (freelancer_id business_email : option string) : M listing :=
  let filt := [] in
  let filt :=
    match freelancer_id with
    | Some s => if Py.truthy_str s then (filt ++ [Field "freelancer_id" (EqualStr s)])%list else filt
    | None => filt
    end in
  let filt :=
    match business_email with
    | Some s => if Py.truthy_str s then (filt ++ [Field "business_email" (EqualStr s)])%list else filt
    | None => filt
    end in
  let* docs := get_documents "reservation" filt None in
  ret {| items := stringify_id <$> docs |}.

(** *** Advertisements *)

Definition create_ad (ad : Advertisement.t) : M created :=
  let check : M unit :=
    match Advertisement.ad_type ad with
    | Advertisement.business =>
        if negb (Py.truthy_list (Advertisement.designers ad))
           || (length (Advertisement.designers ad) =? 0)%nat
        then raise (HTTPException 400 "Business ads must include designers responsible")
        else
          let heading_lower := str_lower (Advertisement.heading ad) in
          let missing :=
            List.filter (λ n, negb (Py.contains (str_lower n) heading_lower))
                        (Advertisement.designers ad) in
          if Py.truthy_list missing
          then raise (HTTPException 400
                        ("Heading must include designers: " +:+ Py.join ", " missing))
          else ret tt
    | Advertisement.freelancer => ret tt
    end in
  let* _ := check in
  let* inserted_id := create_document "advertisement" (EAdvertisement ad) in
  ret {| id := inserted_id |}.

Definition list_ads (ad_type : option string) : M listing :=
  let filt :=
    match ad_type with
    | Some s => if Py.truthy_str s then [Field "ad_type" (EqualStr s)] else []
    | None => []
    end in
  let* docs := get_documents "advertisement" filt (Some 50) in
  ret {| items := stringify_id <$> docs |}.

(** *** Forum *)

Definition create_thread (thread : ForumThread.t) : M created :=
  let* inserted_id := create_document "forumthread" (EForumThread thread) in
  ret {| id := inserted_id |}.

Definition list_threads (tag : option string) : M listing :=
  let filt :=
    match tag with
    | Some s => if Py.truthy_str s then [Field "tags" (RegexOpt s "i")] else []
    | None => []
    end in
  let* docs := get_documents "forumthread" filt (Some 50) in
  ret {| items := stringify_id <$> docs |}.

Definition create_post (post_ : ForumPost.t) : M created :=
  match ObjectId (ForumPost.thread_id post_) with
  | None => raise (HTTPException 400 "Invalid thread_id")
  | Some _id =>
      let* thread := find_one "forumthread" [Field "_id" (EqualOid _id)] in
      if negb (truthy_doc thread) then
        raise (HTTPException 404 "Thread not found")
      else
        let* inserted_id := create_document "forumpost" (EForumPost post_) in
        ret {| id := inserted_id |}
  end.

Definition list_posts (thread_id : string) : M listing :=
  let* docs := get_documents "forumpost" [Field "thread_id" (EqualStr thread_id)] (Some 200) in
  ret {| items := stringify_id <$> docs |}.

(** ** The vocabulary of the specification *)

(** The collection holds a document with this identifier. *)
Definition has_document (db : database) (name : string) (o : oid) : Prop :=
  ∃ x, x ∈ collection db name ∧ stored_id x = o.

(** The reference parses and names a document of the collection. *)
Definition resolves (db : database) (name reference : string) : Prop :=
  ∃ o, ObjectId reference = Some o ∧ has_document db name o.

(** [existing.start_time < new.end_time AND existing.end_time > new.start_time] *)
Definition overlaps (existing new : Reservation.t) : Prop :=
  (Reservation.start_time existing < Reservation.end_time new)%Z ∧
  (Reservation.end_time existing > Reservation.start_time new)%Z.

(** Some stored reservation of the same freelancer overlaps the new one,
    whatever its status. *)
Definition conflicting (db : database) (new : Reservation.t) : Prop :=
  ∃ x existing,
    x ∈ collection db "reservation" ∧
    stored_entity x = EReservation existing ∧
    Reservation.freelancer_id existing = Reservation.freelancer_id new ∧
    overlaps existing new.

(** The overlap query, as a test on the stored payloads. *)
Definition overlap_check (new : Reservation.t) (x : stored) : bool :=
  match stored_entity x with
  | EReservation r =>
      String.eqb (Reservation.freelancer_id r) (Reservation.freelancer_id new)
      && (Reservation.start_time r <? Reservation.end_time new)%Z
      && (Reservation.end_time r >? Reservation.start_time new)%Z
  | _ => false
  end.

(** The store after a document for [data] is appended to a collection. *)
Definition with_document (db : database) (name : string) (data : entity) : database :=
  {| collections :=
       <[name := (collection db name ++ [Stored (generate_oid (inserted db)) data])%list]>
         (collections db);
     inserted := S (inserted db) |}.

(** The identifier string the next insertion returns. *)
Definition next_id (db : database) : string := oid_str (generate_oid (inserted db)).

(** The field [k] of the document is the text [s]. *)
Definition field_is (k s : string) (d : document) : Prop := d !! k = Some (VStr s).

(** The field [k] of the document is a list with an element that contains
    [q] as a case-insensitive substring. *)
Definition some_element_contains (k q : string) (d : document) : Prop :=
  ∃ l s, d !! k = Some (VList l) ∧ VStr s ∈ l ∧ ci_substring q s.

(** What a list endpoint returns for a stored document. *)
Definition listed (x : stored) : document := stringify_id (gateway_document x).

(** The first [n] documents when a limit [n] is given, all of them when the
    limit is [None]. *)
Definition cap {A} (limit : option nat) (l : list A) : list A :=
  match limit with
  | None => l
  | Some n => take n l
  end.

(** The value a query parameter filters on: none when the parameter is
    absent or empty. *)
Definition filter_value (parameter : option string) : option string :=
  match parameter with
  | Some s => if Py.truthy_str s then Some s else None
  | None => None
  end.

(** The document passes the equality filter of a query parameter on the
    field [k]. *)
Definition passes (k : string) (parameter : option string) (d : document) : Prop :=
  match filter_value parameter with
  | Some s => field_is k s d
  | None => True
  end.

(** The field [k] of the document is a list with a text element that passes
    the test of a pattern. *)
Definition some_element_passes (test : string → bool) (k : string) (d : document) : Prop :=
  ∃ l s, d !! k = Some (VList l) ∧ VStr s ∈ l ∧ test s = true.

(** The document is the stored form of the payload [data] under the
    identifier string [i]: the identifier is a string under the key [_id]
    and every field of the payload is there. *)
Definition holds_entity (i : string) (data : entity) (d : document) : Prop :=
  d !! "_id" = Some (VStr i) ∧
  ∀ k v, model_dump data !! k = Some v → d !! k = Some v.

(** *** The response to a listing

    FastAPI renders what a handler returns as JSON, with [allow_nan=False]:
    an infinite float or a NaN among the items raises a [ValueError], and
    the request is answered 500. *)

Definition is_finite (x : float) : bool :=
  match PrimFloat.classify x with
  | FloatClass.PInf | FloatClass.NInf | FloatClass.NaN => false
  | _ => true
  end.

Fixpoint json_compliant (v : value oid) : bool :=
  match v with
  | VFloat x => is_finite x
  | VList l => forallb json_compliant l
  | VDict kv => forallb (λ entry, let '(_, v') := entry in json_compliant v') kv
  | _ => true
  end.

Definition renders (d : document) : bool :=
  bool_decide (map_Forall (λ _ v, json_compliant v = true) d).

(** The endpoint FastAPI builds from a listing handler. *)
Definition respond (handler : M listing) : M listing :=
  let* l := handler in
  if forallb renders (items l) then ret l else raise ValueError.

(** The listing handler returns on this store and the document is among
    the items it returns. *)
Definition hands_out (m : M listing) (db : database) (d : document) : Prop :=
  ∃ l, m db = (Return l, db) ∧ d ∈ items l.


(** JSON has a text for the payload: its hourly rate, if it has one, is
    neither infinite nor a NaN. *)
Definition finite_rate (data : entity) : Prop :=
  match data with
  | EFreelancer f =>
      match Freelancer.hourly_rate f with
      | Some rate => is_finite rate = true
      | None => True
      end
  | _ => True
  end.

End Service.

(** ** A sample runtime

    Identifiers are the 24 lower-case hexadecimal digits that print them;
    the store numbers the documents it inserts; the regular-expression
    engine refuses every pattern it is asked about; the text whose lower
    case is asked for is left as it is.  The sample runtime
    serves to run the handlers on concrete requests. *)

Module Sample.

Definition is_hex (c : ascii) : bool :=
  let n := N_of_ascii c in
  ((48 <=? n) && (n <=? 57) || (65 <=? n) && (n <=? 70) || (97 <=? n) && (n <=? 102))%N.

Fixpoint all_hex (s : string) : bool :=
  match s with
  | EmptyString => true
  | String c s' => is_hex c && all_hex s'
  end.

Definition hex_digit (n : N) : ascii :=
  if (n <? 10)%N then ascii_of_N (48 + n) else ascii_of_N (87 + n).

(** The [k] lowest hexadecimal digits of [n], most significant first. *)
Fixpoint hex (k : nat) (n : N) (acc : string) : string :=
  match k with
  | O => acc
  | S k' => hex k' (n / 16)%N (String (hex_digit (n mod 16)%N) acc)
  end.

#[export] Instance runtime : Runtime := {|
  oid := string;
  ObjectId s :=
    if (String.length s =? 24)%nat && all_hex s then Some (Py.lower_ascii s) else None;
  oid_str o := o;
  generate_oid n := hex 24 (N.of_nat n) "";
  regex_engine _ _ := None;
  str_other _ := "";
  unicode_lower s := s;
|}.

Definition empty_db : database := {| collections := ∅; inserted := 0 |}.

(** Run a computation and keep the store it leaves. *)
Definition exec {A} (m : M A) (db : database) : database := (m db).2.

(** Run a computation and keep its outcome. *)
Definition eval {A} (m : M A) (db : database) : result A := (m db).1.

Definition ana : Freelancer.t := {|
  Freelancer.name := "Ana";
  Freelancer.email := "ana@example.org";
  Freelancer.skills := ["UX Design"; "Branding"];
  Freelancer.bio := None;
  Freelancer.avatar_url := None;
  Freelancer.hourly_rate := None;
  Freelancer.portfolio_links := [];
  Freelancer.availability := [];
|}.

Definition ana_id : string := "000000000000000000000000".

Definition booking (s e : Z) : Reservation.t := {|
  Reservation.business_name := "Acme";
  Reservation.business_email := "acme@example.org";
  Reservation.freelancer_id := ana_id;
  Reservation.start_time := s;
  Reservation.end_time := e;
  Reservation.notes := None;
  Reservation.status := Reservation.pending;
|}.

(** The store after Ana has registered. *)
Definition db_ana : database := exec (create_freelancer ana) empty_db.

Definition portfolio_of (freelancer_id : string) : PortfolioItem.t := {|
  PortfolioItem.freelancer_id := freelancer_id;
  PortfolioItem.title := "Logo";
  PortfolioItem.description := None;
  PortfolioItem.project_url := None;
  PortfolioItem.image_url := None;
  PortfolioItem.tags := ["branding"];
|}.

Definition reply_to (thread_id : string) : ForumPost.t := {|
  ForumPost.thread_id := thread_id;
  ForumPost.content := "Welcome";
  ForumPost.author_name := "Ana";
|}.

(** The store after Ana has registered and was booked at the instant 1000,
    for no time at all. *)
Definition db_point : database := exec (create_reservation (booking 1000 1000)) db_ana.

Definition business_ad (heading : string) (designers : list string) : Advertisement.t := {|
  Advertisement.ad_type := Advertisement.business;
  Advertisement.heading := heading;
  Advertisement.content := "Take a look";
  Advertisement.designers := designers;
  Advertisement.business_name := Some "Acme";
  Advertisement.freelancer_id := None;
|}.

(** The store after Ana was booked from 900 to 1000. *)
Definition db_booked : database := exec (create_reservation (booking 900 1000)) db_ana.

(** A freelancer who lists no skill, and the store after she registered. *)
Definition eve : Freelancer.t := {|
  Freelancer.name := "Eve";
  Freelancer.email := "eve@example.org";
  Freelancer.skills := [];
  Freelancer.bio := None;
  Freelancer.avatar_url := None;
  Freelancer.hourly_rate := None;
  Freelancer.portfolio_links := [];
  Freelancer.availability := [];
|}.

Definition db_eve : database := exec (create_freelancer eve) empty_db.

Definition thread : ForumThread.t := {|
  ForumThread.title := "Portfolio reviews";
  ForumThread.content := "Post yours";
  ForumThread.author_type := ForumThread.guest;
  ForumThread.author_name := "Ana";
  ForumThread.tags := ["Design"];
|}.

(** The store after the same thread was posted 51 times. *)
Definition db_threads : database := Nat.iter 51 (exec (create_thread thread)) empty_db.

(** The store after a thread was opened and answered once. *)
Definition db_posted : database :=
  exec (create_post (reply_to "000000000000000000000000"))
    (exec (create_thread thread) empty_db).

Definition ad : Advertisement.t := business_ad "Ana's new page" ["Ana"].

(** The store after the same advertisement was published 50 times. *)
Definition db_ads : database := Nat.iter 50 (exec (create_ad ad)) empty_db.

(** The identifiers, as listed, of the items of a listing response. *)
Definition ids (r : result listing) : list string :=
  match r with
  | Return l => (λ d, py_str (d !! "_id")) <$> items l
  | Raise _ => []
  end.

End Sample.


(** ** Properties of Python strings *)

Lemma append_cons (c : ascii) (a b : string) :
  String c a +:+ b = String c (a +:+ b).
Proof. reflexivity. Qed.

Lemma startswith_spec (p s : string) :
  Py.startswith p s = true ↔ ∃ b : string, s = p +:+ b.
Proof.
  revert s. induction p as [|a p IH]; intros s; simpl.
  - split; [intros _; by exists s | done].
  - destruct s as [|b s].
    + split; [done | by intros [? ?]].
    + destruct (Ascii.eqb_spec a b) as [->|Hab].
      * rewrite IH. split; intros [t Ht]; exists t;
          rewrite append_cons in *; congruence.
      * split; [done | intros [t Ht]; rewrite append_cons in Ht; congruence].
Qed.

(** [p in s] decides what the specification calls a substring. *)
Lemma contains_spec (p s : string) :
  Py.contains p s = true ↔ substring p s.
Proof.
  unfold substring. induction s as [|c s IH]; simpl.
  - rewrite orb_false_r, startswith_spec. split.
    + intros [b Hb]. by exists "", b.
    + intros ([|x a] & b & Hab); [by exists b | by rewrite append_cons in Hab].
  - rewrite orb_true_iff, startswith_spec, IH. split.
    + intros [[b Hb] | (a & b & Hab)].
      * by exists "", b.
      * exists (String c a), b. by rewrite append_cons, Hab.
    + intros ([|x a] & b & Hab).
      * left. by exists b.
      * right. exists a, b. rewrite append_cons in Hab. congruence.
Qed.

#[global] Instance substring_dec (p s : string) : Decision (substring p s).
Proof.
  destruct (Py.contains p s) eqn:E.
  - left. by apply contains_spec.
  - right. intros Hs. apply contains_spec in Hs. congruence.
Defined.

(** *** Letters without regard to case *)

Lemma lower_char_code (c : ascii) :
  N_of_ascii (Py.lower_char c) =
    (if Py.is_upper c then N_of_ascii c + 32 else N_of_ascii c)%N.
Proof.
  unfold Py.lower_char. destruct (Py.is_upper c) eqn:Hc; [|done].
  apply N_ascii_embedding. unfold Py.is_upper in Hc.
  apply andb_true_iff in Hc as [_ Hc%N.leb_le]. lia.
Qed.

Lemma is_upper_code (c : ascii) :
  Py.is_upper c = true ↔ (65 ≤ N_of_ascii c ≤ 90)%N.
Proof.
  unfold Py.is_upper. rewrite andb_true_iff, !N.leb_le. tauto.
Qed.

(** Two characters have the same lower case exactly when they are the same
    letter. *)
Lemma lower_char_same (a b : ascii) :
  Py.lower_char a = Py.lower_char b ↔ same_letter a b.
Proof.
  assert (Hinj : ∀ x y, N_of_ascii x = N_of_ascii y → x = y).
  { intros x y Hxy. by rewrite <- (ascii_N_embedding x), <- (ascii_N_embedding y), Hxy. }
  unfold same_letter, capital_of. split.
  - intros Hab. apply (f_equal N_of_ascii) in Hab. rewrite !lower_char_code in Hab.
    destruct (Py.is_upper a) eqn:Ha, (Py.is_upper b) eqn:Hb.
    + left. apply Hinj. lia.
    + right. left. apply is_upper_code in Ha. split; [done | lia].
    + right. right. apply is_upper_code in Hb. split; [done | lia].
    + left. by apply Hinj.
  - intros [-> | [[Ha Hab] | [Hb Hab]]]; [done | |]; apply Hinj;
      rewrite !lower_char_code.
    + rewrite (proj2 (is_upper_code a) Ha).
      destruct (Py.is_upper b) eqn:Hb; [apply is_upper_code in Hb; lia | lia].
    + rewrite (proj2 (is_upper_code b) Hb).
      destruct (Py.is_upper a) eqn:Ha; [apply is_upper_code in Ha; lia | lia].
Qed.

Lemma lower_ascii_same (p m : string) :
  Py.lower_ascii p = Py.lower_ascii m ↔ same_letters p m.
Proof.
  revert m. induction p as [|a p IH]; intros [|b m]; simpl; try done.
  rewrite <- IH, <- lower_char_same. split; [by intros [= -> ->] | by intros [-> ->]].
Qed.

Lemma lower_ascii_app (a b : string) :
  Py.lower_ascii (a +:+ b) = Py.lower_ascii a +:+ Py.lower_ascii b.
Proof. induction a as [|c a IH]; simpl; [done|]. by rewrite !append_cons, <- IH. Qed.

Lemma lower_ascii_split (s x z : string) :
  Py.lower_ascii s = x +:+ z →
  ∃ a c, s = a +:+ c ∧ Py.lower_ascii a = x ∧ Py.lower_ascii c = z.
Proof.
  revert s. induction x as [|d x IH]; intros s Hs.
  - by exists "", s.
  - destruct s as [|e s]; [done|]. rewrite append_cons in Hs. simpl in Hs.
    injection Hs as Hd Hs. destruct (IH s Hs) as (a & c & -> & Ha & Hc).
    exists (String e a), c. simpl. by rewrite append_cons, Hd, Ha.
Qed.

(** A text occurs in another without regard to the case of the letters
    exactly when its lower case occurs in the lower case of the other. *)
Lemma ci_substring_lower (p s : string) :
  ci_substring p s ↔ substring (Py.lower_ascii p) (Py.lower_ascii s).
Proof.
  split.
  - intros (a & m & b & -> & Hm%lower_ascii_same).
    exists (Py.lower_ascii a), (Py.lower_ascii b).
    by rewrite !lower_ascii_app, Hm.
  - intros (x & y & Hs).
    apply lower_ascii_split in Hs as (a & c & -> & _ & Hc).
    apply lower_ascii_split in Hc as (m & b & -> & Hm & _).
    exists a, m, b. split; [done|]. by apply lower_ascii_same.
Qed.

#[global] Instance ci_substring_dec (p s : string) : Decision (ci_substring p s).
Proof.
  destruct (decide (substring (Py.lower_ascii p) (Py.lower_ascii s))) as [Hs|Hs].
  - left. by apply ci_substring_lower.
  - right. by rewrite ci_substring_lower.
Defined.

Lemma contains_lower_ci (p s : string) :
  Py.contains (Py.lower_ascii p) (Py.lower_ascii s) = bool_decide (ci_substring p s).
Proof.
  destruct (Py.contains _ _) eqn:E; symmetry.
  - apply bool_decide_eq_true. by apply ci_substring_lower, contains_spec.
  - apply bool_decide_eq_false. intros Hs%ci_substring_lower%contains_spec. congruence.
Qed.

(** *** [str.lower()] *)

Lemma str_lower_ascii `{Runtime} (s : string) :
  Py.ascii_text s = true → str_lower s = Py.lower_ascii s.
Proof. intros Hs. unfold str_lower. by rewrite Hs. Qed.

#[global] Instance lower_substring_dec `{Runtime} (p s : string) :
  Decision (lower_substring p s).
Proof. unfold lower_substring. apply _. Defined.

Lemma contains_lower `{Runtime} (p s : string) :
  Py.contains (str_lower p) (str_lower s) = bool_decide (lower_substring p s).
Proof.
  destruct (Py.contains _ _) eqn:E; symmetry.
  - apply bool_decide_eq_true. by apply contains_spec.
  - apply bool_decide_eq_false. intros Hs%contains_spec. congruence.
Qed.

(** On text of ASCII, the search in lower case is the search without
    regard to case. *)
Lemma lower_substring_ascii `{Runtime} (p s : string) :
  Py.ascii_text p = true → Py.ascii_text s = true →
  lower_substring p s ↔ ci_substring p s.
Proof.
  intros Hp Hs. unfold lower_substring.
  by rewrite (str_lower_ascii p Hp), (str_lower_ascii s Hs), ci_substring_lower.
Qed.

Lemma truthy_list_nil {A} (l : list A) : Py.truthy_list l = false ↔ l = [].
Proof. by destruct l. Qed.

(** [List.filter] on a boolean test and stdpp's [filter] on the property
    it decides give the same list. *)
Lemma filter_bool_decide {A} (P : A → Prop) `{∀ x, Decision (P x)} (f : A → bool) (l : list A) :
  (∀ x, f x = bool_decide (P x)) → List.filter f l = filter P l.
Proof.
  intros Hf. induction l as [|x l IH]; simpl; [done|].
  rewrite Hf, filter_cons, IH. destruct (decide (P x)).
  - by rewrite bool_decide_eq_true_2.
  - by rewrite bool_decide_eq_false_2.
Qed.

Lemma filter_eq_nil {A} (P : A → Prop) `{∀ x, Decision (P x)} (l : list A) :
  filter P l = [] ↔ ∀ x, x ∈ l → ¬ P x.
Proof.
  induction l as [|y l IH]; [by split; [intros _ x ?%elem_of_nil | ]|].
  rewrite filter_cons. destruct (decide (P y)) as [Hy|Hy].
  - split; [done|]. intros Hall. destruct (Hall y); [left | done].
  - rewrite IH. split.
    + intros Hall x [->|Hx]%elem_of_cons; auto.
    + intros Hall x Hx. apply Hall. by right.
Qed.

Lemma existsb_pointwise {A} (f g : A → bool) (l : list A) :
  (∀ x, f x = g x) → existsb f l = existsb g l.
Proof. intros Hfg. induction l as [|x l IH]; simpl; [done|]. by rewrite Hfg, IH. Qed.

Lemma filter_pointwise {A} (f g : A → bool) (l : list A) :
  (∀ x, f x = g x) → List.filter f l = List.filter g l.
Proof. intros Hfg. induction l as [|x l IH]; simpl; [done|]. by rewrite Hfg, IH. Qed.

(** ** Properties of the interpreted patterns *)

Lemma parse_literal (p : string) :
  Regex.literal p = true → Regex.parse p = Some (Regex.chars p).
Proof.
  induction p as [|c p IH]; simpl; [done|].
  intros [Hc Hp]%andb_true_iff. rewrite (IH Hp). unfold Regex.parse_char.
  destruct (Ascii.eqb_spec c ".") as [->|_]; [done|]. by rewrite Hc.
Qed.

Lemma match_here_chars (p s : string) :
  Regex.match_here (Regex.chars p) s = Py.startswith (Py.lower_ascii p) (Py.lower_ascii s).
Proof.
  unfold Regex.match_here.
  revert s. induction p as [|c p IH]; intros [|d s]; simpl; try done.
  rewrite IH. by destruct (Ascii.eqb _ _).
Qed.

Lemma search_chars (p s : string) :
  Regex.search (Regex.chars p) s = Py.contains (Py.lower_ascii p) (Py.lower_ascii s).
Proof.
  induction s as [|d s IH]; simpl.
  - by rewrite (match_here_chars p "").
  - by rewrite (match_here_chars p (String d s)), IH.
Qed.

(** ** Properties of the store and of the gateway *)

Section Store.

Context `{Runtime}.

#[local] Abbreviation document := (gmap string (value oid)).

Lemma collection_with_document_eq db name data :
  collection (with_document db name data) name =
  (collection db name ++ [Stored (generate_oid (inserted db)) data])%list.
Proof. unfold collection at 1, with_document. simpl. by rewrite lookup_insert_eq. Qed.

Lemma collection_with_document_ne db name name' data :
  name ≠ name' →
  collection (with_document db name data) name' = collection db name'.
Proof.
  intros Hne. unfold collection, with_document. simpl. by rewrite lookup_insert_ne.
Qed.

Lemma create_document_eq name data db :
  create_document name data db = (Return (next_id db), with_document db name data).
Proof. reflexivity. Qed.

(** A stored document is never the empty dict. *)
Lemma raw_document_truthy (x : stored) : truthy_doc (Some (raw_document x)) = true.
Proof.
  unfold truthy_doc, raw_document. apply negb_true_iff, bool_decide_eq_false.
  rewrite map_size_empty_iff. apply insert_non_empty.
Qed.

Lemma truthy_find (test : document → bool) (l : list stored) :
  truthy_doc (head (List.filter test (raw_document <$> l))) =
  existsb (λ x, test (raw_document x)) l.
Proof.
  induction l as [|x l IH]; simpl; [done|].
  destruct (test (raw_document x)); simpl; [apply raw_document_truthy | done].
Qed.

(** The test of [{"_id": o}] on a stored document. *)
Lemma id_test (o : oid) (x : stored) :
  field_holds (λ v, match v with VOid o' => bool_decide (o' = o) | _ => false end)
    "_id" (raw_document x) = bool_decide (stored_id x = o).
Proof. unfold field_holds, raw_document. by rewrite lookup_insert_eq. Qed.

Lemma existsb_id (o : oid) (l : list stored) :
  existsb (λ x, bool_decide (stored_id x = o)) l = true ↔ ∃ x, x ∈ l ∧ stored_id x = o.
Proof.
  rewrite existsb_exists. split; intros (x & Hx & Ho); exists x.
  - apply list_elem_of_In in Hx. by apply bool_decide_eq_true in Ho.
  - apply list_elem_of_In in Hx. by rewrite bool_decide_eq_true.
Qed.

(** [find_one({"_id": o})] reads the store and finds a document exactly when
    the collection has one with that identifier. *)
Lemma find_one_id (name : string) (o : oid) (db : database) :
  ∃ r, find_one name [Field "_id" (EqualOid o)] db = (Return r, db) ∧
       (truthy_doc r = true ↔ has_document db name o).
Proof.
  eexists. split; [reflexivity|].
  rewrite truthy_find. unfold has_document. rewrite <- existsb_id.
  erewrite existsb_pointwise; [done|]. intros x. simpl.
  by rewrite id_test, andb_true_r.
Qed.

End Store.

(** ** The creation handlers *)

Section Creation.

Context `{Runtime}.

#[local] Abbreviation document := (gmap string (value oid)).

(** Evaluate the lookups of a stored document whose payload is known. *)
Ltac compute_lookups :=
  repeat match goal with
  | |- context [raw_document ?x !! ?k] =>
      let v := eval vm_compute in (raw_document x !! k) in
      change (raw_document x !! k) with v
  end.

(** The test of the overlap query on a stored document: only a reservation
    has the three fields, and it passes when it is of the same freelancer
    and overlaps. *)
Lemma overlap_test (res : Reservation.t) (x : stored) (test : document → bool) :
  compile_filter
    [Field "freelancer_id" (EqualStr (Reservation.freelancer_id res));
     Or [[("start_time", LessThan (Reservation.end_time res));
          ("end_time", GreaterThan (Reservation.start_time res))]]] = Some test →
  test (raw_document x) = overlap_check res x.
Proof.
  intros [= <-]. destruct x as [o e]. unfold overlap_check. simpl stored_entity.
  unfold field_holds.
  destruct e as [[]|[]|[]|[]|[]|[]]; compute_lookups; simpl;
    rewrite ?andb_true_r, ?orb_false_r, ?andb_false_r, ?andb_assoc; reflexivity.
Qed.

Lemma conflicting_existsb (db : database) (res : Reservation.t) :
  conflicting db res ↔ existsb (overlap_check res) (collection db "reservation") = true.
Proof.
  rewrite existsb_exists. unfold conflicting, overlaps, overlap_check. split.
  - intros (x & r & Hx & Ex & Hf & Hs & He). exists x. split.
    + by apply list_elem_of_In.
    + rewrite Ex. apply String.eqb_eq in Hf. apply Z.ltb_lt in Hs. apply Z.gtb_gt in He.
      by rewrite Hf, Hs, He.
  - intros (x & Hx & Ht).
    destruct (stored_entity x) as [| |r| | |] eqn:Ex; try done.
    apply andb_true_iff in Ht as [[Hf Hs]%andb_true_iff He].
    exists x, r. split_and!.
    + by apply list_elem_of_In.
    + done.
    + by apply String.eqb_eq.
    + by apply Z.ltb_lt.
    + by apply Z.gtb_gt.
Qed.

Lemma find_one_overlap (res : Reservation.t) (db : database) :
  ∃ r,
    find_one "reservation"
      [Field "freelancer_id" (EqualStr (Reservation.freelancer_id res));
       Or [[("start_time", LessThan (Reservation.end_time res));
            ("end_time", GreaterThan (Reservation.start_time res))]]] db = (Return r, db) ∧
    (truthy_doc r = true ↔ conflicting db res).
Proof.
  eexists. split; [reflexivity|].
  rewrite truthy_find, conflicting_existsb.
  erewrite existsb_pointwise; [done|]. intros x. exact (overlap_test res x _ eq_refl).
Qed.

(** *** add_portfolio *)

Lemma add_portfolio_invalid item db :
  ObjectId (PortfolioItem.freelancer_id item) = None →
  add_portfolio item db = (Raise (HTTPException 400 "Invalid freelancer_id"), db).
Proof. intros Ho. unfold add_portfolio. by rewrite Ho. Qed.

Lemma add_portfolio_not_found item db o :
  ObjectId (PortfolioItem.freelancer_id item) = Some o →
  ¬ has_document db "freelancer" o →
  add_portfolio item db = (Raise (HTTPException 404 "Freelancer not found"), db).
Proof.
  intros Ho Hno. unfold add_portfolio, bind. rewrite Ho.
  destruct (find_one_id "freelancer" o db) as (r & -> & Hr).
  destruct (truthy_doc r); [by destruct Hno; apply Hr | done].
Qed.

Lemma add_portfolio_found item db o :
  ObjectId (PortfolioItem.freelancer_id item) = Some o →
  has_document db "freelancer" o →
  add_portfolio item db =
    (Return {| id := next_id db |}, with_document db "portfolioitem" (EPortfolioItem item)).
Proof.
  intros Ho Hyes. unfold add_portfolio, bind. rewrite Ho.
  destruct (find_one_id "freelancer" o db) as (r & -> & Hr).
  apply Hr in Hyes. by rewrite Hyes.
Qed.

(** *** create_post *)

Lemma create_post_invalid p db :
  ObjectId (ForumPost.thread_id p) = None →
  create_post p db = (Raise (HTTPException 400 "Invalid thread_id"), db).
Proof. intros Ho. unfold create_post. by rewrite Ho. Qed.

Lemma create_post_not_found p db o :
  ObjectId (ForumPost.thread_id p) = Some o →
  ¬ has_document db "forumthread" o →
  create_post p db = (Raise (HTTPException 404 "Thread not found"), db).
Proof.
  intros Ho Hno. unfold create_post, bind. rewrite Ho.
  destruct (find_one_id "forumthread" o db) as (r & -> & Hr).
  destruct (truthy_doc r); [by destruct Hno; apply Hr | done].
Qed.

Lemma create_post_found p db o :
  ObjectId (ForumPost.thread_id p) = Some o →
  has_document db "forumthread" o →
  create_post p db =
    (Return {| id := next_id db |}, with_document db "forumpost" (EForumPost p)).
Proof.
  intros Ho Hyes. unfold create_post, bind. rewrite Ho.
  destruct (find_one_id "forumthread" o db) as (r & -> & Hr).
  apply Hr in Hyes. by rewrite Hyes.
Qed.

(** *** create_reservation *)

Lemma create_reservation_invalid res db :
  ObjectId (Reservation.freelancer_id res) = None →
  create_reservation res db = (Raise (HTTPException 400 "Invalid freelancer_id"), db).
Proof. intros Ho. unfold create_reservation. by rewrite Ho. Qed.

Lemma create_reservation_not_found res db o :
  ObjectId (Reservation.freelancer_id res) = Some o →
  ¬ has_document db "freelancer" o →
  create_reservation res db = (Raise (HTTPException 404 "Freelancer not found"), db).
Proof.
  intros Ho Hno. unfold create_reservation, bind. rewrite Ho.
  destruct (find_one_id "freelancer" o db) as (r & -> & Hr).
  destruct (truthy_doc r); [by destruct Hno; apply Hr | done].
Qed.

Lemma create_reservation_conflict res db :
  resolves db "freelancer" (Reservation.freelancer_id res) →
  conflicting db res →
  create_reservation res db =
    (Raise (HTTPException 409 "Reservation overlaps with an existing booking"), db).
Proof.
  intros (o & Ho & Hyes) Hc. unfold create_reservation, bind. rewrite Ho.
  destruct (find_one_id "freelancer" o db) as (r & -> & Hr).
  apply Hr in Hyes. rewrite Hyes. cbn [negb].
  destruct (find_one_overlap res db) as (r' & -> & Hr').
  apply Hr' in Hc. by rewrite Hc.
Qed.

Lemma create_reservation_accepted res db :
  resolves db "freelancer" (Reservation.freelancer_id res) →
  ¬ conflicting db res →
  create_reservation res db =
    (Return {| id := next_id db |}, with_document db "reservation" (EReservation res)).
Proof.
  intros (o & Ho & Hyes) Hc. unfold create_reservation, bind. rewrite Ho.
  destruct (find_one_id "freelancer" o db) as (r & -> & Hr).
  apply Hr in Hyes. rewrite Hyes. cbn [negb].
  destruct (find_one_overlap res db) as (r' & -> & Hr').
  destruct (truthy_doc r'); [by destruct Hc; apply Hr' | done].
Qed.

(** Inserting a reservation adds exactly the conflicts that reservation
    causes. *)
Lemma conflicting_with_document db (earlier new : Reservation.t) :
  conflicting (with_document db "reservation" (EReservation earlier)) new ↔
  conflicting db new ∨
  (Reservation.freelancer_id earlier = Reservation.freelancer_id new ∧ overlaps earlier new).
Proof.
  unfold conflicting. rewrite collection_with_document_eq. split.
  - intros (x & r & Hx & Ex & Hf & Ho). apply elem_of_app in Hx as [Hx | Hx].
    + left. by exists x, r.
    + right. apply list_elem_of_singleton in Hx. subst x. simpl in Ex.
      by injection Ex as ->.
  - intros [(x & r & Hx & Ex & Hf & Ho) | [Hf Ho]].
    + exists x, r. rewrite elem_of_app. auto.
    + exists (Stored (generate_oid (inserted db)) (EReservation earlier)), earlier.
      rewrite elem_of_app, list_elem_of_singleton. eauto.
Qed.

Lemma resolves_with_document db name name' reference data :
  resolves db name reference → resolves (with_document db name' data) name reference.
Proof.
  intros (o & Ho & x & Hx & Hid). exists o. split; [done|]. exists x. split; [|done].
  destruct (decide (name' = name)) as [->|Hne].
  - rewrite collection_with_document_eq, elem_of_app. by left.
  - by rewrite collection_with_document_ne.
Qed.

Lemma has_document_dec db name (o : oid) :
  has_document db name o ∨ ¬ has_document db name o.
Proof.
  unfold has_document. rewrite <- existsb_id.
  destruct (existsb _ _); [by left | by right].
Qed.

Lemma conflicting_dec db res : conflicting db res ∨ ¬ conflicting db res.
Proof.
  destruct (find_one_overlap res db) as (r & _ & Hr). rewrite <- Hr.
  destruct (truthy_doc r); [by left | by right].
Qed.

(** *** create_ad *)

(** The designers whose name does not occur in the heading, in the order
    of the request. *)
Definition missing_designers (ad : Advertisement.t) : list string :=
  filter (λ n, ¬ lower_substring n (Advertisement.heading ad)) (Advertisement.designers ad).

Lemma missing_designers_eq (ad : Advertisement.t) :
  List.filter (λ n, negb (Py.contains (str_lower n) (str_lower (Advertisement.heading ad))))
    (Advertisement.designers ad) = missing_designers ad.
Proof.
  apply filter_bool_decide. intros n. by rewrite contains_lower, bool_decide_not.
Qed.

Lemma missing_designers_nil (ad : Advertisement.t) :
  missing_designers ad = [] ↔
  ∀ n, n ∈ Advertisement.designers ad → lower_substring n (Advertisement.heading ad).
Proof.
  unfold missing_designers. rewrite filter_eq_nil. split.
  - intros Hall n Hn.
    destruct (decide (lower_substring n (Advertisement.heading ad))); [done|].
    by destruct (Hall n Hn).
  - intros Hall n Hn Hnot. by apply Hnot, Hall.
Qed.

Lemma create_ad_freelancer ad db :
  Advertisement.ad_type ad = Advertisement.freelancer →
  create_ad ad db =
    (Return {| id := next_id db |}, with_document db "advertisement" (EAdvertisement ad)).
Proof. intros Ht. unfold create_ad, bind. by rewrite Ht. Qed.

Lemma create_ad_no_designers ad db :
  Advertisement.ad_type ad = Advertisement.business →
  Advertisement.designers ad = [] →
  create_ad ad db =
    (Raise (HTTPException 400 "Business ads must include designers responsible"), db).
Proof. intros Ht Hd. unfold create_ad, bind. by rewrite Ht, Hd. Qed.

Lemma create_ad_missing ad db :
  Advertisement.ad_type ad = Advertisement.business →
  Advertisement.designers ad ≠ [] →
  missing_designers ad ≠ [] →
  create_ad ad db =
    (Raise (HTTPException 400
       ("Heading must include designers: " +:+ Py.join ", " (missing_designers ad))), db).
Proof.
  intros Ht Hd Hm. unfold create_ad, bind. rewrite Ht, missing_designers_eq.
  destruct (Advertisement.designers ad); [done|]. simpl.
  by destruct (missing_designers ad).
Qed.

Lemma create_ad_complete ad db :
  Advertisement.ad_type ad = Advertisement.business →
  Advertisement.designers ad ≠ [] →
  missing_designers ad = [] →
  create_ad ad db =
    (Return {| id := next_id db |}, with_document db "advertisement" (EAdvertisement ad)).
Proof.
  intros Ht Hd Hm. unfold create_ad, bind. rewrite Ht, missing_designers_eq, Hm.
  by destruct (Advertisement.designers ad).
Qed.

(** *** Every creation either inserts one document or leaves the store *)

Ltac in_list := simpl; rewrite !elem_of_cons; auto 6.

(** The outcome of a creation handler: the document is appended and its
    identifier returned, or the request is rejected and the store is the
    one the handler started from. *)
Definition created_or_rejected (m : M created) (db : database)
    (name : string) (data : entity) : Prop :=
  m db = (Return {| id := next_id db |}, with_document db name data) ∨
  ∃ e, m db = (Raise e, db) ∧ status_code_of (@Raise created e) ∈ [400; 404; 409; 422]%Z.

Lemma create_freelancer_outcome payload db :
  created_or_rejected (create_freelancer payload) db "freelancer" (EFreelancer payload).
Proof. by left. Qed.

Lemma create_thread_outcome thread db :
  created_or_rejected (create_thread thread) db "forumthread" (EForumThread thread).
Proof. by left. Qed.

Lemma add_portfolio_outcome item db :
  created_or_rejected (add_portfolio item) db "portfolioitem" (EPortfolioItem item).
Proof.
  destruct (ObjectId (PortfolioItem.freelancer_id item)) as [o|] eqn:Ho.
  - destruct (has_document_dec db "freelancer" o) as [Hyes|Hno].
    + left. by eapply add_portfolio_found.
    + right. eexists. split; [by eapply add_portfolio_not_found|]. in_list.
  - right. eexists. split; [by apply add_portfolio_invalid|]. in_list.
Qed.

Lemma create_post_outcome p db :
  created_or_rejected (create_post p) db "forumpost" (EForumPost p).
Proof.
  destruct (ObjectId (ForumPost.thread_id p)) as [o|] eqn:Ho.
  - destruct (has_document_dec db "forumthread" o) as [Hyes|Hno].
    + left. by eapply create_post_found.
    + right. eexists. split; [by eapply create_post_not_found|]. in_list.
  - right. eexists. split; [by apply create_post_invalid|]. in_list.
Qed.

Lemma create_reservation_outcome res db :
  created_or_rejected (create_reservation res) db "reservation" (EReservation res).
Proof.
  destruct (ObjectId (Reservation.freelancer_id res)) as [o|] eqn:Ho.
  - destruct (has_document_dec db "freelancer" o) as [Hyes|Hno].
    + assert (resolves db "freelancer" (Reservation.freelancer_id res)) as Hres.
      { exists o. by split. }
      destruct (conflicting_dec db res) as [Hc|Hc].
      * right. eexists. split; [by apply create_reservation_conflict|]. in_list.
      * left. by apply create_reservation_accepted.
    + right. eexists. split; [by eapply create_reservation_not_found|]. in_list.
  - right. eexists. split; [by apply create_reservation_invalid|]. in_list.
Qed.

Lemma create_ad_outcome ad db :
  created_or_rejected (create_ad ad) db "advertisement" (EAdvertisement ad).
Proof.
  destruct (Advertisement.ad_type ad) eqn:Ht.
  - destruct (decide (Advertisement.designers ad = [])) as [Hd|Hd].
    + right. eexists. split; [by apply create_ad_no_designers|]. in_list.
    + destruct (decide (missing_designers ad = [])) as [Hm|Hm].
      * left. by apply create_ad_complete.
      * right. eexists. split; [by apply create_ad_missing|]. in_list.
  - left. by apply create_ad_freelancer.
Qed.

(** A body that does not fit the schema is answered 422 by the endpoint,
    which never calls the handler. *)
Lemma post_outcome {A} (handler : A → M created) (b : body A) db name (data : A → entity) :
  (∀ payload, created_or_rejected (handler payload) db name (data payload)) →
  match b with
  | Valid payload => created_or_rejected (post handler b) db name (data payload)
  | Invalid => post handler b db = (Raise RequestValidationError, db)
  end.
Proof. intros Hh. destruct b; [apply Hh | done]. Qed.

Lemma rejected_unchanged {A} (handler : A → M created) (b : body A) db name (data : A → entity) e :
  (∀ payload, created_or_rejected (handler payload) db name (data payload)) →
  (post handler b db).1 = Raise e →
  (post handler b db).2 = db ∧ status_code_of (@Raise created e) ∈ [400; 404; 409; 422]%Z.
Proof.
  intros Hh He. pose proof (post_outcome handler b db name data Hh) as Ho.
  destruct b as [payload|].
  - destruct Ho as [Ho | (e' & Ho & Hs)]; rewrite Ho in He |- *; simpl in *; [done|].
    by injection He as <-.
  - rewrite Ho in He |- *. simpl in *. injection He as <-. split; [done|]. in_list.
Qed.

End Creation.

(** ** Referential checks *)

Section References.

Context `{Runtime}.

Lemma add_portfolio_returns item db c db' :
  add_portfolio item db = (Return c, db') →
  resolves db "freelancer" (PortfolioItem.freelancer_id item).
Proof.
  intros Hr. destruct (ObjectId (PortfolioItem.freelancer_id item)) as [o|] eqn:Ho.
  - destruct (has_document_dec db "freelancer" o) as [Hyes|Hno]; [by exists o|].
    by rewrite (add_portfolio_not_found _ _ _ Ho Hno) in Hr.
  - by rewrite (add_portfolio_invalid _ _ Ho) in Hr.
Qed.

Lemma create_post_returns p db c db' :
  create_post p db = (Return c, db') →
  resolves db "forumthread" (ForumPost.thread_id p).
Proof.
  intros Hr. destruct (ObjectId (ForumPost.thread_id p)) as [o|] eqn:Ho.
  - destruct (has_document_dec db "forumthread" o) as [Hyes|Hno]; [by exists o|].
    by rewrite (create_post_not_found _ _ _ Ho Hno) in Hr.
  - by rewrite (create_post_invalid _ _ Ho) in Hr.
Qed.

Lemma create_reservation_proceeds res db e db' :
  create_reservation res db = (e, db') →
  status_code_of e ≠ 400%Z → status_code_of e ≠ 404%Z →
  resolves db "freelancer" (Reservation.freelancer_id res).
Proof.
  intros Hr H400 H404. destruct (ObjectId (Reservation.freelancer_id res)) as [o|] eqn:Ho.
  - destruct (has_document_dec db "freelancer" o) as [Hyes|Hno]; [by exists o|].
    rewrite (create_reservation_not_found _ _ _ Ho Hno) in Hr. by injection Hr as <- <-.
  - rewrite (create_reservation_invalid _ _ Ho) in Hr. by injection Hr as <- <-.
Qed.

(** C3.  Creating a portfolio item, a reservation or a forum post fails with
    400 when the referenced id does not parse, and with 404 when it parses
    but the referenced collection has no document with that identifier; the
    store is left as it was.  The handler goes on (to the insertion; for a
    reservation, to the overlap check and then the insertion) exactly when
    the reference resolves. *)
Theorem reference_checked_before_creation (db : database) :
  (∀ item : PortfolioItem.t,
     (ObjectId (PortfolioItem.freelancer_id item) = None →
        add_portfolio item db = (Raise (HTTPException 400 "Invalid freelancer_id"), db)) ∧
     (∀ o, ObjectId (PortfolioItem.freelancer_id item) = Some o →
        ¬ has_document db "freelancer" o →
        add_portfolio item db = (Raise (HTTPException 404 "Freelancer not found"), db)) ∧
     (resolves db "freelancer" (PortfolioItem.freelancer_id item) ↔
        add_portfolio item db =
          (Return {| id := next_id db |},
           with_document db "portfolioitem" (EPortfolioItem item)))) ∧
  (∀ res : Reservation.t,
     (ObjectId (Reservation.freelancer_id res) = None →
        create_reservation res db = (Raise (HTTPException 400 "Invalid freelancer_id"), db)) ∧
     (∀ o, ObjectId (Reservation.freelancer_id res) = Some o →
        ¬ has_document db "freelancer" o →
        create_reservation res db = (Raise (HTTPException 404 "Freelancer not found"), db)) ∧
     (resolves db "freelancer" (Reservation.freelancer_id res) ↔
        create_reservation res db =
          (Raise (HTTPException 409 "Reservation overlaps with an existing booking"), db) ∨
        create_reservation res db =
          (Return {| id := next_id db |},
           with_document db "reservation" (EReservation res)))) ∧
  (∀ p : ForumPost.t,
     (ObjectId (ForumPost.thread_id p) = None →
        create_post p db = (Raise (HTTPException 400 "Invalid thread_id"), db)) ∧
     (∀ o, ObjectId (ForumPost.thread_id p) = Some o →
        ¬ has_document db "forumthread" o →
        create_post p db = (Raise (HTTPException 404 "Thread not found"), db)) ∧
     (resolves db "forumthread" (ForumPost.thread_id p) ↔
        create_post p db =
          (Return {| id := next_id db |}, with_document db "forumpost" (EForumPost p)))).
Proof.
  split_and!.
  - intros item. split_and!.
    + apply add_portfolio_invalid.
    + intros o. apply add_portfolio_not_found.
    + split.
      * intros (o & Ho & Hyes). by eapply add_portfolio_found.
      * apply add_portfolio_returns.
  - intros res. split_and!.
    + apply create_reservation_invalid.
    + intros o. apply create_reservation_not_found.
    + split.
      * intros Hres. destruct (conflicting_dec db res) as [Hc|Hc].
        -- left. by apply create_reservation_conflict.
        -- right. by apply create_reservation_accepted.
      * intros [Hr|Hr]; by eapply create_reservation_proceeds.
  - intros p. split_and!.
    + apply create_post_invalid.
    + intros o. apply create_post_not_found.
    + split.
      * intros (o & Ho & Hyes). by eapply create_post_found.
      * apply create_post_returns.
Qed.

End References.

(** ** Reservations *)

Section Reservations.

Context `{Runtime}.

(** Two intervals that touch at an endpoint do not overlap. *)
Lemma touching_not_overlaps (a b : Reservation.t) :
  Reservation.end_time a = Reservation.start_time b →
  ¬ overlaps a b ∧ ¬ overlaps b a.
Proof. unfold overlaps. intros Ht. split; intros [? ?]; lia. Qed.

(** C1.  When the freelancer of a reservation request resolves, the request
    is answered 409 exactly when some stored reservation with the same
    freelancer_id, whatever its status, has start_time < new.end_time and
    end_time > new.start_time; otherwise the reservation is inserted.  Two
    requests for the same freelancer whose intervals touch at an endpoint
    do not block each other: where each alone is accepted, both are, in
    either order. *)
Theorem reservation_rejected_iff_overlap (res : Reservation.t) (db : database) :
  resolves db "freelancer" (Reservation.freelancer_id res) →
  (create_reservation res db =
     (Raise (HTTPException 409 "Reservation overlaps with an existing booking"), db)
   ↔ conflicting db res) ∧
  (status_code_of (create_reservation res db).1 = 409%Z ↔ conflicting db res) ∧
  (create_reservation res db =
     (Return {| id := next_id db |}, with_document db "reservation" (EReservation res))
   ↔ ¬ conflicting db res) ∧
  (∀ next : Reservation.t,
     Reservation.freelancer_id next = Reservation.freelancer_id res →
     Reservation.end_time res = Reservation.start_time next ∨
     Reservation.end_time next = Reservation.start_time res →
     ¬ conflicting db res → ¬ conflicting db next →
     let db1 := with_document db "reservation" (EReservation res) in
     create_reservation res db = (Return {| id := next_id db |}, db1) ∧
     create_reservation next db1 =
       (Return {| id := next_id db1 |}, with_document db1 "reservation" (EReservation next))).
Proof.
  intros Hres.
  assert (Hyes : conflicting db res →
    create_reservation res db =
      (Raise (HTTPException 409 "Reservation overlaps with an existing booking"), db))
    by by apply create_reservation_conflict.
  assert (Hno : ¬ conflicting db res →
    create_reservation res db =
      (Return {| id := next_id db |}, with_document db "reservation" (EReservation res)))
    by by apply create_reservation_accepted.
  split_and!.
  - split; [|done]. intros Hr.
    destruct (conflicting_dec db res) as [Hc|Hc]; [done|]. by rewrite (Hno Hc) in Hr.
  - split.
    + intros Hr. destruct (conflicting_dec db res) as [Hc|Hc]; [done|].
      by rewrite (Hno Hc) in Hr.
    + intros Hc. by rewrite (Hyes Hc).
  - split; [|done]. intros Hr Hc. by rewrite (Hyes Hc) in Hr.
  - intros next Hf Htouch Hc Hc' db1. split; [by apply Hno|].
    apply create_reservation_accepted.
    + rewrite Hf. by apply resolves_with_document.
    + unfold db1. rewrite conflicting_with_document. intros [Hold | [_ Hov]]; [done|].
      destruct Htouch as [Ht|Ht].
      * by destruct (touching_not_overlaps res next Ht) as [Hn _].
      * by destruct (touching_not_overlaps next res Ht) as [_ Hn].
Qed.

(** C8, as amended.  No order between start_time and end_time is enforced:
    a reservation with end_time <= start_time whose freelancer resolves is
    inserted whenever no stored reservation of that freelancer overlaps it.
    Once a reservation with end_time = start_time = t is stored, a later
    request of the same freelancer conflicts with it exactly when
    start_time < t < end_time holds of the request; so it adds no conflict
    for the slot it names, nor for a request that starts at or after t or
    ends at or before t. *)
Theorem degenerate_reservation_accepted (res : Reservation.t) (db : database) :
  resolves db "freelancer" (Reservation.freelancer_id res) →
  (Reservation.end_time res ≤ Reservation.start_time res)%Z →
  (¬ conflicting db res →
     create_reservation res db =
       (Return {| id := next_id db |}, with_document db "reservation" (EReservation res))) ∧
  (Reservation.end_time res = Reservation.start_time res →
   ∀ later : Reservation.t,
     Reservation.freelancer_id later = Reservation.freelancer_id res →
     let db1 := with_document db "reservation" (EReservation res) in
     (conflicting db1 later ↔
        conflicting db later ∨
        (Reservation.start_time later < Reservation.start_time res
           < Reservation.end_time later)%Z) ∧
     (Reservation.start_time later = Reservation.start_time res →
      Reservation.end_time later = Reservation.end_time res →
      (conflicting db1 later ↔ conflicting db later))).
Proof.
  intros Hres Hle. split; [by apply create_reservation_accepted|].
  intros Heq later Hf db1.
  assert (Hiff : conflicting db1 later ↔
    conflicting db later ∨
    (Reservation.start_time later < Reservation.start_time res
       < Reservation.end_time later)%Z).
  { unfold db1. rewrite conflicting_with_document. unfold overlaps.
    split; (intros [Hc|Hc]; [by left | right]); [lia | split; [done|lia]]. }
  split; [done|]. intros Hs He. rewrite Hiff. split; [|by left].
  intros [Hc|Hc]; [done | lia].
Qed.

End Reservations.

(** ** Advertisements *)

Section Advertisements.

Context `{Runtime}.



End Advertisements.

(** ** No write before a rejection *)

Section Rejections.

Context `{Runtime}.

(** C4.  On each of the six creation endpoints, a request that is rejected
    leaves the store exactly as it was: nothing is inserted into any
    collection.  The rejections are those with status 400, 404, 409 and
    422. *)
Theorem rejected_creation_leaves_store (db : database) (e : exn) :
  (∀ b, (post create_freelancer b db).1 = Raise e →
     (post create_freelancer b db).2 = db ∧
     status_code_of (@Raise created e) ∈ [400; 404; 409; 422]%Z) ∧
  (∀ b, (post add_portfolio b db).1 = Raise e →
     (post add_portfolio b db).2 = db ∧
     status_code_of (@Raise created e) ∈ [400; 404; 409; 422]%Z) ∧
  (∀ b, (post create_reservation b db).1 = Raise e →
     (post create_reservation b db).2 = db ∧
     status_code_of (@Raise created e) ∈ [400; 404; 409; 422]%Z) ∧
  (∀ b, (post create_ad b db).1 = Raise e →
     (post create_ad b db).2 = db ∧
     status_code_of (@Raise created e) ∈ [400; 404; 409; 422]%Z) ∧
  (∀ b, (post create_thread b db).1 = Raise e →
     (post create_thread b db).2 = db ∧
     status_code_of (@Raise created e) ∈ [400; 404; 409; 422]%Z) ∧
  (∀ b, (post create_post b db).1 = Raise e →
     (post create_post b db).2 = db ∧
     status_code_of (@Raise created e) ∈ [400; 404; 409; 422]%Z).
Proof.
  split_and!; intros b.
  - apply rejected_unchanged with (name := "freelancer") (data := EFreelancer).
    intros. apply create_freelancer_outcome.
  - apply rejected_unchanged with (name := "portfolioitem") (data := EPortfolioItem).
    intros. apply add_portfolio_outcome.
  - apply rejected_unchanged with (name := "reservation") (data := EReservation).
    intros. apply create_reservation_outcome.
  - apply rejected_unchanged with (name := "advertisement") (data := EAdvertisement).
    intros. apply create_ad_outcome.
  - apply rejected_unchanged with (name := "forumthread") (data := EForumThread).
    intros. apply create_thread_outcome.
  - apply rejected_unchanged with (name := "forumpost") (data := EForumPost).
    intros. apply create_post_outcome.
Qed.

End Rejections.

(** ** The listing handlers *)

Section Listing.

Context `{Runtime}.

#[local] Abbreviation document := (gmap string (value oid)).

(** Evaluate the lookups of a stored document whose payload is known. *)
Ltac lookups :=
  unfold raw_document; cbn [model_dump stored_entity stored_id];
  repeat first
    [ rewrite lookup_insert_eq
    | rewrite lookup_insert_ne by done
    | rewrite lookup_delete_ne by done
    | rewrite lookup_delete_eq
    | rewrite lookup_empty ].

Lemma bool_decide_of_iff (b : bool) (P : Prop) `{Decision P} :
  (b = true ↔ P) → b = bool_decide P.
Proof.
  intros Hb. destruct b; symmetry.
  - apply bool_decide_eq_true_2. by apply Hb.
  - apply bool_decide_eq_false_2. intros HP. by apply Hb in HP.
Qed.

Lemma filter_all {A} (l : list A) : List.filter (λ _, true) l = l.
Proof. induction l as [|x l IH]; simpl; [done | by rewrite IH]. Qed.

(** *** What a listing returns for a stored document *)

Lemma listed_eq (x : stored) : listed x = gateway_document x.
Proof.
  unfold listed, stringify_id, gateway_document.
  rewrite lookup_insert_eq. simpl. by rewrite insert_insert_eq.
Qed.

Lemma listed_id (x : stored) : listed x !! "_id" = Some (VStr (oid_str (stored_id x))).
Proof. rewrite listed_eq. unfold gateway_document. by rewrite lookup_insert_eq. Qed.

Lemma listed_field (x : stored) (k : string) :
  k ≠ "_id" → listed x !! k = model_dump (stored_entity x) !! k.
Proof.
  intros Hk. rewrite listed_eq. unfold gateway_document, raw_document.
  by rewrite !lookup_insert_ne, lookup_delete_ne.
Qed.

Lemma model_dump_no_id (e : entity) : model_dump e !! "_id" = None.
Proof. destruct e as [[]|[]|[]|[]|[]|[]]; reflexivity. Qed.

Lemma raw_field (x : stored) (k : string) :
  k ≠ "_id" → raw_document x !! k = model_dump (stored_entity x) !! k.
Proof. intros Hk. unfold raw_document. by rewrite lookup_insert_ne, lookup_delete_ne. Qed.

Lemma listed_holds_entity (o : oid) (data : entity) :
  holds_entity (oid_str o) data (listed (Stored o data)).
Proof.
  split; [apply listed_id|]. intros k v Hk.
  rewrite listed_field; [done|]. intros ->. by rewrite model_dump_no_id in Hk.
Qed.

(** *** The gateway on a filter the store accepts *)

Lemma listing_eq name filt limit (test : document → bool) db :
  compile_filter filt = Some test →
  bind (get_documents name filt limit) (λ docs, ret {| items := stringify_id <$> docs |}) db =
  (Return {| items :=
       listed <$> cap limit (List.filter (λ x, test (raw_document x)) (collection db name)) |},
   db).
Proof.
  intros Hc. unfold bind, get_documents, ret. rewrite Hc.
  change (match limit with
          | Some n => take n ?l
          | None => ?l
          end) with (cap limit l).
  by rewrite <- list_fmap_compose.
Qed.

Lemma listing_refused name filt limit db :
  compile_filter filt = None →
  bind (get_documents name filt limit) (λ docs, ret {| items := stringify_id <$> docs |}) db =
  (Raise OperationFailure, db).
Proof. intros Hc. unfold bind, get_documents. by rewrite Hc. Qed.

(** *** Equality filters *)

#[global] Instance field_is_dec (k s : string) (d : document) : Decision (field_is k s d).
Proof.
  unfold field_is. destruct (d !! k) as [[| s' | | | | |]|]; try (right; congruence).
  destruct (decide (s' = s)) as [->|Hne]; [by left | right; congruence].
Defined.

#[global] Instance passes_dec (k : string) (o : option string) (d : document) :
  Decision (passes k o d).
Proof. unfold passes. destruct (filter_value o); apply _. Defined.

(** The fields the handlers filter on by equality are never lists, so the
    test of [{k: s}] on a stored document says that its field [k] is [s]. *)
Lemma equal_test (k s : string) (x : stored) :
  k ∈ ["freelancer_id"; "business_email"; "ad_type"; "thread_id"] →
  field_holds (λ v, match v with VStr s' => String.eqb s' s | _ => false end) k (raw_document x)
  = bool_decide (field_is k s (raw_document x)).
Proof.
  intros Hk. apply bool_decide_of_iff. unfold field_holds, field_is.
  repeat (apply elem_of_cons in Hk as [->|Hk]); [| | | |by apply elem_of_nil in Hk].
  all: destruct x as [o e]; destruct e as [[]|[]|[]|[]|[]|[]]; lookups.
  all: repeat match goal with |- context [opt VStr ?o] => destruct o; simpl opt end.
  all: cbn; rewrite ?String.eqb_eq; split; congruence.
Qed.

Lemma filter_equal (k s : string) (l : list stored) :
  k ∈ ["freelancer_id"; "business_email"; "ad_type"; "thread_id"] →
  List.filter
    (λ x, field_holds (λ v, match v with VStr s' => String.eqb s' s | _ => false end)
            k (raw_document x) && true) l =
  filter (λ x, field_is k s (raw_document x)) l.
Proof.
  intros Hk. apply filter_bool_decide. intros x. by rewrite andb_true_r, equal_test.
Qed.

Lemma filter_passes_none (k : string) (o : option string) (l : list stored) :
  filter_value o = None → filter (λ x, passes k o (raw_document x)) l = l.
Proof.
  intros Ho. rewrite <- (filter_bool_decide _ (λ _, true)); [apply filter_all|].
  intros x. symmetry. apply bool_decide_eq_true_2. unfold passes. by rewrite Ho.
Qed.

Lemma filter_passes_some (k s : string) (o : option string) (l : list stored) :
  filter_value o = Some s →
  filter (λ x, passes k o (raw_document x)) l = filter (λ x, field_is k s (raw_document x)) l.
Proof.
  intros Ho. rewrite <- (filter_bool_decide _ (λ x, bool_decide (field_is k s (raw_document x)))).
  - by apply filter_bool_decide.
  - intros x. apply bool_decide_ext. unfold passes. by rewrite Ho.
Qed.

Lemma filter_value_some (o : option string) (q : string) :
  filter_value o = Some q ↔ o = Some q ∧ q ≠ "".
Proof.
  unfold filter_value. destruct o as [[|c s]|]; simpl; split.
  - done.
  - by intros [[= <-] Hq].
  - by intros [= <-].
  - by intros [Hq _].
  - done.
  - by intros [Hq _].
Qed.

Lemma filter_value_none (o : option string) :
  filter_value o = None ↔ o = None ∨ o = Some "".
Proof.
  unfold filter_value. destruct o as [[|c s]|]; simpl; split.
  - by right.
  - done.
  - done.
  - by intros [Ho|Ho].
  - by left.
  - done.
Qed.

(** *** Pattern filters *)

Lemma elements_pass (test : string → bool) (l : list (value oid)) :
  existsb (λ v, match v with VStr s' => test s' | _ => false end) l = true ↔
  ∃ s, VStr s ∈ l ∧ test s = true.
Proof.
  rewrite existsb_exists. split.
  - intros ([| s | | | | |] & Hv & Ht); try done. exists s. by rewrite list_elem_of_In.
  - intros (s & Hs & Ht). exists (VStr s). by rewrite <- list_elem_of_In.
Qed.

#[global] Instance some_element_passes_dec (test : string → bool) (k : string) (d : document) :
  Decision (some_element_passes test k d).
Proof.
  unfold some_element_passes.
  destruct (d !! k) as [[| | | | | l |]|]; try (right; intros (? & ? & ? & _); congruence).
  destruct (existsb (λ v, match v with VStr s' => test s' | _ => false end) l) eqn:E.
  - left. apply elements_pass in E as (s & Hs & Ht). by exists l, s.
  - right. intros (l' & s & [= <-] & Hs & Ht).
    assert (existsb (λ v, match v with VStr s' => test s' | _ => false end) l = true)
      by (apply elements_pass; eauto).
    congruence.
Defined.

(** The fields the handlers filter on by pattern are lists of texts, so the
    test of [{k: {"$regex": ...}}] on a stored document says that one of
    the elements passes the test of the pattern. *)
Lemma list_test (test : string → bool) (k : string) (x : stored) :
  k ∈ ["skills"; "tags"] →
  field_holds (λ v, match v with VStr s' => test s' | _ => false end) k (raw_document x)
  = bool_decide (some_element_passes test k (raw_document x)).
Proof.
  intros Hk. apply bool_decide_of_iff. unfold field_holds, some_element_passes.
  repeat (apply elem_of_cons in Hk as [->|Hk]); [| |by apply elem_of_nil in Hk].
  all: destruct x as [o e]; destruct e as [[]|[]|[]|[]|[]|[]]; lookups; unfold strs.
  all: try (split; [discriminate | intros (? & ? & ? & _); congruence]).
  all: rewrite elements_pass; split;
    [ intros (s & Hs & Ht); eauto | intros (? & s & [= <-] & Hs & Ht); eauto ].
Qed.

Lemma filter_pattern (test : string → bool) (k : string) (l : list stored) :
  k ∈ ["skills"; "tags"] →
  List.filter
    (λ x, field_holds (λ v, match v with VStr s' => test s' | _ => false end)
            k (raw_document x) && true) l =
  filter (λ x, some_element_passes test k (raw_document x)) l.
Proof.
  intros Hk. apply filter_bool_decide. intros x. by rewrite andb_true_r, list_test.
Qed.

(** A literal pattern is interpreted, and its test is the case-insensitive
    substring test. *)
Lemma regex_compile_literal (q : string) :
  Regex.literal q = true → regex_compile q "i" = Some (Regex.search (Regex.chars q)).
Proof. intros Hq. unfold regex_compile. simpl. by rewrite parse_literal. Qed.

Lemma literal_passes (q k : string) (d : document) :
  some_element_passes (Regex.search (Regex.chars q)) k d ↔ some_element_contains k q d.
Proof.
  unfold some_element_passes, some_element_contains.
  split; intros (l & s & Hl & Hs & Ht); exists l, s; split_and!; try done.
  - rewrite search_chars, contains_lower_ci in Ht. by apply bool_decide_eq_true in Ht.
  - rewrite search_chars, contains_lower_ci. by apply bool_decide_eq_true.
Qed.

#[global] Instance some_element_contains_dec (k q : string) (d : document) :
  Decision (some_element_contains k q d).
Proof.
  destruct (decide (some_element_passes (Regex.search (Regex.chars q)) k d)) as [Hp|Hp].
  - left. by apply literal_passes.
  - right. intros Hc. by apply Hp, literal_passes.
Defined.

Lemma filter_literal (q k : string) (l : list stored) :
  filter (λ x, some_element_passes (Regex.search (Regex.chars q)) k (raw_document x)) l =
  filter (λ x, some_element_contains k q (raw_document x)) l.
Proof.
  induction l as [|x l IH]; [done|]. rewrite !filter_cons, IH.
  destruct (decide (some_element_passes _ _ _)) as [Hp|Hp];
    destruct (decide (some_element_contains _ _ _)) as [Hc|Hc]; try done.
  - by apply literal_passes in Hp.
  - by apply literal_passes in Hc.
Qed.

Lemma compile_pattern_filter (k q : string) :
  compile_filter [Field k (RegexOpt q "i")] =
  match regex_compile q "i" with
  | Some test =>
      Some (λ d, field_holds (λ v, match v with VStr s' => test s' | _ => false end) k d
                 && true)
  | None => None
  end.
Proof. unfold compile_filter. cbn -[regex_compile]. by destruct (regex_compile q "i"). Qed.

(** *** The six listings *)

Lemma list_freelancers_absent skill db :
  filter_value skill = None →
  list_freelancers skill db =
    (Return {| items := listed <$> collection db "freelancer" |}, db).
Proof.
  intros Hs. unfold list_freelancers. unfold filter_value in Hs.
  destruct skill as [s|]; [destruct (Py.truthy_str s); [done|]|];
    (erewrite listing_eq; [|reflexivity]); simpl; by rewrite filter_all.
Qed.

Lemma list_freelancers_pattern skill q test db :
  filter_value skill = Some q →
  regex_compile q "i" = Some test →
  list_freelancers skill db =
    (Return {| items :=
         listed <$> filter (λ x, some_element_passes test "skills" (raw_document x))
                      (collection db "freelancer") |}, db).
Proof.
  intros Hs Hc. unfold list_freelancers. unfold filter_value in Hs.
  destruct skill as [s|]; [|done]. destruct (Py.truthy_str s); [|done].
  injection Hs as ->.
  erewrite listing_eq; [|by rewrite compile_pattern_filter, Hc].
  simpl. rewrite filter_pattern; [done|]. rewrite !elem_of_cons. auto.
Qed.

Lemma list_freelancers_refused skill q db :
  filter_value skill = Some q →
  regex_compile q "i" = None →
  list_freelancers skill db = (Raise OperationFailure, db).
Proof.
  intros Hs Hc. unfold list_freelancers. unfold filter_value in Hs.
  destruct skill as [s|]; [|done]. destruct (Py.truthy_str s); [|done].
  injection Hs as ->.
  apply listing_refused. by rewrite compile_pattern_filter, Hc.
Qed.

Lemma list_threads_absent tag db :
  filter_value tag = None →
  list_threads tag db =
    (Return {| items := listed <$> take 50 (collection db "forumthread") |}, db).
Proof.
  intros Hs. unfold list_threads. unfold filter_value in Hs.
  destruct tag as [s|]; [destruct (Py.truthy_str s); [done|]|];
    (erewrite listing_eq; [|reflexivity]); simpl; by rewrite filter_all.
Qed.

Lemma list_threads_pattern tag q test db :
  filter_value tag = Some q →
  regex_compile q "i" = Some test →
  list_threads tag db =
    (Return {| items :=
         listed <$> take 50 (filter (λ x, some_element_passes test "tags" (raw_document x))
                               (collection db "forumthread")) |}, db).
Proof.
  intros Hs Hc. unfold list_threads. unfold filter_value in Hs.
  destruct tag as [s|]; [|done]. destruct (Py.truthy_str s); [|done].
  injection Hs as ->.
  erewrite listing_eq; [|by rewrite compile_pattern_filter, Hc].
  simpl. rewrite filter_pattern; [done|]. rewrite !elem_of_cons. auto.
Qed.

Lemma list_threads_refused tag q db :
  filter_value tag = Some q →
  regex_compile q "i" = None →
  list_threads tag db = (Raise OperationFailure, db).
Proof.
  intros Hs Hc. unfold list_threads. unfold filter_value in Hs.
  destruct tag as [s|]; [|done]. destruct (Py.truthy_str s); [|done].
  injection Hs as ->.
  apply listing_refused. by rewrite compile_pattern_filter, Hc.
Qed.

Lemma list_portfolio_eq freelancer_id db :
  list_portfolio freelancer_id db =
    (Return {| items :=
         listed <$> filter (λ x, passes "freelancer_id" freelancer_id (raw_document x))
                      (collection db "portfolioitem") |}, db).
Proof.
  unfold list_portfolio. destruct (filter_value freelancer_id) as [s|] eqn:Hv.
  - rewrite (filter_passes_some _ s) by done. apply filter_value_some in Hv as [-> Hs].
    destruct s; [done|]. simpl Py.truthy_str. cbv iota.
    erewrite listing_eq; [|reflexivity]. simpl.
    rewrite filter_equal; [done|]. rewrite !elem_of_cons. auto.
  - rewrite filter_passes_none by done. apply filter_value_none in Hv as [-> | ->];
      (erewrite listing_eq; [|reflexivity]); simpl; by rewrite filter_all.
Qed.

Lemma list_ads_eq ad_type db :
  list_ads ad_type db =
    (Return {| items :=
         listed <$> take 50 (filter (λ x, passes "ad_type" ad_type (raw_document x))
                               (collection db "advertisement")) |}, db).
Proof.
  unfold list_ads. destruct (filter_value ad_type) as [s|] eqn:Hv.
  - rewrite (filter_passes_some _ s) by done. apply filter_value_some in Hv as [-> Hs].
    destruct s; [done|]. simpl Py.truthy_str. cbv iota.
    erewrite listing_eq; [|reflexivity]. simpl.
    rewrite filter_equal; [done|]. rewrite !elem_of_cons. auto.
  - rewrite filter_passes_none by done. apply filter_value_none in Hv as [-> | ->];
      (erewrite listing_eq; [|reflexivity]); simpl; by rewrite filter_all.
Qed.

Lemma list_posts_eq thread_id db :
  list_posts thread_id db =
    (Return {| items :=
         listed <$> take 200 (filter (λ x, field_is "thread_id" thread_id (raw_document x))
                                (collection db "forumpost")) |}, db).
Proof.
  unfold list_posts. erewrite listing_eq; [|reflexivity]. simpl.
  rewrite filter_equal; [done|]. rewrite !elem_of_cons. auto 6.
Qed.

Lemma passes_none (k : string) (o : option string) (d : document) :
  filter_value o = None → bool_decide (passes k o d) = true.
Proof. intros Ho. apply bool_decide_eq_true_2. unfold passes. by rewrite Ho. Qed.

Lemma passes_some (k s : string) (o : option string) (d : document) :
  filter_value o = Some s → bool_decide (passes k o d) = bool_decide (field_is k s d).
Proof. intros Ho. apply bool_decide_ext. unfold passes. by rewrite Ho. Qed.

Lemma list_reservations_eq freelancer_id business_email db :
  list_reservations freelancer_id business_email db =
    (Return {| items :=
         listed <$> filter (λ x, passes "freelancer_id" freelancer_id (raw_document x) ∧
                                 passes "business_email" business_email (raw_document x))
                      (collection db "reservation") |}, db).
Proof.
  assert (Hf : "freelancer_id" ∈ ["freelancer_id"; "business_email"; "ad_type"; "thread_id"])
    by (rewrite !elem_of_cons; auto).
  assert (Hb : "business_email" ∈ ["freelancer_id"; "business_email"; "ad_type"; "thread_id"])
    by (rewrite !elem_of_cons; auto).
  unfold list_reservations.
  destruct (filter_value freelancer_id) as [s|] eqn:Hs;
    destruct (filter_value business_email) as [t|] eqn:Ht.
  all: pose proof Hs as Hs'; pose proof Ht as Ht'.
  all: try apply filter_value_some in Hs' as [-> Hs'].
  all: try apply filter_value_some in Ht' as [-> Ht'].
  all: try (destruct s; [done|]).
  all: try (destruct t; [done|]).
  all: try (apply filter_value_none in Hs' as [-> | ->]).
  all: try (apply filter_value_none in Ht' as [-> | ->]).
  all: simpl Py.truthy_str; cbv iota.
  all: (erewrite listing_eq; [|reflexivity]); simpl; do 4 f_equal.
  all: apply filter_bool_decide; intros x; apply bool_decide_of_iff.
  all: rewrite ?andb_true_iff, ?equal_test, ?bool_decide_eq_true by done.
  all: unfold passes; rewrite ?Hs, ?Ht; intuition done.
Qed.

(** A listing with a limit returns no more items than the limit. *)
Lemma listing_length name filt (n : nat) db l db' :
  bind (get_documents name filt (Some n)) (λ docs, ret {| items := stringify_id <$> docs |}) db
    = (Return l, db') →
  (length (items l) ≤ n)%nat.
Proof.
  unfold bind, get_documents, ret. destruct (compile_filter filt); [|done].
  intros [= <- _]. simpl. rewrite !length_fmap, length_take. lia.
Qed.

End Listing.

(** ** Properties of the listings *)

Section ListingProperties.

Context `{Runtime}.

#[local] Abbreviation document := (gmap string (value oid)).

(** C9.  The forum-post listing never checks its thread_id: for every text,
    also one that is no identifier or names no thread, it answers 200 with
    the stored posts whose thread_id is that text, the first 200 of them,
    and with no item when there is none; the store is not changed.  The
    creation of a post for the same thread_id is answered 400 when the text
    does not parse and 404 when it parses and names no thread. *)
Theorem posts_listed_without_validation (thread_id : string) (db : database) :
  list_posts thread_id db =
    (Return {| items :=
         listed <$> take 200 (filter (λ x, field_is "thread_id" thread_id (raw_document x))
                                (collection db "forumpost")) |}, db) ∧
  status_code_of (list_posts thread_id db).1 = 200%Z ∧
  ((∀ x, x ∈ collection db "forumpost" → ¬ field_is "thread_id" thread_id (raw_document x)) →
     list_posts thread_id db = (Return {| items := [] |}, db)) ∧
  (∀ p : ForumPost.t, ForumPost.thread_id p = thread_id →
     (ObjectId thread_id = None →
        create_post p db = (Raise (HTTPException 400 "Invalid thread_id"), db)) ∧
     (∀ o, ObjectId thread_id = Some o → ¬ has_document db "forumthread" o →
        create_post p db = (Raise (HTTPException 404 "Thread not found"), db))).
Proof.
  split_and!.
  - apply list_posts_eq.
  - by rewrite list_posts_eq.
  - intros Hnone. rewrite list_posts_eq.
    by rewrite (proj2 (filter_eq_nil _ _) Hnone).
  - intros p <-. split.
    + apply create_post_invalid.
    + intros o. apply create_post_not_found.
Qed.

(** C10, as amended.  On the five listings whose query parameters are
    optional, an empty parameter is treated as an absent one: the listing
    of freelancers, of portfolio items and of reservations then returns
    every document of the collection, that of advertisements and of threads
    the first 50.  On the listing of posts, whose thread_id is required, an
    empty thread_id is the value filtered on. *)
Theorem empty_parameter_is_absent (db : database) :
  (list_freelancers (Some "") db = list_freelancers None db ∧
   list_freelancers None db =
     (Return {| items := listed <$> collection db "freelancer" |}, db)) ∧
  (list_portfolio (Some "") db = list_portfolio None db ∧
   list_portfolio None db =
     (Return {| items := listed <$> collection db "portfolioitem" |}, db)) ∧
  ((∀ business_email,
      list_reservations (Some "") business_email db = list_reservations None business_email db) ∧
   (∀ freelancer_id,
      list_reservations freelancer_id (Some "") db = list_reservations freelancer_id None db) ∧
   list_reservations None None db =
     (Return {| items := listed <$> collection db "reservation" |}, db)) ∧
  (list_ads (Some "") db = list_ads None db ∧
   list_ads None db =
     (Return {| items := listed <$> take 50 (collection db "advertisement") |}, db)) ∧
  (list_threads (Some "") db = list_threads None db ∧
   list_threads None db =
     (Return {| items := listed <$> take 50 (collection db "forumthread") |}, db)) ∧
  list_posts "" db =
    (Return {| items :=
         listed <$> take 200 (filter (λ x, field_is "thread_id" "" (raw_document x))
                                (collection db "forumpost")) |}, db).
Proof.
  split_and!; try reflexivity.
  - by apply list_freelancers_absent.
  - rewrite list_portfolio_eq. by rewrite filter_passes_none.
  - rewrite list_reservations_eq. do 4 f_equal.
    rewrite <- (filter_bool_decide _ (λ _, true)); [apply filter_all|].
    intros x. symmetry. by apply bool_decide_eq_true_2.
  - rewrite list_ads_eq. by rewrite filter_passes_none.
  - by apply list_threads_absent.
  - apply list_posts_eq.
Qed.

(** C6.  The listings of advertisements and of forum threads return at most
    50 items and the listing of forum posts at most 200.  The listings of
    freelancers, of portfolio items and of reservations return every
    document of the collection that passes the filter, however many. *)
Theorem listing_limits (db : database) :
  (∀ ad_type l db',
     list_ads ad_type db = (Return l, db') → (length (items l) ≤ 50)%nat) ∧
  (∀ tag l db',
     list_threads tag db = (Return l, db') → (length (items l) ≤ 50)%nat) ∧
  (∀ thread_id l db',
     list_posts thread_id db = (Return l, db') → (length (items l) ≤ 200)%nat) ∧
  (∀ skill, filter_value skill = None →
     list_freelancers skill db =
       (Return {| items := listed <$> collection db "freelancer" |}, db)) ∧
  (∀ skill q test, filter_value skill = Some q → regex_compile q "i" = Some test →
     list_freelancers skill db =
       (Return {| items :=
            listed <$> filter (λ x, some_element_passes test "skills" (raw_document x))
                         (collection db "freelancer") |}, db)) ∧
  (∀ freelancer_id,
     list_portfolio freelancer_id db =
       (Return {| items :=
            listed <$> filter (λ x, passes "freelancer_id" freelancer_id (raw_document x))
                         (collection db "portfolioitem") |}, db)) ∧
  (∀ freelancer_id business_email,
     list_reservations freelancer_id business_email db =
       (Return {| items :=
            listed <$> filter (λ x, passes "freelancer_id" freelancer_id (raw_document x) ∧
                                    passes "business_email" business_email (raw_document x))
                         (collection db "reservation") |}, db)).
Proof.
  split_and!.
  - intros ad_type l db'. apply listing_length.
  - intros tag l db'. apply listing_length.
  - intros thread_id l db'. apply listing_length.
  - intros skill. apply list_freelancers_absent.
  - intros skill q test. apply list_freelancers_pattern.
  - intros freelancer_id. apply list_portfolio_eq.
  - intros freelancer_id business_email. apply list_reservations_eq.
Qed.

(** C5, as amended.  For every query text that is not empty and has no
    metacharacter of the pattern language, the freelancer listing returns
    exactly the stored freelancers whose skills list has an element that
    contains the text as a case-insensitive substring, and the thread
    listing returns the first 50 of the stored threads whose tags list has
    such an element. *)
Theorem literal_query_filters_by_substring (q : string) (db : database) :
  q ≠ "" →
  Regex.literal q = true →
  list_freelancers (Some q) db =
    (Return {| items :=
         listed <$> filter (λ x, some_element_contains "skills" q (raw_document x))
                      (collection db "freelancer") |}, db) ∧
  list_threads (Some q) db =
    (Return {| items :=
         listed <$> take 50 (filter (λ x, some_element_contains "tags" q (raw_document x))
                               (collection db "forumthread")) |}, db).
Proof.
  intros Hq Hlit.
  assert (Hv : filter_value (Some q) = Some q) by by apply filter_value_some.
  pose proof (regex_compile_literal q Hlit) as Hc. split.
  - rewrite (list_freelancers_pattern _ _ _ _ Hv Hc). by rewrite filter_literal.
  - rewrite (list_threads_pattern _ _ _ _ Hv Hc). by rewrite filter_literal.
Qed.

End ListingProperties.

(** ** From creation to listing *)

Section RoundTrip.

Context `{Runtime}.

#[local] Abbreviation document := (gmap string (value oid)).

Lemma created_inv (m : M created) db name data c db1 :
  created_or_rejected m db name data →
  m db = (Return c, db1) →
  c = {| id := next_id db |} ∧ db1 = with_document db name data.
Proof.
  intros [Hm | (e & Hm & _)] Hr; rewrite Hm in Hr; [|done]. by injection Hr as <- <-.
Qed.

(** A creation only appends: every collection, as it was, is a prefix of
    the collection it leaves. *)
Lemma creation_extends (m : M created) db name data (n : string) :
  created_or_rejected m db name data →
  collection db n `prefix_of` collection (m db).2 n.
Proof.
  intros [Hm | (e & Hm & _)]; rewrite Hm; simpl; [|done].
  destruct (decide (name = n)) as [->|Hne].
  - rewrite collection_with_document_eq. by apply prefix_app_r.
  - by rewrite collection_with_document_ne.
Qed.

Lemma filter_appended (P : stored → Prop) `{∀ x, Decision (P x)} db name data db2 :
  collection (with_document db name data) name `prefix_of` collection db2 name →
  P (Stored (generate_oid (inserted db)) data) →
  ∃ more,
    filter P (collection db2 name) =
    (filter P (collection db name) ++ Stored (generate_oid (inserted db)) data :: more)%list.
Proof.
  intros [more Hmore] HP. exists (filter P more).
  rewrite Hmore, collection_with_document_eq, !filter_app.
  rewrite <- app_assoc. f_equal. simpl. rewrite filter_cons.
  by destruct (decide (P _)).
Qed.

(** A document appended to a collection is listed by every later listing
    without a limit whose filter it passes. *)
Lemma appended_is_listed (P : stored → Prop) `{∀ x, Decision (P x)} db name data db2 :
  collection (with_document db name data) name `prefix_of` collection db2 name →
  P (Stored (generate_oid (inserted db)) data) →
  listed (Stored (generate_oid (inserted db)) data) ∈
    listed <$> filter P (collection db2 name).
Proof.
  intros Hpre HP. destruct (filter_appended P db name data db2 Hpre HP) as [more ->].
  apply list_elem_of_fmap_2. rewrite elem_of_app, elem_of_cons. auto.
Qed.

(** With a limit, it is listed when fewer documents than the limit passed
    the filter before it was appended. *)
Lemma appended_is_among_first (P : stored → Prop) `{∀ x, Decision (P x)}
    (n : nat) db name data db2 :
  collection (with_document db name data) name `prefix_of` collection db2 name →
  P (Stored (generate_oid (inserted db)) data) →
  (length (filter P (collection db name)) < n)%nat →
  listed (Stored (generate_oid (inserted db)) data) ∈
    listed <$> take n (filter P (collection db2 name)).
Proof.
  intros Hpre HP Hn. destruct (filter_appended P db name data db2 Hpre HP) as [more ->].
  apply list_elem_of_fmap_2, elem_of_take.
  exists (length (filter P (collection db name))). split; [|done].
  by apply list_lookup_middle.
Qed.

Lemma passes_raw (k : string) (o : option string) (x : stored) :
  k ≠ "_id" →
  passes k o (raw_document x) ↔ passes k o (model_dump (stored_entity x)).
Proof. intros Hk. unfold passes, field_is. by rewrite raw_field. Qed.

Lemma some_element_passes_raw (test : string → bool) (k : string) (x : stored) :
  k ≠ "_id" →
  some_element_passes test k (raw_document x) ↔
  some_element_passes test k (model_dump (stored_entity x)).
Proof. intros Hk. unfold some_element_passes. by rewrite raw_field. Qed.

Lemma field_is_raw (k s : string) (x : stored) :
  k ≠ "_id" →
  field_is k s (raw_document x) ↔ field_is k s (model_dump (stored_entity x)).
Proof. intros Hk. unfold field_is. by rewrite raw_field. Qed.

(** An entity a creation handler has stored is among the items every later
    call of the listing handler of its resource returns, when it passes the
    filter and, where the listing has a limit, fewer documents than the
    limit that pass the filter were stored before it. *)
Lemma created_entity_is_handed_out (db db1 db2 : database) (c : created) :
  (∀ payload skill,
     create_freelancer payload db = (Return c, db1) →
     collection db1 "freelancer" `prefix_of` collection db2 "freelancer" →
     filter_value skill = None ∨
     (∃ q test, filter_value skill = Some q ∧ regex_compile q "i" = Some test ∧
                some_element_passes test "skills" (model_dump (EFreelancer payload))) →
     ∃ d, hands_out (list_freelancers skill) db2 d ∧
          holds_entity (id c) (EFreelancer payload) d) ∧
  (∀ item freelancer_id,
     add_portfolio item db = (Return c, db1) →
     collection db1 "portfolioitem" `prefix_of` collection db2 "portfolioitem" →
     passes "freelancer_id" freelancer_id (model_dump (EPortfolioItem item)) →
     ∃ d, hands_out (list_portfolio freelancer_id) db2 d ∧
          holds_entity (id c) (EPortfolioItem item) d) ∧
  (∀ res freelancer_id business_email,
     create_reservation res db = (Return c, db1) →
     collection db1 "reservation" `prefix_of` collection db2 "reservation" →
     passes "freelancer_id" freelancer_id (model_dump (EReservation res)) →
     passes "business_email" business_email (model_dump (EReservation res)) →
     ∃ d, hands_out (list_reservations freelancer_id business_email) db2 d ∧
          holds_entity (id c) (EReservation res) d) ∧
  (∀ ad ad_type,
     create_ad ad db = (Return c, db1) →
     collection db1 "advertisement" `prefix_of` collection db2 "advertisement" →
     passes "ad_type" ad_type (model_dump (EAdvertisement ad)) →
     (length (filter (λ x, passes "ad_type" ad_type (raw_document x))
                (collection db "advertisement")) < 50)%nat →
     ∃ d, hands_out (list_ads ad_type) db2 d ∧
          holds_entity (id c) (EAdvertisement ad) d) ∧
  (∀ thread tag,
     create_thread thread db = (Return c, db1) →
     collection db1 "forumthread" `prefix_of` collection db2 "forumthread" →
     (filter_value tag = None ∧ (length (collection db "forumthread") < 50)%nat) ∨
     (∃ q test, filter_value tag = Some q ∧ regex_compile q "i" = Some test ∧
                some_element_passes test "tags" (model_dump (EForumThread thread)) ∧
                (length (filter (λ x, some_element_passes test "tags" (raw_document x))
                           (collection db "forumthread")) < 50)%nat) →
     ∃ d, hands_out (list_threads tag) db2 d ∧
          holds_entity (id c) (EForumThread thread) d) ∧
  (∀ p,
     create_post p db = (Return c, db1) →
     collection db1 "forumpost" `prefix_of` collection db2 "forumpost" →
     (length (filter (λ x, field_is "thread_id" (ForumPost.thread_id p) (raw_document x))
                (collection db "forumpost")) < 200)%nat →
     ∃ d, hands_out (list_posts (ForumPost.thread_id p)) db2 d ∧
          holds_entity (id c) (EForumPost p) d).
Proof.
  split_and!.
  - intros payload skill Hc Hpre Hmatch.
    destruct (created_inv _ _ _ _ _ _ (create_freelancer_outcome payload db) Hc) as [-> ->].
    eexists. split; [|apply listed_holds_entity].
    destruct Hmatch as [Hv | (q & test & Hv & Hq & Hp)].
    + eexists. split; [by apply list_freelancers_absent|]. simpl.
      rewrite <- (filter_passes_none "skills" None (collection db2 _)) by done.
      apply (appended_is_listed _ db); [done|]. by unfold passes.
    + eexists. split; [by eapply list_freelancers_pattern|]. simpl.
      apply (appended_is_listed _ db); [done|]. by apply some_element_passes_raw.
  - intros item freelancer_id Hc Hpre Hmatch.
    destruct (created_inv _ _ _ _ _ _ (add_portfolio_outcome item db) Hc) as [-> ->].
    eexists. split; [|apply listed_holds_entity].
    eexists. split; [by apply list_portfolio_eq|]. simpl.
    apply (appended_is_listed _ db); [done|]. by apply passes_raw.
  - intros res freelancer_id business_email Hc Hpre Hf Hb.
    destruct (created_inv _ _ _ _ _ _ (create_reservation_outcome res db) Hc) as [-> ->].
    eexists. split; [|apply listed_holds_entity].
    eexists. split; [by apply list_reservations_eq|]. simpl.
    apply (appended_is_listed _ db); [done|]. split; by apply passes_raw.
  - intros ad ad_type Hc Hpre Hmatch Hn.
    destruct (created_inv _ _ _ _ _ _ (create_ad_outcome ad db) Hc) as [-> ->].
    eexists. split; [|apply listed_holds_entity].
    eexists. split; [by apply list_ads_eq|]. simpl.
    apply (appended_is_among_first _ 50 db); [done| |done]. by apply passes_raw.
  - intros thread tag Hc Hpre Hmatch.
    destruct (created_inv _ _ _ _ _ _ (create_thread_outcome thread db) Hc) as [-> ->].
    eexists. split; [|apply listed_holds_entity].
    destruct Hmatch as [[Hv Hn] | (q & test & Hv & Hq & Hp & Hn)].
    + eexists. split; [by apply list_threads_absent|]. simpl.
      rewrite <- (filter_passes_none "tags" None (collection db2 _)) by done.
      apply (appended_is_among_first _ 50 db); [done|by unfold passes|].
      by rewrite filter_passes_none.
    + eexists. split; [by eapply list_threads_pattern|]. simpl.
      apply (appended_is_among_first _ 50 db); [done| |done].
      by apply some_element_passes_raw.
  - intros p Hc Hpre Hn.
    destruct (created_inv _ _ _ _ _ _ (create_post_outcome p db) Hc) as [-> ->].
    eexists. split; [|apply listed_holds_entity].
    eexists. split; [by apply list_posts_eq|]. simpl.
    apply (appended_is_among_first _ 200 db); [done| |done].
    apply field_is_raw; [done|]. reflexivity.
Qed.

End RoundTrip.

(** ** The process around the handlers

    The diagnostic endpoint reads the environment of the process and the
    module-level handle [db] of [database.py], which is [None] when the
    store was not configured. *)

(** What a call on the handle gives: a value, or an exception with the
    text [str(e)] of the exception. *)
Inductive outcome (A : Type) :=
| Done (a : A)
| Failed (message : string).

Arguments Done {A} a.
Arguments Failed {A} message.

(** What [hasattr(db, 'name')] and [db.name] find: no such attribute, its
    value, or an exception that is not an [AttributeError], which [hasattr]
    lets through. *)
Inductive attribute :=
| NoAttribute
| Attribute (v : string)
| AttributeRaises (message : string).

Module Handle.
Record t := {
  name : attribute;
  list_collection_names : outcome (list string);
}.
End Handle.

Module Process.
Record t := {
  (** [os.getenv] *)
  getenv : string → option string;
  (** [database.db] *)
  db : option Handle.t;
}.
End Process.

(** Truth value of an [Optional[str]]: [None] and the empty string are
    falsy. *)
Definition truthy_opt (o : option string) : bool :=
  match o with
  | None => false
  | Some s => Py.truthy_str s
  end.

(** [s[:n]]: the first [n] characters of the text. *)
Definition first_chars (n : nat) (s : string) : string :=
  Py.text (take n (Py.chars s)).

(** The routes of the application, each with the parameters FastAPI hands
    to its handler; a required query parameter may be missing. *)
Inductive request :=
| GET_root
| GET_api_hello
| GET_test
| POST_freelancers (payload : body Freelancer.t)
| GET_freelancers (skill : option string)
| POST_portfolio (item : body PortfolioItem.t)
| GET_portfolio (freelancer_id : option string)
| POST_reservations (res : body Reservation.t)
| GET_reservations (freelancer_id business_email : option string)
| POST_ads (ad : body Advertisement.t)
| GET_ads (ad_type : option string)
| POST_forum_threads (thread : body ForumThread.t)
| GET_forum_threads (tag : option string)
| POST_forum_posts (post_ : body ForumPost.t)
| GET_forum_posts (thread_id : option string).

(** The GET routes. *)
Definition is_get (r : request) : bool :=
  match r with
  | POST_freelancers _ | POST_portfolio _ | POST_reservations _
  | POST_ads _ | POST_forum_threads _ | POST_forum_posts _ => false
  | _ => true
  end.

Section Application.

Context `{Runtime}.

#[local] Abbreviation document := (gmap string (value oid)).

Definition read_root : document :=
  {[ "message" := VStr "Designer Booking Backend Running" ]}.

Definition hello : document :=
  {[ "message" := VStr "Hello from the backend API!" ]}.

Definition test_database (p : Process.t) : document :=
  let response : document :=
    <["backend" := VStr "✅ Running"]>
    (<["database" := VStr "❌ Not Available"]>
    (<["database_url" := VNull]>
    (<["database_name" := VNull]>
    (<["connection_status" := VStr "Not Connected"]>
    (<["collections" := VList []]> ∅))))) in
  let response :=
    match Process.db p with
    | Some db =>
        let response := <["database" := VStr "✅ Available"]> response in
        let response := <["database_url" := VStr "✅ Configured"]> response in
        match Handle.name db with
        | AttributeRaises message =>
            <["database" := VStr ("❌ Error: " +:+ first_chars 50 message)]> response
        | name =>
            let response :=
              <["database_name" :=
                  VStr (match name with Attribute v => v | _ => "✅ Connected" end)]>
                response in
            let response := <["connection_status" := VStr "Connected"]> response in
            match Handle.list_collection_names db with
            | Done collections =>
                let response := <["collections" := strs (take 10 collections)]> response in
                <["database" := VStr "✅ Connected & Working"]> response
            | Failed message =>
                <["database" :=
                    VStr ("⚠️  Connected but Error: " +:+ first_chars 50 message)]> response
            end
        end
    | None => <["database" := VStr "⚠️  Available but not initialized"]> response
    end in
  let response :=
    <["database_url" :=
        VStr (if truthy_opt (Process.getenv p "DATABASE_URL") then "✅ Set" else "❌ Not Set")]>
      response in
  let response :=
    <["database_name" :=
        VStr (if truthy_opt (Process.getenv p "DATABASE_NAME") then "✅ Set" else "❌ Not Set")]>
      response in
  response.

(** The body of a response. *)
Inductive reply :=
| Json (d : document)
| CreatedReply (c : created)
| ListingReply (l : listing).

(** Run a handler and wrap what it returns. *)
Definition reply_with {A} (wrap : A → reply) (m : M A) : M reply :=
  bind m (λ a, ret (wrap a)).

(** A process whose handle [db] is [None]: a handler makes the checks that
    come before its first use of the store and then raises, a [TypeError]
    at [db[name]] in [main.py], and at [create_document] and
    [get_documents] the error the specification asks of the gateway when
    the store cannot be reached ([database.py] is not among the sources).
    FastAPI answers both with 500. *)
Definition without_store (p : Process.t) (r : request) : M reply :=
  match r with
  | GET_root => ret (Json read_root)
  | GET_api_hello => ret (Json hello)
  | GET_test => ret (Json (test_database p))
  | GET_forum_posts None => raise RequestValidationError
  | POST_freelancers Invalid | POST_portfolio Invalid | POST_reservations Invalid
  | POST_ads Invalid | POST_forum_threads Invalid | POST_forum_posts Invalid =>
      raise RequestValidationError
  | POST_portfolio (Valid item) =>
      match ObjectId (PortfolioItem.freelancer_id item) with
      | None => raise (HTTPException 400 "Invalid freelancer_id")
      | Some _ => raise TypeError
      end
  | POST_reservations (Valid res) =>
      match ObjectId (Reservation.freelancer_id res) with
      | None => raise (HTTPException 400 "Invalid freelancer_id")
      | Some _ => raise TypeError
      end
  | POST_forum_posts (Valid p) =>
      match ObjectId (ForumPost.thread_id p) with
      | None => raise (HTTPException 400 "Invalid thread_id")
      | Some _ => raise TypeError
      end
  | POST_ads (Valid ad) =>
      match Advertisement.ad_type ad with
      | Advertisement.business =>
          if negb (Py.truthy_list (Advertisement.designers ad))
             || (length (Advertisement.designers ad) =? 0)%nat
          then raise (HTTPException 400 "Business ads must include designers responsible")
          else
            let heading_lower := str_lower (Advertisement.heading ad) in
            let missing :=
              List.filter (λ n, negb (Py.contains (str_lower n) heading_lower))
                          (Advertisement.designers ad) in
            if Py.truthy_list missing
            then raise (HTTPException 400
                          ("Heading must include designers: " +:+ Py.join ", " missing))
            else raise StorageError
      | Advertisement.freelancer => raise StorageError
      end
  | _ => raise StorageError
  end.

(** A process with a handle: each route with the endpoint of its handler.
    A request for the posts of a thread without [thread_id] is answered 422
    by FastAPI. *)
Definition with_store (p : Process.t) (r : request) : M reply :=
  match r with
  | GET_root => ret (Json read_root)
  | GET_api_hello => ret (Json hello)
  | GET_test => ret (Json (test_database p))
  | POST_freelancers b => reply_with CreatedReply (post create_freelancer b)
  | GET_freelancers skill => reply_with ListingReply (respond (list_freelancers skill))
  | POST_portfolio b => reply_with CreatedReply (post add_portfolio b)
  | GET_portfolio freelancer_id =>
      reply_with ListingReply (respond (list_portfolio freelancer_id))
  | POST_reservations b => reply_with CreatedReply (post create_reservation b)
  | GET_reservations freelancer_id business_email =>
      reply_with ListingReply (respond (list_reservations freelancer_id business_email))
  | POST_ads b => reply_with CreatedReply (post create_ad b)
  | GET_ads ad_type => reply_with ListingReply (respond (list_ads ad_type))
  | POST_forum_threads b => reply_with CreatedReply (post create_thread b)
  | GET_forum_threads tag => reply_with ListingReply (respond (list_threads tag))
  | POST_forum_posts b => reply_with CreatedReply (post create_post b)
  | GET_forum_posts None => raise RequestValidationError
  | GET_forum_posts (Some thread_id) =>
      reply_with ListingReply (respond (list_posts thread_id))
  end.

(** The application. *)
Definition app (p : Process.t) (r : request) : M reply :=
  match Process.db p with
  | Some _ => with_store p r
  | None => without_store p r
  end.

(** The store of a service that has answered no request yet. *)
Definition initial : database := {| collections := ∅; inserted := 0 |}.

(** The store after the application has answered the requests, one after
    the other. *)
Definition run (p : Process.t) (rs : list request) (db : database) : database :=
  foldl (λ db r, (app p r db).2) db rs.

(** The stores the service can be in. *)
Definition reachable (db : database) : Prop :=
  ∃ p rs, db = run p rs initial.

(** What the handlers have checked when they append a document for [data]
    to the collection [name] of the store [db]. *)
Definition admitted (db : database) (name : string) (data : entity) : Prop :=
  match data with
  | EFreelancer _ => name = "freelancer"
  | EPortfolioItem item =>
      name = "portfolioitem" ∧
      resolves db "freelancer" (PortfolioItem.freelancer_id item)
  | EReservation res =>
      name = "reservation" ∧
      resolves db "freelancer" (Reservation.freelancer_id res) ∧
      ¬ conflicting db res
  | EAdvertisement ad =>
      name = "advertisement" ∧
      (Advertisement.ad_type ad = Advertisement.business →
       Advertisement.designers ad ≠ [] ∧
       ∀ n, n ∈ Advertisement.designers ad → lower_substring n (Advertisement.heading ad))
  | EForumThread _ => name = "forumthread"
  | EForumPost p =>
      name = "forumpost" ∧
      resolves db "forumthread" (ForumPost.thread_id p)
  end.

(** The names of the six collections. *)
Definition collection_names : list string :=
  ["freelancer"; "portfolioitem"; "reservation"; "advertisement"; "forumthread"; "forumpost"].

(** The collection a payload of each schema belongs to. *)
Definition collection_of (data : entity) : string :=
  match data with
  | EFreelancer _ => "freelancer"
  | EPortfolioItem _ => "portfolioitem"
  | EReservation _ => "reservation"
  | EAdvertisement _ => "advertisement"
  | EForumThread _ => "forumthread"
  | EForumPost _ => "forumpost"
  end.

(** The two intervals, read as half-open, share an instant. *)
Definition share_instant (a b : Reservation.t) : Prop :=
  ∃ t : Z,
    (Reservation.start_time a ≤ t < Reservation.end_time a)%Z ∧
    (Reservation.start_time b ≤ t < Reservation.end_time b)%Z.

End Application.

(** ** The diagnostic endpoint *)

Section Diagnostics.

Context `{Runtime}.

#[local] Abbreviation document := (gmap string (value oid)).

(** Evaluate the lookups of a dict built by assignments to known keys. *)
Ltac assigned :=
  repeat first
    [ rewrite lookup_insert_eq
    | rewrite lookup_insert_ne by done
    | rewrite lookup_empty ].

(** The keys of the diagnostic response. *)
Definition diagnostic_keys : gset string :=
  {[ "backend"; "database"; "database_url"; "database_name";
     "connection_status"; "collections" ]}.

Lemma test_database_cases (p : Process.t) :
  Process.db p = None ∨
  (∃ h message, Process.db p = Some h ∧ Handle.name h = AttributeRaises message) ∨
  (∃ h message, Process.db p = Some h ∧
     (∀ m, Handle.name h ≠ AttributeRaises m) ∧
     Handle.list_collection_names h = Failed message) ∨
  (∃ h names, Process.db p = Some h ∧
     (∀ m, Handle.name h ≠ AttributeRaises m) ∧
     Handle.list_collection_names h = Done names).
Proof.
  destruct (Process.db p) as [h|]; [|by left]. right.
  destruct (Handle.name h) as [|v|message] eqn:Hn.
  - right. destruct (Handle.list_collection_names h) as [names|message] eqn:Hl.
    + right. exists h, names. by rewrite Hn.
    + left. exists h, message. by rewrite Hn.
  - right. destruct (Handle.list_collection_names h) as [names|message] eqn:Hl.
    + right. exists h, names. by rewrite Hn.
    + left. exists h, message. by rewrite Hn.
  - left. by exists h, message.
Qed.

(** X1.  The response always has the same six keys; [backend] always reads
    running; [database_url] and [database_name] say whether the variables
    DATABASE_URL and DATABASE_NAME of the environment are set to a text that
    is not empty, and nothing else: what the handler wrote there from the
    handle is overwritten, and the name of the store is never returned. *)
Theorem test_database_reports_environment (p : Process.t) :
  dom (test_database p) = diagnostic_keys ∧
  test_database p !! "backend" = Some (VStr "✅ Running") ∧
  test_database p !! "database_url" =
    Some (VStr (match Process.getenv p "DATABASE_URL" with
                | Some (String _ _) => "✅ Set"
                | _ => "❌ Not Set"
                end)) ∧
  test_database p !! "database_name" =
    Some (VStr (match Process.getenv p "DATABASE_NAME" with
                | Some (String _ _) => "✅ Set"
                | _ => "❌ Not Set"
                end)).
Proof.
  split_and!.
  - unfold test_database, diagnostic_keys. cbv zeta.
    destruct (Process.db p) as [h|];
      [destruct (Handle.name h); [destruct (Handle.list_collection_names h)|
                                  destruct (Handle.list_collection_names h)|]|];
      rewrite !dom_insert_L, dom_empty_L; set_solver.
  - unfold test_database. cbv zeta.
    destruct (Process.db p) as [h|];
      [destruct (Handle.name h); [destruct (Handle.list_collection_names h)|
                                  destruct (Handle.list_collection_names h)|]|];
      by assigned.
  - unfold test_database. cbv zeta. assigned.
    by destruct (Process.getenv p "DATABASE_URL") as [[|c s]|].
  - unfold test_database. cbv zeta. assigned.
    by destruct (Process.getenv p "DATABASE_NAME") as [[|c s]|].
Qed.

(** X2.  [collections] holds at most ten names: the first ten the store lists,
    in its order, when the handle is there, its name can be read and the
    listing succeeds; no name otherwise. *)
Theorem test_database_lists_ten_collections (p : Process.t) :
  (∃ names, test_database p !! "collections" = Some (strs names) ∧
            (length names ≤ 10)%nat) ∧
  (∀ h names,
     Process.db p = Some h →
     (∀ m, Handle.name h ≠ AttributeRaises m) →
     Handle.list_collection_names h = Done names →
     test_database p !! "collections" = Some (strs (take 10 names))) ∧
  ((Process.db p = None ∨
    (∃ h m, Process.db p = Some h ∧
            (Handle.name h = AttributeRaises m ∨
             Handle.list_collection_names h = Failed m))) →
   test_database p !! "collections" = Some (strs [])).
Proof.
  assert (Hdone : ∀ h names,
     Process.db p = Some h →
     (∀ m, Handle.name h ≠ AttributeRaises m) →
     Handle.list_collection_names h = Done names →
     test_database p !! "collections" = Some (strs (take 10 names))).
  { intros h names Hp Hn Hl. unfold test_database. cbv zeta. rewrite Hp, Hl.
    destruct (Handle.name h) as [|v|m]; [by assigned | by assigned | by destruct (Hn m)]. }
  assert (Hnone : (Process.db p = None ∨
    (∃ h m, Process.db p = Some h ∧
            (Handle.name h = AttributeRaises m ∨
             Handle.list_collection_names h = Failed m))) →
    test_database p !! "collections" = Some (strs [])).
  { intros [Hp | (h & m & Hp & [Hn | Hl])]; unfold test_database; cbv zeta; rewrite Hp.
    - by assigned.
    - rewrite Hn. by assigned.
    - rewrite Hl. destruct (Handle.name h); by assigned. }
  split_and!; [|done|done].
  destruct (test_database_cases p)
    as [Hp | [(h & m & Hp & Hn) | [(h & m & Hp & Hn & Hl) | (h & names & Hp & Hn & Hl)]]].
  - exists []. split; [apply Hnone; by left | simpl; lia].
  - exists []. split; [apply Hnone; right; exists h, m; auto | simpl; lia].
  - exists []. split; [apply Hnone; right; exists h, m; auto | simpl; lia].
  - exists (take 10 names). split; [by eapply Hdone|]. rewrite length_take. lia.
Qed.

(** X3.  [connection_status] reads connected exactly when the handle is there
    and its name can be read, also when the listing of the collections then
    fails; [database] reads connected and working exactly when the listing
    succeeds as well.  The first 50 characters of the text of an exception
    are reported. *)
Theorem test_database_reports_connection (p : Process.t) :
  (Process.db p = None →
     test_database p !! "database" = Some (VStr "⚠️  Available but not initialized") ∧
     test_database p !! "connection_status" = Some (VStr "Not Connected")) ∧
  (∀ h message,
     Process.db p = Some h → Handle.name h = AttributeRaises message →
     test_database p !! "database" =
       Some (VStr ("❌ Error: " +:+ first_chars 50 message)) ∧
     test_database p !! "connection_status" = Some (VStr "Not Connected")) ∧
  (∀ h message,
     Process.db p = Some h → (∀ m, Handle.name h ≠ AttributeRaises m) →
     Handle.list_collection_names h = Failed message →
     test_database p !! "database" =
       Some (VStr ("⚠️  Connected but Error: " +:+ first_chars 50 message)) ∧
     test_database p !! "connection_status" = Some (VStr "Connected")) ∧
  (∀ h names,
     Process.db p = Some h → (∀ m, Handle.name h ≠ AttributeRaises m) →
     Handle.list_collection_names h = Done names →
     test_database p !! "database" = Some (VStr "✅ Connected & Working") ∧
     test_database p !! "connection_status" = Some (VStr "Connected")).
Proof.
  split_and!.
  - intros Hp. unfold test_database. cbv zeta. rewrite Hp. by assigned.
  - intros h message Hp Hn. unfold test_database. cbv zeta. rewrite Hp, Hn. by assigned.
  - intros h message Hp Hn Hl. unfold test_database. cbv zeta. rewrite Hp, Hl.
    destruct (Handle.name h) as [|v|m]; [by assigned | by assigned | by destruct (Hn m)].
  - intros h names Hp Hn Hl. unfold test_database. cbv zeta. rewrite Hp, Hl.
    destruct (Handle.name h) as [|v|m]; [by assigned | by assigned | by destruct (Hn m)].
Qed.

End Diagnostics.

(** ** The application, request after request *)

Section Steps.

Context `{Runtime}.

#[local] Abbreviation document := (gmap string (value oid)).

Lemma reply_with_eq {A} (wrap : A → reply) (m : M A) db :
  reply_with wrap m db =
  match m db with
  | (Return a, db') => (Return (wrap a), db')
  | (Raise e, db') => (Raise e, db')
  end.
Proof. unfold reply_with, bind, ret. by destruct (m db) as [[a|e] db']. Qed.

Lemma reply_with_store {A} (wrap : A → reply) (m : M A) db :
  (reply_with wrap m db).2 = (m db).2.
Proof. rewrite reply_with_eq. by destruct (m db) as [[a|e] db']. Qed.

Lemma reply_with_status {A} (wrap : A → reply) (m : M A) db :
  status_code_of (reply_with wrap m db).1 = status_code_of (m db).1.
Proof. rewrite reply_with_eq. by destruct (m db) as [[a|e] db']. Qed.

(** A listing reads the store. *)
Lemma listing_store name filt limit db :
  (bind (get_documents name filt limit)
     (λ docs, ret {| items := stringify_id <$> docs |}) db).2 = db.
Proof. unfold bind, get_documents, ret. by destruct (compile_filter filt). Qed.

(** A listing answers 200, or 500 when the store refuses the filter. *)
Lemma listing_status name filt limit db :
  status_code_of
    (bind (get_documents name filt limit)
       (λ docs, ret {| items := stringify_id <$> docs |}) db).1 =
  match compile_filter filt with Some _ => 200%Z | None => 500%Z end.
Proof. unfold bind, get_documents, ret. by destruct (compile_filter filt). Qed.

(** What a creation handler has checked when it returns. *)
Lemma add_portfolio_admits item db c db' :
  add_portfolio item db = (Return c, db') →
  admitted db "portfolioitem" (EPortfolioItem item).
Proof. intros Hr. split; [done | by eapply add_portfolio_returns]. Qed.

Lemma create_post_admits p db c db' :
  create_post p db = (Return c, db') →
  admitted db "forumpost" (EForumPost p).
Proof. intros Hr. split; [done | by eapply create_post_returns]. Qed.

Lemma create_reservation_admits res db c db' :
  create_reservation res db = (Return c, db') →
  admitted db "reservation" (EReservation res).
Proof.
  intros Hr.
  assert (Hres : resolves db "freelancer" (Reservation.freelancer_id res))
    by by eapply create_reservation_proceeds.
  split_and!; [done | done |]. intros Hc.
  by rewrite (create_reservation_conflict _ _ Hres Hc) in Hr.
Qed.

Lemma create_ad_admits ad db c db' :
  create_ad ad db = (Return c, db') →
  admitted db "advertisement" (EAdvertisement ad).
Proof.
  intros Hr. split; [done|]. intros Ht.
  destruct (decide (Advertisement.designers ad = [])) as [Hd|Hd].
  { by rewrite (create_ad_no_designers _ _ Ht Hd) in Hr. }
  split; [done|]. apply (proj1 (missing_designers_nil ad)).
  destruct (decide (missing_designers ad = [])) as [Hm|Hm]; [done|].
  by rewrite (create_ad_missing _ _ Ht Hd Hm) in Hr.
Qed.

(** A POST endpoint leaves the store, or appends one document whose payload
    it has checked. *)
Lemma post_step {A} (handler : A → M created) (b : body A) db name (data : A → entity) :
  (∀ payload, created_or_rejected (handler payload) db name (data payload)) →
  (∀ payload c db', handler payload db = (Return c, db') → admitted db name (data payload)) →
  (post handler b db).2 = db ∨
  ∃ payload, b = Valid payload ∧
    post handler b db =
      (Return {| id := next_id db |}, with_document db name (data payload)) ∧
    admitted db name (data payload).
Proof.
  intros Hout Hadm. destruct b as [payload|]; [|by left]. simpl.
  destruct (Hout payload) as [Hm | (e & Hm & _)]; [|left; by rewrite Hm].
  right. exists payload. split_and!; [done | done | by eapply Hadm].
Qed.

(** The rendering of a response reads nothing and writes nothing. *)
Lemma respond_eq (m : M listing) db :
  respond m db =
  match m db with
  | (Return l, db') =>
      (if forallb renders (items l) then Return l else Raise ValueError, db')
  | (Raise e, db') => (Raise e, db')
  end.
Proof.
  unfold respond, bind, ret, raise. destruct (m db) as [[l|e] db']; [|done].
  by destruct (forallb renders (items l)).
Qed.

Lemma respond_store (m : M listing) db : (respond m db).2 = (m db).2.
Proof.
  rewrite respond_eq. destruct (m db) as [[l|e] db']; [|done].
  by destruct (forallb renders (items l)).
Qed.

(** Without a store, no request changes anything. *)
Lemma without_store_leaves (p : Process.t) (r : request) (db : database) :
  (without_store p r db).2 = db.
Proof.
  destruct r as [| | |[f|]|skill|[item|]|fid|[res|]|fid email|[ad|]|t|[th|]|tag|[po|]|[tid|]];
    simpl; try done.
  - by destruct (ObjectId _).
  - by destruct (ObjectId _).
  - destruct (Advertisement.ad_type ad); [|done].
    destruct (negb _ || _); [done|]. by destruct (Py.truthy_list _).
  - by destruct (ObjectId _).
Qed.

(** Every request leaves the store, or appends one checked document. *)
Lemma app_step (p : Process.t) (r : request) (db : database) :
  (app p r db).2 = db ∨
  ∃ name data, (app p r db).2 = with_document db name data ∧ admitted db name data.
Proof.
  assert (Hpost : ∀ {A} (handler : A → M created) (b : body A) name (data : A → entity),
    (∀ payload, created_or_rejected (handler payload) db name (data payload)) →
    (∀ payload c db', handler payload db = (Return c, db') → admitted db name (data payload)) →
    (reply_with CreatedReply (post handler b) db).2 = db ∨
    ∃ name data,
      (reply_with CreatedReply (post handler b) db).2 = with_document db name data ∧
      admitted db name data).
  { intros A handler b name data Hout Hadm. rewrite reply_with_store.
    destruct (post_step handler b db name data Hout Hadm) as [Hs | (payload & _ & Hs & Ha)];
      [by left|]. right. exists name, (data payload). by rewrite Hs. }
  unfold app. destruct (Process.db p) as [h|]; [|left; apply without_store_leaves].
  destruct r as [| | |b|skill|b|fid|b|fid email|b|t|b|tag|b|[tid|]]; unfold with_store.
  - by left.
  - by left.
  - by left.
  - apply (Hpost _ _ _ "freelancer" EFreelancer).
    + intros payload. apply create_freelancer_outcome.
    + by intros.
  - left. rewrite reply_with_store, respond_store. apply listing_store.
  - apply (Hpost _ _ _ "portfolioitem" EPortfolioItem).
    + intros payload. apply add_portfolio_outcome.
    + intros. by eapply add_portfolio_admits.
  - left. rewrite reply_with_store, respond_store. apply listing_store.
  - apply (Hpost _ _ _ "reservation" EReservation).
    + intros payload. apply create_reservation_outcome.
    + intros. by eapply create_reservation_admits.
  - left. rewrite reply_with_store, respond_store. apply listing_store.
  - apply (Hpost _ _ _ "advertisement" EAdvertisement).
    + intros payload. apply create_ad_outcome.
    + intros. by eapply create_ad_admits.
  - left. rewrite reply_with_store, respond_store. apply listing_store.
  - apply (Hpost _ _ _ "forumthread" EForumThread).
    + intros payload. apply create_thread_outcome.
    + by intros.
  - left. rewrite reply_with_store, respond_store. apply listing_store.
  - apply (Hpost _ _ _ "forumpost" EForumPost).
    + intros payload. apply create_post_outcome.
    + intros. by eapply create_post_admits.
  - left. rewrite reply_with_store, respond_store. apply listing_store.
  - by left.
Qed.

Lemma admitted_name db name data : admitted db name data → name = collection_of data.
Proof. destruct data; simpl; intros Ha; first [exact Ha | exact (proj1 Ha)]. Qed.

Lemma run_snoc p rs r db : run p (rs ++ [r])%list db = (app p r (run p rs db)).2.
Proof. unfold run. by rewrite foldl_snoc. Qed.

(** Induction on the stores the service can be in: it is enough to look at
    the first store and at the appending of one checked document. *)
Lemma reachable_induction (P : database → Prop) :
  P initial →
  (∀ db name data,
     reachable db → P db → admitted db name data → P (with_document db name data)) →
  ∀ db, reachable db → P db.
Proof.
  intros Hinit Hstep db (p & rs & ->).
  induction rs as [|r rs IH] using rev_ind; [done|].
  rewrite run_snoc.
  destruct (app_step p r (run p rs initial)) as [-> | (name & data & -> & Ha)]; [done|].
  apply Hstep; [by exists p, rs | done | done].
Qed.

End Steps.

(** ** What the service keeps true of its store *)

Section Invariants.

Context `{Runtime}.

#[local] Abbreviation document := (gmap string (value oid)).

(** X4.  A GET request never changes the store, whatever it answers. *)
Theorem get_requests_leave_store (p : Process.t) (r : request) (db : database) :
  is_get r = true → (app p r db).2 = db.
Proof.
  intros Hget. unfold app.
  destruct (Process.db p) as [h|]; [|apply without_store_leaves].
  destruct r as [| | |b|skill|b|fid|b|fid email|b|t|b|tag|b|[tid|]];
    try discriminate Hget; unfold with_store; try done;
    rewrite reply_with_store, respond_store; apply listing_store.
Qed.

Lemma prefix_with_document db name data (n : string) :
  collection db n `prefix_of` collection (with_document db name data) n.
Proof.
  destruct (decide (name = n)) as [->|Hne].
  - rewrite collection_with_document_eq. by apply prefix_app_r.
  - by rewrite collection_with_document_ne.
Qed.

Lemma run_extends (p : Process.t) (rs : list request) (db : database) (name : string) :
  collection db name `prefix_of` collection (run p rs db) name.
Proof.
  induction rs as [|r rs IH] using rev_ind; [done|].
  rewrite run_snoc. etrans; [exact IH|].
  destruct (app_step p r (run p rs db)) as [-> | (n & data & -> & _)]; [done|].
  apply prefix_with_document.
Qed.

(** X5.  No request removes or changes a stored document.  A request leaves all
    collections as they are, or appends one document to one collection and
    leaves the others; so, after any requests, each collection starts with
    what it held before. *)
Theorem requests_only_append (p : Process.t) (db : database) :
  (∀ r,
     (app p r db).2 = db ∨
     ∃ name x,
       collection (app p r db).2 name = (collection db name ++ [x])%list ∧
       ∀ other, other ≠ name → collection (app p r db).2 other = collection db other) ∧
  (∀ rs name, collection db name `prefix_of` collection (run p rs db) name).
Proof.
  split.
  - intros r. destruct (app_step p r db) as [Hs | (name & data & Hs & _)]; [by left|].
    right. exists name, (Stored (generate_oid (inserted db)) data). rewrite Hs. split.
    + apply collection_with_document_eq.
    + intros other Hne. by apply collection_with_document_ne.
  - intros rs name. apply run_extends.
Qed.

Lemma initial_empty name (x : stored) : x ∈ collection initial name → False.
Proof.
  unfold collection, initial. simpl. rewrite lookup_empty. apply not_elem_of_nil.
Qed.

Lemma reachable_kind (db : database) :
  reachable db →
  ∀ name x, x ∈ collection db name → collection_of (stored_entity x) = name.
Proof.
  revert db. apply (reachable_induction (λ db, ∀ name x,
    x ∈ collection db name → collection_of (stored_entity x) = name)).
  - intros name x Hx. by apply initial_empty in Hx.
  - intros db n data _ IH Ha name x Hx. destruct (decide (n = name)) as [->|Hne].
    + rewrite collection_with_document_eq in Hx.
      apply elem_of_app in Hx as [Hx | ->%list_elem_of_singleton]; [by apply IH|].
      simpl. symmetry. by eapply admitted_name.
    + rewrite collection_with_document_ne in Hx by done. by apply IH.
Qed.

Lemma collection_of_named (data : entity) : collection_of data ∈ collection_names.
Proof. unfold collection_names. destruct data; simpl; rewrite !elem_of_cons; auto 7. Qed.

(** X6.  In every store the service can be in, each of the six collections holds
    payloads of its own schema only, and no other collection holds
    anything. *)
Theorem collections_hold_their_schema (db : database) :
  reachable db →
  (∀ name x, x ∈ collection db name → collection_of (stored_entity x) = name) ∧
  (∀ name, name ∉ collection_names → collection db name = []).
Proof.
  intros Hr. split; [by apply reachable_kind|]. intros name Hname.
  destruct (collection db name) as [|x l] eqn:Hc; [done|].
  destruct Hname. rewrite <- (reachable_kind db Hr name x) by (rewrite Hc; left).
  apply collection_of_named.
Qed.

(** X7.  In every store the service can be in, every stored portfolio item and
    every stored reservation names a stored freelancer, and every stored
    post a stored thread. *)
Theorem stored_references_resolve (db : database) :
  reachable db →
  (∀ x item, x ∈ collection db "portfolioitem" → stored_entity x = EPortfolioItem item →
     resolves db "freelancer" (PortfolioItem.freelancer_id item)) ∧
  (∀ x res, x ∈ collection db "reservation" → stored_entity x = EReservation res →
     resolves db "freelancer" (Reservation.freelancer_id res)) ∧
  (∀ x p, x ∈ collection db "forumpost" → stored_entity x = EForumPost p →
     resolves db "forumthread" (ForumPost.thread_id p)).
Proof.
  revert db. apply reachable_induction.
  { split_and!; intros x ? Hx; unfold collection, initial in Hx; simpl in Hx;
      rewrite lookup_empty in Hx; by apply elem_of_nil in Hx. }
  intros db n data _ (IHp & IHr & IHf) Ha.
  assert (Hnew : ∀ name x, x ∈ collection (with_document db n data) name →
    x ∈ collection db name ∨ (n = name ∧ stored_entity x = data)).
  { intros name x Hx. destruct (decide (n = name)) as [->|Hne].
    - rewrite collection_with_document_eq in Hx.
      apply elem_of_app in Hx as [Hx | ->%list_elem_of_singleton]; auto.
    - rewrite collection_with_document_ne in Hx by done. auto. }
  split_and!.
  - intros x item Hx Hi. apply resolves_with_document.
    destruct (Hnew _ _ Hx) as [Hold | [-> Hd]]; [by eapply IHp|].
    rewrite Hi in Hd. subst data. by destruct Ha.
  - intros x res Hx Hi. apply resolves_with_document.
    destruct (Hnew _ _ Hx) as [Hold | [-> Hd]]; [by eapply IHr|].
    rewrite Hi in Hd. subst data. by destruct Ha as (_ & ? & _).
  - intros x po Hx Hi. apply resolves_with_document.
    destruct (Hnew _ _ Hx) as [Hold | [-> Hd]]; [by eapply IHf|].
    rewrite Hi in Hd. subst data. by destruct Ha.
Qed.

(** X8.  In every store the service can be in, every stored business
    advertisement names at least one designer, and each name, in lower
    case, occurs in its heading in lower case; when the name and the
    heading are text of ASCII, the name is in the heading whatever the case
    of the letters. *)
Theorem stored_business_ads_name_designers (db : database) :
  reachable db →
  ∀ x ad,
    x ∈ collection db "advertisement" →
    stored_entity x = EAdvertisement ad →
    Advertisement.ad_type ad = Advertisement.business →
    Advertisement.designers ad ≠ [] ∧
    ∀ n, n ∈ Advertisement.designers ad →
      lower_substring n (Advertisement.heading ad) ∧
      (Py.ascii_text n = true → Py.ascii_text (Advertisement.heading ad) = true →
       ci_substring n (Advertisement.heading ad)).
Proof.
  intros Hr x ad Hx Hd Ht.
  enough (Hlower : Advertisement.designers ad ≠ [] ∧
    ∀ n, n ∈ Advertisement.designers ad → lower_substring n (Advertisement.heading ad)).
  { destruct Hlower as [Hne Hall]. split; [done|]. intros n Hn. split; [by apply Hall|].
    intros Han Hah. by apply lower_substring_ascii, Hall. }
  revert db Hr x ad Hx Hd Ht. apply (reachable_induction (λ db, ∀ x ad,
    x ∈ collection db "advertisement" →
    stored_entity x = EAdvertisement ad →
    Advertisement.ad_type ad = Advertisement.business →
    Advertisement.designers ad ≠ [] ∧
    ∀ n, n ∈ Advertisement.designers ad → lower_substring n (Advertisement.heading ad))).
  { intros x ad Hx. unfold collection, initial in Hx. simpl in Hx.
    rewrite lookup_empty in Hx. by apply elem_of_nil in Hx. }
  intros db n data _ IH Ha x ad Hx Hd Ht. destruct (decide (n = "advertisement")) as [->|Hne].
  - rewrite collection_with_document_eq in Hx.
    apply elem_of_app in Hx as [Hx | ->%list_elem_of_singleton]; [by eapply IH|].
    simpl in Hd. subst data. destruct Ha as [_ Ha]. by apply Ha.
  - rewrite collection_with_document_ne in Hx by done. by eapply IH.
Qed.

Lemma overlaps_sym (a b : Reservation.t) : overlaps a b ↔ overlaps b a.
Proof. unfold overlaps. lia. Qed.

Lemma share_instant_overlaps (a b : Reservation.t) : share_instant a b → overlaps a b.
Proof. unfold share_instant, overlaps. intros (t & Ha & Hb). lia. Qed.

Lemma overlaps_share_instant (a b : Reservation.t) :
  (Reservation.start_time a < Reservation.end_time a)%Z →
  (Reservation.start_time b < Reservation.end_time b)%Z →
  overlaps a b → share_instant a b.
Proof.
  unfold share_instant, overlaps. intros Ha Hb [Hs He].
  exists (Z.max (Reservation.start_time a) (Reservation.start_time b)). lia.
Qed.

(** X9.  No double booking: in every store the service can be in, two stored
    reservations with the same freelancer_id never overlap in the sense of
    the overlap query, in either order, and never share an instant. *)
Theorem stored_reservations_do_not_overlap (db : database) :
  reachable db →
  ∀ (i j : nat) x y r1 r2,
    (i < j)%nat →
    collection db "reservation" !! i = Some x →
    collection db "reservation" !! j = Some y →
    stored_entity x = EReservation r1 →
    stored_entity y = EReservation r2 →
    Reservation.freelancer_id r1 = Reservation.freelancer_id r2 →
    ¬ overlaps r1 r2 ∧ ¬ overlaps r2 r1 ∧ ¬ share_instant r1 r2.
Proof.
  assert (Hweak : ∀ r1 r2, ¬ overlaps r1 r2 →
    ¬ overlaps r1 r2 ∧ ¬ overlaps r2 r1 ∧ ¬ share_instant r1 r2).
  { intros r1 r2 Hno. split_and!; [done | by rewrite overlaps_sym |].
    intros Hs. by apply Hno, share_instant_overlaps. }
  intros Hr i j x y r1 r2 Hij Hx Hy Ex Ey Hf. apply Hweak. clear Hweak.
  revert db Hr i j x y r1 r2 Hij Hx Hy Ex Ey Hf.
  apply (reachable_induction (λ db, ∀ (i j : nat) x y r1 r2,
    (i < j)%nat →
    collection db "reservation" !! i = Some x →
    collection db "reservation" !! j = Some y →
    stored_entity x = EReservation r1 →
    stored_entity y = EReservation r2 →
    Reservation.freelancer_id r1 = Reservation.freelancer_id r2 →
    ¬ overlaps r1 r2)).
  - intros i j x y r1 r2 _ Hx. apply list_elem_of_lookup_2 in Hx.
    by apply initial_empty in Hx.
  - intros db n data _ IH Ha i j x y r1 r2 Hij Hx Hy Ex Ey Hf.
    destruct (decide (n = "reservation")) as [->|Hne];
      [|rewrite collection_with_document_ne in Hx, Hy by done;
        exact (IH i j x y r1 r2 Hij Hx Hy Ex Ey Hf)].
    rewrite collection_with_document_eq in Hx, Hy.
    destruct (decide (j < length (collection db "reservation"))%nat) as [Hj|Hj].
    + rewrite lookup_app_l in Hx, Hy by lia. exact (IH i j x y r1 r2 Hij Hx Hy Ex Ey Hf).
    + assert (i < length (collection db "reservation"))%nat as Hi.
      { apply lookup_lt_Some in Hy. rewrite length_app in Hy. simpl in Hy. lia. }
      rewrite lookup_app_l in Hx by done.
      rewrite lookup_app_r in Hy by lia.
      apply list_lookup_singleton_Some in Hy as [_ <-]. simpl in Ey. subst data.
      destruct Ha as (_ & _ & Hc). intros Ho. apply Hc.
      exists x, r1. split_and!; [by eapply list_elem_of_lookup_2 | done | done | done].
Qed.

(** X10.  When the request and the stored reservations all end after they start,
    a reservation request whose freelancer resolves is answered 409 exactly
    when a stored reservation with the same freelancer_id shares an instant
    with it. *)
Theorem proper_reservation_rejected_iff_shared_instant (res : Reservation.t) (db : database) :
  resolves db "freelancer" (Reservation.freelancer_id res) →
  (Reservation.start_time res < Reservation.end_time res)%Z →
  (∀ x r, x ∈ collection db "reservation" → stored_entity x = EReservation r →
     (Reservation.start_time r < Reservation.end_time r)%Z) →
  create_reservation res db =
    (Raise (HTTPException 409 "Reservation overlaps with an existing booking"), db)
  ↔ ∃ x r, x ∈ collection db "reservation" ∧
           stored_entity x = EReservation r ∧
           Reservation.freelancer_id r = Reservation.freelancer_id res ∧
           share_instant r res.
Proof.
  intros Hres Hproper Hstored. split.
  - intros Hr. destruct (conflicting_dec db res) as [Hc|Hc].
    + destruct Hc as (x & r & Hx & Ex & Hf & Ho). exists x, r. split_and!; try done.
      apply overlaps_share_instant; [by eapply Hstored | done | done].
    + by rewrite (create_reservation_accepted _ _ Hres Hc) in Hr.
  - intros (x & r & Hx & Ex & Hf & Hs). apply create_reservation_conflict; [done|].
    exists x, r. split_and!; try done. by apply share_instant_overlaps.
Qed.

(** X11.  The overlap check compares the freelancer_id as text, while the
    existence check parses it.  Two requests that name the same freelancer
    by two different texts do not block each other, whatever their
    intervals: where each alone is accepted, both are stored. *)
Theorem two_spellings_are_booked_twice (res1 res2 : Reservation.t) (db : database) :
  ObjectId (Reservation.freelancer_id res1) = ObjectId (Reservation.freelancer_id res2) →
  Reservation.freelancer_id res1 ≠ Reservation.freelancer_id res2 →
  resolves db "freelancer" (Reservation.freelancer_id res1) →
  ¬ conflicting db res1 →
  ¬ conflicting db res2 →
  let db1 := with_document db "reservation" (EReservation res1) in
  create_reservation res1 db = (Return {| id := next_id db |}, db1) ∧
  create_reservation res2 db1 =
    (Return {| id := next_id db1 |}, with_document db1 "reservation" (EReservation res2)).
Proof.
  intros Hsame Hdiff Hres Hc1 Hc2 db1. split; [by apply create_reservation_accepted|].
  apply create_reservation_accepted.
  - apply resolves_with_document. destruct Hres as (o & Ho & Hd). exists o.
    split; [by rewrite <- Hsame | done].
  - unfold db1. rewrite conflicting_with_document. by intros [Hold | [Hf _]].
Qed.

(** *** Identifiers *)

(** All stored documents, collection after collection. *)
Definition all_documents (db : database) : list stored :=
  mjoin (collection db <$> collection_names).

Lemma join_with_document db name data (names : list string) :
  NoDup names →
  mjoin (collection (with_document db name data) <$> names) ≡ₚ
  (mjoin (collection db <$> names) ++
   (if decide (name ∈ names) then [Stored (generate_oid (inserted db)) data] else []))%list.
Proof.
  induction 1 as [|n names Hn Hnd IH].
  - destruct (decide (name ∈ [])) as [Hin|_]; [by apply elem_of_nil in Hin | done].
  - rewrite !fmap_cons. change (mjoin (?x :: ?l)) with (x ++ mjoin l)%list.
    rewrite IH. destruct (decide (name = n)) as [->|Hne].
    + rewrite collection_with_document_eq.
      destruct (decide (n ∈ names)) as [Hin|_]; [done|].
      destruct (decide (n ∈ n :: names)) as [_|Hout]; [|by destruct Hout; left].
      rewrite app_nil_r, <- !app_assoc. f_equiv. apply Permutation_app_comm.
    + rewrite collection_with_document_ne by done. rewrite <- app_assoc. f_equiv.
      destruct (decide (name ∈ names)) as [Hin|Hin];
        destruct (decide (name ∈ n :: names)) as [Hin'|Hin']; try done.
      * destruct Hin'. by right.
      * by apply elem_of_cons in Hin' as [?|?].
Qed.

Lemma collection_names_NoDup : NoDup collection_names.
Proof. apply (bool_decide_unpack _). by vm_compute. Qed.

(** The identifiers of the stored documents are the identifiers the store
    has generated so far, each once. *)
Lemma reachable_identifiers (db : database) :
  reachable db →
  stored_id <$> all_documents db ≡ₚ generate_oid <$> seq 0 (inserted db).
Proof.
  revert db. apply reachable_induction; [done|].
  intros db name data _ IH Ha. unfold all_documents.
  rewrite (join_with_document _ _ _ _ collection_names_NoDup).
  rewrite decide_True
    by (rewrite (admitted_name _ _ _ Ha); apply collection_of_named).
  change (inserted (with_document db name data)) with (S (inserted db)).
  rewrite seq_S, !fmap_app. simpl. by f_equiv.
Qed.

(** X12.  As long as the store has not generated the same identifier twice, no
    two stored documents, of the same collection or of two, have the same
    identifier, and every document of every collection is counted. *)
Theorem stored_identifiers_are_distinct (db : database) :
  reachable db →
  (∀ i j, (i < inserted db)%nat → (j < inserted db)%nat →
     generate_oid i = generate_oid j → i = j) →
  NoDup (stored_id <$> all_documents db) ∧
  length (all_documents db) = inserted db ∧
  (∀ name x, x ∈ collection db name → x ∈ all_documents db).
Proof.
  intros Hr Hinj. split_and!.
  - rewrite (reachable_identifiers db Hr). apply NoDup_fmap_2_strong; [|apply NoDup_seq].
    intros i j Hi%elem_of_seq Hj%elem_of_seq. apply Hinj; lia.
  - rewrite <- (length_fmap stored_id), (reachable_identifiers db Hr).
    by rewrite length_fmap, length_seq.
  - intros name x Hx. unfold all_documents. apply list_elem_of_join.
    exists (collection db name). split; [done|]. apply list_elem_of_fmap_2.
    rewrite <- (reachable_kind db Hr name x Hx). apply collection_of_named.
Qed.

End Invariants.

(** ** What a list endpoint answers *)

Section Responses.

Context `{Runtime}.

#[local] Abbreviation document := (gmap string (value oid)).

Lemma strs_compliant (l : list string) : json_compliant (@strs oid l) = true.
Proof. unfold strs. simpl. induction l as [|s l IH]; simpl; [done | exact IH]. Qed.

Lemma opt_str_compliant (o : option string) : json_compliant (@opt oid _ VStr o) = true.
Proof. by destruct o. Qed.

Lemma slot_compliant (slot : list (string * string)) :
  json_compliant (@VDict oid ((λ kv, (kv.1, VStr kv.2)) <$> slot)) = true.
Proof. simpl. induction slot as [|kv slot IH]; simpl; [done | exact IH]. Qed.

Lemma slots_compliant (slots : list (list (string * string))) :
  json_compliant
    (@VList oid ((λ slot : list (string * string),
                   VDict ((λ kv, (kv.1, VStr kv.2)) <$> slot)) <$> slots)) = true.
Proof.
  change (forallb json_compliant
            ((λ slot : list (string * string),
               @VDict oid ((λ kv, (kv.1, VStr kv.2)) <$> slot)) <$> slots) = true).
  induction slots as [|slot slots IH]; [done|].
  rewrite fmap_cons. cbn [forallb]. by rewrite slot_compliant, IH.
Qed.

(** JSON has a text for every field of a payload, but for an hourly rate
    that is infinite or a NaN. *)
Lemma model_dump_compliant (data : entity) :
  map_Forall (λ _ v, json_compliant v = true) (model_dump data) ↔ finite_rate data.
Proof.
  split.
  - intros Hall. destruct data as [f| | | | |]; simpl; try done.
    destruct (Freelancer.hourly_rate f) as [rate|] eqn:Hrate; [|done].
    apply (map_Forall_lookup_1 _ _ "hourly_rate" (VFloat rate)) in Hall; [done|].
    cbn [model_dump]. rewrite Hrate.
    by repeat first [rewrite lookup_insert_eq | rewrite lookup_insert_ne by done].
  - intros Hfin. destruct data as [f|p|r|a|t|p]; cbn [model_dump];
      repeat (apply map_Forall_insert_2;
              [first [ done | apply strs_compliant | apply opt_str_compliant
                     | apply slots_compliant | idtac ]|]);
      try match goal with |- map_Forall _ ∅ => apply map_Forall_empty end.
    simpl in Hfin. by destruct (Freelancer.hourly_rate f).
Qed.

(** A listed document renders exactly when its payload does. *)
Lemma renders_listed (x : stored) :
  renders (listed x) = true ↔ finite_rate (stored_entity x).
Proof.
  unfold renders. rewrite bool_decide_eq_true, <- model_dump_compliant.
  rewrite !map_Forall_lookup. split.
  - intros Hall k v Hk. apply (Hall k). rewrite listed_field; [done|].
    intros ->. by rewrite model_dump_no_id in Hk.
  - intros Hall k v Hk. destruct (decide (k = "_id")) as [->|Hne].
    + rewrite listed_id in Hk. by injection Hk as <-.
    + rewrite listed_field in Hk by done. by apply (Hall k).
Qed.

Lemma renders_listed_false (x : stored) :
  ¬ finite_rate (stored_entity x) → renders (listed x) = false.
Proof.
  intros Hx. destruct (renders (listed x)) eqn:Hr; [|done].
  by apply renders_listed in Hr.
Qed.


Lemma respond_fails (m : M listing) (db : database) (l : listing) (d : document) :
  m db = (Return l, db) →
  d ∈ items l → renders d = false →
  respond m db = (Raise ValueError, db).
Proof.
  intros Hm Hd Hr. rewrite respond_eq, Hm.
  destruct (forallb renders (items l)) eqn:Hf; [|done].
  rewrite forallb_forall in Hf. rewrite Hf in Hr; [done | by apply list_elem_of_In].
Qed.


(** The collection each list handler reads. *)
Inductive lists_collection : M listing → string → Prop :=
| lists_freelancers skill : lists_collection (list_freelancers skill) "freelancer"
| lists_portfolio freelancer_id :
    lists_collection (list_portfolio freelancer_id) "portfolioitem"
| lists_reservations freelancer_id business_email :
    lists_collection (list_reservations freelancer_id business_email) "reservation"
| lists_ads ad_type : lists_collection (list_ads ad_type) "advertisement"
| lists_threads tag : lists_collection (list_threads tag) "forumthread"
| lists_posts thread_id : lists_collection (list_posts thread_id) "forumpost".




(** A document with the fields of a payload JSON has no text for does not
    render. *)
Lemma holds_entity_unrenderable (i : string) (data : entity) (d : document) :
  holds_entity i data d → ¬ finite_rate data → renders d = false.
Proof.
  intros [_ Hfields] Hnot. destruct (renders d) eqn:Hr; [|done].
  destruct Hnot. apply model_dump_compliant. apply map_Forall_lookup.
  intros k v Hk. unfold renders in Hr. apply bool_decide_eq_true in Hr.
  apply (map_Forall_lookup_1 _ _ k v Hr). by apply Hfields.
Qed.


(** X16.  A freelancer registered with an hourly rate that is infinite or a
    NaN is stored, and from then on every listing of freelancers whose
    filter it passes (or that has no filter) is answered 500: the handler
    returns, and the response cannot be rendered. *)
Theorem unrenderable_rate_breaks_listing (payload : Freelancer.t) (skill : option string)
    (db db1 db2 : database) (c : created) :
  ¬ finite_rate (EFreelancer payload) →
  create_freelancer payload db = (Return c, db1) →
  collection db1 "freelancer" `prefix_of` collection db2 "freelancer" →
  filter_value skill = None ∨
  (∃ q test, filter_value skill = Some q ∧ regex_compile q "i" = Some test ∧
             some_element_passes test "skills" (model_dump (EFreelancer payload))) →
  (∃ l, list_freelancers skill db2 = (Return l, db2)) ∧
  respond (list_freelancers skill) db2 = (Raise ValueError, db2) ∧
  status_code_of (respond (list_freelancers skill) db2).1 = 500%Z.
Proof.
  intros Hnot Hc Hpre Hmatch.
  destruct (created_entity_is_handed_out db db1 db2 c) as (Hfreelancer & _).
  destruct (Hfreelancer payload skill Hc Hpre Hmatch) as (d & (l & Hl & Hd) & Hheld).
  assert (Hfail : respond (list_freelancers skill) db2 = (Raise ValueError, db2)).
  { apply (respond_fails _ _ l d Hl Hd). by eapply holds_entity_unrenderable. }
  split_and!; [by exists l | done | by rewrite Hfail].
Qed.

End Responses.

(** ** What the application answers *)

Section Answers.

Context `{Runtime}.

#[local] Abbreviation document := (gmap string (value oid)).

Ltac member := simpl; rewrite !elem_of_cons; auto 7.

Ltac not_member H :=
  repeat (apply elem_of_cons in H as [H|H]; [discriminate H|]); by apply elem_of_nil in H.

Lemma post_status {A} (handler : A → M created) (b : body A) db name (data : A → entity) :
  (∀ payload, created_or_rejected (handler payload) db name (data payload)) →
  status_code_of (reply_with CreatedReply (post handler b) db).1
    ∈ [200; 400; 404; 409; 422]%Z.
Proof.
  intros Hout. rewrite reply_with_status.
  pose proof (post_outcome handler b db name data Hout) as Ho. destruct b as [payload|].
  - destruct Ho as [Ho | (e & Ho & He)]; rewrite Ho; simpl; [member|].
    simpl in He. rewrite !elem_of_cons in *. tauto.
  - rewrite Ho. member.
Qed.

(** The status of a listing by pattern: 500 when the store refuses the
    pattern, 200 otherwise. *)
Lemma list_freelancers_status skill db :
  status_code_of (list_freelancers skill db).1 =
  match filter_value skill with
  | Some q => match regex_compile q "i" with Some _ => 200%Z | None => 500%Z end
  | None => 200%Z
  end.
Proof.
  destruct (filter_value skill) as [q|] eqn:Hv.
  - destruct (regex_compile q "i") as [test|] eqn:Hc.
    + by rewrite (list_freelancers_pattern _ _ _ _ Hv Hc).
    + by rewrite (list_freelancers_refused _ _ _ Hv Hc).
  - by rewrite (list_freelancers_absent _ _ Hv).
Qed.

Lemma list_threads_status tag db :
  status_code_of (list_threads tag db).1 =
  match filter_value tag with
  | Some q => match regex_compile q "i" with Some _ => 200%Z | None => 500%Z end
  | None => 200%Z
  end.
Proof.
  destruct (filter_value tag) as [q|] eqn:Hv.
  - destruct (regex_compile q "i") as [test|] eqn:Hc.
    + by rewrite (list_threads_pattern _ _ _ _ Hv Hc).
    + by rewrite (list_threads_refused _ _ _ Hv Hc).
  - by rewrite (list_threads_absent _ _ Hv).
Qed.

Lemma pattern_status_500 (o : option string) :
  match filter_value o with
  | Some q => match regex_compile q "i" with Some _ => 200%Z | None => 500%Z end
  | None => 200%Z
  end = 500%Z ↔
  ∃ q, o = Some q ∧ q ≠ "" ∧ regex_compile q "i" = None.
Proof.
  destruct (filter_value o) as [q|] eqn:Hv.
  - apply filter_value_some in Hv as [-> Hq].
    destruct (regex_compile q "i") eqn:Hc; split; try done.
    + intros (q' & [= <-] & _ & Hc'). congruence.
    + intros _. by exists q.
  - split; [done|]. intros (q & -> & Hq & _).
    apply filter_value_none in Hv as [Hv|Hv]; congruence.
Qed.

(** A listing handler returns, or the store has refused its filter. *)
Lemma listing_outcome name filt limit db :
  (∃ l, bind (get_documents name filt limit)
          (λ docs, ret {| items := stringify_id <$> docs |}) db = (Return l, db)) ∨
  bind (get_documents name filt limit)
    (λ docs, ret {| items := stringify_id <$> docs |}) db = (Raise OperationFailure, db).
Proof.
  unfold bind, get_documents, ret. destruct (compile_filter filt); [left | by right].
  by eexists.
Qed.

Lemma handler_outcome (m : M listing) (name : string) db :
  lists_collection m name →
  (∃ l, m db = (Return l, db)) ∨ m db = (Raise OperationFailure, db).
Proof. intros Hm. destruct Hm; apply listing_outcome. Qed.

(** A list endpoint answers 200 or 500. *)
Lemma list_endpoint_status (m : M listing) (name : string) db :
  lists_collection m name →
  status_code_of (reply_with ListingReply (respond m) db).1 = 200%Z ∨
  status_code_of (reply_with ListingReply (respond m) db).1 = 500%Z.
Proof.
  intros Hm. rewrite reply_with_status, respond_eq.
  destruct (handler_outcome m name db Hm) as [[l ->] | ->]; [|by right].
  destruct (forallb renders (items l)); [by left | by right].
Qed.

(** A list endpoint answers 500 when its handler raises. *)
Lemma list_endpoint_raises (m : M listing) db e :
  m db = (Raise e, db) →
  status_code_of (reply_with ListingReply (respond m) db).1 = status_code_of (@Raise listing e).
Proof. intros Hm. by rewrite reply_with_status, respond_eq, Hm. Qed.

(** Without a store a POST is answered 400, 422 or 500, and a GET of a data
    route 500 or, without the required parameter, 422. *)
Lemma without_store_status (p : Process.t) (r : request) (db : database) :
  (is_get r = false → status_code_of (without_store p r db).1 ∈ [400; 422; 500]%Z) ∧
  (is_get r = true →
     status_code_of (without_store p r db).1 ∈ [200; 422; 500]%Z ∧
     (status_code_of (without_store p r db).1 = 200%Z
      ↔ r = GET_root ∨ r = GET_api_hello ∨ r = GET_test) ∧
     (status_code_of (without_store p r db).1 = 422%Z ↔ r = GET_forum_posts None)).
Proof.
  destruct r as [| | |[f|]|skill|[item|]|fid|[res|]|fid email|[ad|]|t|[th|]|tag|[po|]|[tid|]];
    simpl; (split; [intros Hget; try discriminate Hget | intros Hget; try discriminate Hget]).
  all: try (split_and!; [member | split; [by auto | done] | split; done]).
  all: try (split_and!; [member | split; [done | by intros [?|[?|?]]] | split; done]).
  all: try (by member).
  - destruct (ObjectId _); member.
  - destruct (ObjectId _); member.
  - destruct (Advertisement.ad_type ad); [|member].
    destruct (negb _ || _); [member|]. destruct (Py.truthy_list _); member.
  - destruct (ObjectId _); member.
Qed.

(** X13.  The answers of the application.  A POST is answered 200, 400,
    404, 409, 422 or 500, and a GET 200, 422 or 500.  The only 422 on a GET
    is a listing of posts without thread_id.  A listing of freelancers or
    threads by a pattern the store refuses is answered 500.  In a process
    without a store no POST is answered 200, 404 or 409, and the only GET
    answered 200 is one of the three routes that hold no data. *)
Theorem application_status_codes (p : Process.t) (r : request) (db : database) :
  (is_get r = false →
     status_code_of (app p r db).1 ∈ [200; 400; 404; 409; 422; 500]%Z) ∧
  (is_get r = true → status_code_of (app p r db).1 ∈ [200; 422; 500]%Z) ∧
  (is_get r = true →
     (status_code_of (app p r db).1 = 422%Z ↔ r = GET_forum_posts None)) ∧
  ((∃ q, (r = GET_freelancers (Some q) ∨ r = GET_forum_threads (Some q)) ∧
         q ≠ "" ∧ regex_compile q "i" = None) →
     status_code_of (app p r db).1 = 500%Z) ∧
  (Process.db p = None →
     (is_get r = false → status_code_of (app p r db).1 ∈ [400; 422; 500]%Z) ∧
     (is_get r = true →
        (status_code_of (app p r db).1 = 200%Z
         ↔ r = GET_root ∨ r = GET_api_hello ∨ r = GET_test))).
Proof.
  unfold app. destruct (Process.db p) as [h|].
  - assert (Hlist : ∀ m name, lists_collection m name →
      status_code_of (reply_with ListingReply (respond m) db).1 ∈ [200; 422; 500]%Z ∧
      (status_code_of (reply_with ListingReply (respond m) db).1 = 422%Z ↔ False)).
    { intros m name Hm.
      destruct (list_endpoint_status m name db Hm) as [-> | ->]; split; (member || done). }
    assert (Hpost : ∀ {A} (handler : A → M created) (b : body A) name (data : A → entity),
      (∀ payload, created_or_rejected (handler payload) db name (data payload)) →
      status_code_of (reply_with CreatedReply (post handler b) db).1
        ∈ [200; 400; 404; 409; 422; 500]%Z).
    { intros A handler b name data Hout.
      pose proof (post_status handler b db name data Hout) as Hs.
      rewrite !elem_of_cons in *. tauto. }
    split_and!.
    + intros Hget.
      destruct r as [| | |b|skill|b|fid|b|fid email|b|t|b|tag|b|[tid|]];
        try discriminate Hget; unfold with_store.
      * apply (Hpost _ _ _ "freelancer" EFreelancer). intros x. apply create_freelancer_outcome.
      * apply (Hpost _ _ _ "portfolioitem" EPortfolioItem). intros x. apply add_portfolio_outcome.
      * apply (Hpost _ _ _ "reservation" EReservation).
        intros x. apply create_reservation_outcome.
      * apply (Hpost _ _ _ "advertisement" EAdvertisement). intros x. apply create_ad_outcome.
      * apply (Hpost _ _ _ "forumthread" EForumThread). intros x. apply create_thread_outcome.
      * apply (Hpost _ _ _ "forumpost" EForumPost). intros x. apply create_post_outcome.
    + intros Hget.
      destruct r as [| | |b|skill|b|fid|b|fid email|b|t|b|tag|b|[tid|]];
        try discriminate Hget; unfold with_store;
        first [ by member | eapply Hlist; constructor ].
    + intros Hget.
      destruct r as [| | |b|skill|b|fid|b|fid email|b|t|b|tag|b|[tid|]];
        try discriminate Hget; unfold with_store;
        first [ by split | (etrans; [eapply Hlist; constructor|]); by split ].
    + intros (q & [-> | ->] & Hq & Hc); unfold with_store.
      * rewrite (list_endpoint_raises _ _ OperationFailure); [done|].
        apply list_freelancers_refused with (q := q); [|done].
        by apply filter_value_some.
      * rewrite (list_endpoint_raises _ _ OperationFailure); [done|].
        apply list_threads_refused with (q := q); [|done].
        by apply filter_value_some.
    + done.
  - destruct (without_store_status p r db) as [Hpost Hget].
    split_and!.
    + intros Hr. specialize (Hpost Hr). rewrite !elem_of_cons in *. tauto.
    + intros Hr. by destruct (Hget Hr).
    + intros Hr. by destruct (Hget Hr) as (_ & _ & ?).
    + by intros (q & [-> | ->] & _).
    + intros _. split; [done|]. intros Hr. by destruct (Hget Hr) as (_ & ? & _).
Qed.

(** X17.  The answers 400 and 422 need no store.  A request is answered
    with a validation error, or with a 400 and its detail, by a process
    without a store exactly when it is by a process with one, on any
    store: the body and the identifiers are checked, and the designers of
    an advertisement looked for in its heading, before the store is used
    for the first time. *)
Theorem early_rejections_need_no_store (p p' : Process.t) (r : request)
    (db db' : database) (e : exn) :
  Process.db p ≠ None →
  Process.db p' = None →
  e = RequestValidationError ∨ (∃ detail, e = HTTPException 400 detail) →
  (app p r db).1 = Raise e ↔ (app p' r db').1 = Raise e.
Proof.
  intros Hp Hp' He. unfold app. rewrite Hp'. destruct (Process.db p) as [h|]; [clear Hp|done].
  assert (Hlate : ∀ x, x ∈ [OperationFailure; TypeError; StorageError; ValueError;
                            HTTPException 404 "Freelancer not found";
                            HTTPException 404 "Thread not found";
                            HTTPException 409 "Reservation overlaps with an existing booking"] →
                  @Raise reply x = Raise e ↔ False).
  { intros x Hx. split; [|done]. intros [= <-].
    repeat (apply elem_of_cons in Hx as [-> | Hx];
            [by destruct He as [? | [? ?]]|]).
    by apply elem_of_nil in Hx. }
  assert (Hlist : ∀ m name, lists_collection m name →
    (reply_with ListingReply (respond m) db).1 = Raise e ↔ @Raise reply StorageError = Raise e).
  { intros m name Hm. rewrite (Hlate StorageError) by (rewrite !elem_of_cons; auto 10).
    rewrite reply_with_eq, respond_eq.
    destruct (handler_outcome m name db Hm) as [[l ->] | ->].
    - destruct (forallb renders (items l)); simpl; [done|].
      apply Hlate. rewrite !elem_of_cons. auto 10.
    - simpl. apply Hlate. rewrite !elem_of_cons. auto 10. }
  destruct r as [| | |[f|]|skill|[item|]|fid|[res|]|fid email|[ad|]|t|[th|]|tag|[po|]|[tid|]];
    unfold with_store, without_store; try done;
    try (eapply Hlist; constructor).
  - (* POST /freelancers *)
    rewrite reply_with_eq. simpl.
    rewrite (Hlate StorageError) by (rewrite !elem_of_cons; auto 10). by split.
  - (* POST /portfolio *)
    rewrite reply_with_eq. simpl post.
    destruct (ObjectId (PortfolioItem.freelancer_id item)) as [o|] eqn:Ho.
    + unfold raise. simpl. rewrite (Hlate TypeError) by (rewrite !elem_of_cons; auto 10).
      destruct (has_document_dec db "freelancer" o) as [Hd|Hd].
      * by rewrite (add_portfolio_found _ _ _ Ho Hd).
      * rewrite (add_portfolio_not_found _ _ _ Ho Hd). simpl.
        apply Hlate. rewrite !elem_of_cons. auto 10.
    + by rewrite (add_portfolio_invalid _ _ Ho).
  - (* POST /reservations *)
    rewrite reply_with_eq. simpl post.
    destruct (ObjectId (Reservation.freelancer_id res)) as [o|] eqn:Ho.
    + unfold raise. simpl. rewrite (Hlate TypeError) by (rewrite !elem_of_cons; auto 10).
      destruct (has_document_dec db "freelancer" o) as [Hd|Hd].
      * assert (Hres : resolves db "freelancer" (Reservation.freelancer_id res))
          by by exists o.
        destruct (conflicting_dec db res) as [Hc|Hc].
        -- rewrite (create_reservation_conflict _ _ Hres Hc). simpl.
           apply Hlate. rewrite !elem_of_cons. auto 10.
        -- by rewrite (create_reservation_accepted _ _ Hres Hc).
      * rewrite (create_reservation_not_found _ _ _ Ho Hd). simpl.
        apply Hlate. rewrite !elem_of_cons. auto 10.
    + by rewrite (create_reservation_invalid _ _ Ho).
  - (* POST /ads *)
    rewrite reply_with_eq. simpl post.
    destruct (Advertisement.ad_type ad) eqn:Ht.
    + destruct (decide (Advertisement.designers ad = [])) as [Hd|Hd].
      { rewrite (create_ad_no_designers _ _ Ht Hd), Hd. by simpl. }
      rewrite missing_designers_eq.
      assert (Hnot : negb (Py.truthy_list (Advertisement.designers ad))
                     || (length (Advertisement.designers ad) =? 0)%nat = false).
      { by destruct (Advertisement.designers ad). }
      rewrite Hnot.
      destruct (decide (missing_designers ad = [])) as [Hm|Hm].
      * rewrite (create_ad_complete _ _ Ht Hd Hm), Hm. simpl.
        rewrite (Hlate StorageError) by (rewrite !elem_of_cons; auto 10). by split.
      * rewrite (create_ad_missing _ _ Ht Hd Hm).
        by destruct (missing_designers ad).
    + rewrite (create_ad_freelancer _ _ Ht). simpl.
      rewrite (Hlate StorageError) by (rewrite !elem_of_cons; auto 10). by split.
  - (* POST /forum/threads *)
    rewrite reply_with_eq. simpl.
    rewrite (Hlate StorageError) by (rewrite !elem_of_cons; auto 10). by split.
  - (* POST /forum/posts *)
    rewrite reply_with_eq. simpl post.
    destruct (ObjectId (ForumPost.thread_id po)) as [o|] eqn:Ho.
    + unfold raise. simpl. rewrite (Hlate TypeError) by (rewrite !elem_of_cons; auto 10).
      destruct (has_document_dec db "forumthread" o) as [Hd|Hd].
      * by rewrite (create_post_found _ _ _ Ho Hd).
      * rewrite (create_post_not_found _ _ _ Ho Hd). simpl.
        apply Hlate. rewrite !elem_of_cons. auto 10.
    + by rewrite (create_post_invalid _ _ Ho).
Qed.

Lemma take_filter_prefix {A} (P : A → Prop) `{∀ x, Decision (P x)} (n : nat) (l l2 : list A) :
  l `prefix_of` l2 →
  (n ≤ length (filter P l))%nat →
  take n (filter P l2) = take n (filter P l).
Proof. intros [more ->] Hn. rewrite filter_app. by apply take_app_le. Qed.

(** X14.  The listings with a limit have no order of their own and no
    pages: once as many documents that pass the filter as the limit are
    stored, the endpoint answers the same on every later store, and nothing
    created afterwards is ever listed.  For the advertisements the filter is
    the type, for the threads the pattern of the tag (none when the
    parameter is absent or empty), for the posts the thread. *)
Theorem full_listing_never_changes (db db2 : database) :
  (∀ ad_type,
     collection db "advertisement" `prefix_of` collection db2 "advertisement" →
     (50 ≤ length (filter (λ x, passes "ad_type" ad_type (raw_document x))
                     (collection db "advertisement")))%nat →
     (list_ads ad_type db2).1 = (list_ads ad_type db).1 ∧
     (respond (list_ads ad_type) db2).1 = (respond (list_ads ad_type) db).1) ∧
  (∀ tag,
     collection db "forumthread" `prefix_of` collection db2 "forumthread" →
     match filter_value tag with
     | None => (50 ≤ length (collection db "forumthread"))%nat
     | Some q =>
         ∀ test, regex_compile q "i" = Some test →
           (50 ≤ length (filter (λ x, some_element_passes test "tags" (raw_document x))
                           (collection db "forumthread")))%nat
     end →
     (list_threads tag db2).1 = (list_threads tag db).1 ∧
     (respond (list_threads tag) db2).1 = (respond (list_threads tag) db).1) ∧
  (∀ thread_id,
     collection db "forumpost" `prefix_of` collection db2 "forumpost" →
     (200 ≤ length (filter (λ x, field_is "thread_id" thread_id (raw_document x))
                      (collection db "forumpost")))%nat →
     (list_posts thread_id db2).1 = (list_posts thread_id db).1 ∧
     (respond (list_posts thread_id) db2).1 = (respond (list_posts thread_id) db).1).
Proof.
  assert (Hrespond : ∀ (m : M listing) name,
    lists_collection m name → (m db2).1 = (m db).1 →
    (respond m db2).1 = (respond m db).1).
  { intros m name Hm Heq. rewrite !respond_eq.
    destruct (handler_outcome m name db Hm) as [[l Hl] | Hl],
             (handler_outcome m name db2 Hm) as [[l2 Hl2] | Hl2];
      rewrite Hl, Hl2 in *; simpl in *; try done.
    injection Heq as ->. by destruct (forallb renders (items l)). }
  split_and!.
  - intros ad_type Hpre Hn.
    assert (Heq : (list_ads ad_type db2).1 = (list_ads ad_type db).1).
    { rewrite !list_ads_eq. simpl. by rewrite (take_filter_prefix _ 50 _ _ Hpre Hn). }
    split; [done|]. by apply (Hrespond _ "advertisement" (lists_ads ad_type)).
  - intros tag Hpre Hn.
    assert (Heq : (list_threads tag db2).1 = (list_threads tag db).1).
    { destruct (filter_value tag) as [q|] eqn:Hv.
      - destruct (regex_compile q "i") as [test|] eqn:Hc.
        + rewrite !(list_threads_pattern tag q test) by done. simpl.
          by rewrite (take_filter_prefix _ 50 _ _ Hpre (Hn test eq_refl)).
        + by rewrite !(list_threads_refused tag q).
      - destruct Hpre as [more Hmore]. rewrite !(list_threads_absent tag) by done. simpl.
        rewrite Hmore. by rewrite take_app_le. }
    split; [done|]. by apply (Hrespond _ "forumthread" (lists_threads tag)).
  - intros thread_id Hpre Hn.
    assert (Heq : (list_posts thread_id db2).1 = (list_posts thread_id db).1).
    { rewrite !list_posts_eq. simpl. by rewrite (take_filter_prefix _ 200 _ _ Hpre Hn). }
    split; [done|]. by apply (Hrespond _ "forumpost" (lists_posts thread_id)).
Qed.

(** X15.  Whether an advertisement is accepted depends on its type, its heading
    and its designers only: a referenced freelancer_id is never looked up,
    and the store is not read.  Two requests that agree on the three fields
    are both created or both rejected, with the same error. *)
Theorem create_ad_reads_three_fields (ad ad' : Advertisement.t) (db db' : database) :
  Advertisement.ad_type ad = Advertisement.ad_type ad' →
  Advertisement.heading ad = Advertisement.heading ad' →
  Advertisement.designers ad = Advertisement.designers ad' →
  status_code_of (create_ad ad db).1 = status_code_of (create_ad ad' db').1 ∧
  (∀ e, (create_ad ad db).1 = Raise e ↔ (create_ad ad' db').1 = Raise e).
Proof.
  intros Ht Hh Hd.
  assert (Hm : missing_designers ad = missing_designers ad')
    by (unfold missing_designers; by rewrite Hh, Hd).
  destruct (Advertisement.ad_type ad) eqn:Hty.
  - destruct (decide (Advertisement.designers ad = [])) as [Hnil|Hnil].
    + rewrite (create_ad_no_designers ad db Hty Hnil).
      by rewrite (create_ad_no_designers ad' db') by congruence.
    + destruct (decide (missing_designers ad = [])) as [Hmis|Hmis].
      * rewrite (create_ad_complete ad db Hty Hnil Hmis).
        by rewrite (create_ad_complete ad' db') by congruence.
      * rewrite (create_ad_missing ad db Hty Hnil Hmis).
        rewrite (create_ad_missing ad' db') by congruence. by rewrite Hm.
  - rewrite (create_ad_freelancer ad db Hty).
    by rewrite (create_ad_freelancer ad' db') by congruence.
Qed.

End Answers.

(** ** A sample service *)

Module Scenario.

#[local] Existing Instance Sample.runtime.

(** A process whose store is configured by DATABASE_URL only and lists
    twelve collections. *)
Definition process : Process.t := {|
  Process.getenv k :=
    if String.eqb k "DATABASE_URL" then Some "mongodb://localhost:27017" else None;
  Process.db := Some {|
    Handle.name := Attribute "booking";
    Handle.list_collection_names :=
      Done ["a"; "b"; "c"; "d"; "e"; "f"; "g"; "h"; "i"; "j"; "k"; "l"];
  |};
|}.

(** A process whose store cannot be reached. *)
Definition process_down : Process.t := {|
  Process.getenv k := if String.eqb k "DATABASE_NAME" then Some "" else None;
  Process.db := Some {|
    Handle.name := NoAttribute;
    Handle.list_collection_names :=
      Failed "connexion refusée par le serveur de données: délai dépassé (réseau)";
  |};
|}.

(** A process that was started without a store. *)
Definition process_bare : Process.t := {|
  Process.getenv _ := None;
  Process.db := None;
|}.

(** A freelancer whose hourly rate is infinite, as the body
    [{"hourly_rate": 1e400}] is read. *)
Definition priceless : Freelancer.t := {|
  Freelancer.name := "Max";
  Freelancer.email := "max@example.org";
  Freelancer.skills := ["UX"];
  Freelancer.bio := None;
  Freelancer.avatar_url := None;
  Freelancer.hourly_rate := Some PrimFloat.infinity;
  Freelancer.portfolio_links := [];
  Freelancer.availability := [];
|}.

(** The store after Ana and then Max have registered. *)
Definition db_priceless : database :=
  run process [POST_freelancers (Valid Sample.ana); POST_freelancers (Valid priceless)] initial.

(** Seven requests that are all accepted. *)
Definition requests : list request :=
  [ POST_freelancers (Valid Sample.ana);
    POST_portfolio (Valid (Sample.portfolio_of Sample.ana_id));
    POST_reservations (Valid (Sample.booking 900 1000));
    POST_reservations (Valid (Sample.booking 1000 1100));
    POST_ads (Valid Sample.ad);
    POST_forum_threads (Valid Sample.thread);
    POST_forum_posts (Valid (Sample.reply_to "000000000000000000000005")) ].

(** The store after the seven requests. *)
Definition db_busy : database := run process requests initial.

(** The store after eleven freelancers have registered: the identifier of
    the last one has a letter. *)
Definition db_team : database :=
  run process (replicate 11 (POST_freelancers (Valid Sample.ana))) initial.

(** A booking of the eleventh freelancer, named by the given text. *)
Definition booking_of (freelancer_id : string) : Reservation.t := {|
  Reservation.business_name := "Acme";
  Reservation.business_email := "acme@example.org";
  Reservation.freelancer_id := freelancer_id;
  Reservation.start_time := 900;
  Reservation.end_time := 1000;
  Reservation.notes := None;
  Reservation.status := Reservation.pending;
|}.

(** The store after fifty advertisements, and after one more. *)
Definition db_ads : database :=
  run process (replicate 50 (POST_ads (Valid Sample.ad))) initial.

Definition db_ads_later : database :=
  run process [POST_ads (Valid Sample.ad)] db_ads.

End Scenario.

(** ** The handlers on concrete requests *)

#[local] Existing Instance Sample.runtime.

(** C3 on the store that holds Ana: a text that is no identifier, an
    identifier that names nobody, and Ana's identifier. *)
Lemma reference_checked_before_creation_witness :
  add_portfolio (Sample.portfolio_of "not an id") Sample.db_ana =
    (Raise (HTTPException 400 "Invalid freelancer_id"), Sample.db_ana) ∧
  add_portfolio (Sample.portfolio_of "ffffffffffffffffffffffff") Sample.db_ana =
    (Raise (HTTPException 404 "Freelancer not found"), Sample.db_ana) ∧
  add_portfolio (Sample.portfolio_of Sample.ana_id) Sample.db_ana =
    (Return {| id := "000000000000000000000001" |},
     with_document Sample.db_ana "portfolioitem"
       (EPortfolioItem (Sample.portfolio_of Sample.ana_id))).
Proof.
  destruct (reference_checked_before_creation Sample.db_ana) as (Hp & _ & _).
  split_and!.
  - by apply (Hp (Sample.portfolio_of "not an id")).
  - apply (Hp (Sample.portfolio_of "ffffffffffffffffffffffff")) with
      (o := "ffffffffffffffffffffffff"); [done|].
    intros Hd%existsb_id. vm_compute in Hd. discriminate.
  - apply (Hp (Sample.portfolio_of Sample.ana_id)).
    exists Sample.ana_id. split; [done|]. by apply existsb_id.
Defined.

Lemma sample_ana_resolves (db : database) :
  existsb (λ x, bool_decide (stored_id x = Sample.ana_id)) (collection db "freelancer") = true →
  resolves db "freelancer" Sample.ana_id.
Proof. intros Hx. exists Sample.ana_id. split; [done | by apply existsb_id]. Qed.

(** C1 on the scenario of the specification: Ana is booked from 900 to
    1000; a request from 1000 to 1100 is accepted, one from 930 to 1030 is
    answered 409. *)
Lemma reservation_rejected_iff_overlap_witness :
  resolves Sample.db_ana "freelancer" Sample.ana_id ∧
  create_reservation (Sample.booking 900 1000) Sample.db_ana =
    (Return {| id := "000000000000000000000001" |}, Sample.db_booked) ∧
  create_reservation (Sample.booking 1000 1100) Sample.db_booked =
    (Return {| id := "000000000000000000000002" |},
     with_document Sample.db_booked "reservation" (EReservation (Sample.booking 1000 1100))) ∧
  create_reservation (Sample.booking 930 1030) Sample.db_booked =
    (Raise (HTTPException 409 "Reservation overlaps with an existing booking"),
     Sample.db_booked).
Proof.
  assert (Hres : resolves Sample.db_ana "freelancer" Sample.ana_id)
    by by apply sample_ana_resolves.
  assert (Hres' : resolves Sample.db_booked "freelancer" Sample.ana_id)
    by by apply sample_ana_resolves.
  assert (Hno : ∀ r, ¬ conflicting Sample.db_ana r).
  { intros r Hc%conflicting_existsb. by vm_compute in Hc. }
  split; [done|].
  destruct (reservation_rejected_iff_overlap (Sample.booking 900 1000) Sample.db_ana Hres)
    as (_ & _ & _ & Htouch).
  pose proof (Htouch (Sample.booking 1000 1100) eq_refl (or_introl eq_refl) (Hno _) (Hno _))
    as Hboth.
  cbv zeta in Hboth. destruct Hboth as [Hfirst Hnext].
  split; [exact Hfirst|]. split; [exact Hnext|].
  apply (reservation_rejected_iff_overlap (Sample.booking 930 1030) Sample.db_booked Hres').
  by apply conflicting_existsb.
Defined.

(** C8 as stated fails: a stored reservation with end_time = start_time =
    1000 makes the later request from 900 to 1100 fail with 409. *)
Lemma degenerate_reservation_blocks_later_request :
  Reservation.end_time (Sample.booking 1000 1000) =
    Reservation.start_time (Sample.booking 1000 1000) ∧
  create_reservation (Sample.booking 1000 1000) Sample.db_ana =
    (Return {| id := "000000000000000000000001" |}, Sample.db_point) ∧
  create_reservation (Sample.booking 900 1100) Sample.db_point =
    (Raise (HTTPException 409 "Reservation overlaps with an existing booking"),
     Sample.db_point).
Proof. split_and!; reflexivity. Qed.

(** C8 as amended, on the same store: the reservation at the instant 1000
    is inserted; it blocks neither a request for the same slot nor one that
    starts at 1000, and it blocks the request from 900 to 1100. *)
Lemma degenerate_reservation_accepted_witness :
  resolves Sample.db_ana "freelancer" Sample.ana_id ∧
  (Reservation.end_time (Sample.booking 1000 1000)
     ≤ Reservation.start_time (Sample.booking 1000 1000))%Z ∧
  create_reservation (Sample.booking 1000 1000) Sample.db_ana =
    (Return {| id := "000000000000000000000001" |}, Sample.db_point) ∧
  ¬ conflicting Sample.db_point (Sample.booking 1000 1000) ∧
  ¬ conflicting Sample.db_point (Sample.booking 1000 1100) ∧
  conflicting Sample.db_point (Sample.booking 900 1100).
Proof.
  assert (Hres : resolves Sample.db_ana "freelancer" Sample.ana_id)
    by by apply sample_ana_resolves.
  assert (Hno : ∀ r, ¬ conflicting Sample.db_ana r).
  { intros r Hc%conflicting_existsb. by vm_compute in Hc. }
  assert (Hle : (Reservation.end_time (Sample.booking 1000 1000)
                   ≤ Reservation.start_time (Sample.booking 1000 1000))%Z) by done.
  destruct (degenerate_reservation_accepted (Sample.booking 1000 1000) Sample.db_ana Hres Hle)
    as [Hacc Hlater].
  split_and!; [done | done | by apply Hacc | | | ].
  - intros Hc.
    destruct (Hlater eq_refl (Sample.booking 1000 1000) eq_refl) as [Hiff _].
    apply Hiff in Hc as [Hc | Hc]; [exact (Hno _ Hc) | simpl in Hc; lia].
  - intros Hc.
    destruct (Hlater eq_refl (Sample.booking 1000 1100) eq_refl) as [Hiff _].
    apply Hiff in Hc as [Hc | Hc]; [exact (Hno _ Hc) | simpl in Hc; lia].
  - destruct (Hlater eq_refl (Sample.booking 900 1100) eq_refl) as [Hiff _].
    apply Hiff. right. simpl. lia.
Defined.



(** C4 on a request that overlaps a stored booking and on a body that does
    not fit the schema. *)
Lemma rejected_creation_leaves_store_witness :
  (post create_reservation (Valid (Sample.booking 930 1030)) Sample.db_booked).1 =
    Raise (HTTPException 409 "Reservation overlaps with an existing booking") ∧
  (post create_reservation (Valid (Sample.booking 930 1030)) Sample.db_booked).2 =
    Sample.db_booked ∧
  (post create_reservation Invalid Sample.db_booked).2 = Sample.db_booked.
Proof.
  split; [done|]. split.
  - by apply (rejected_creation_leaves_store Sample.db_booked
                (HTTPException 409 "Reservation overlaps with an existing booking")).
  - by apply (rejected_creation_leaves_store Sample.db_booked RequestValidationError).
Defined.

(** C5 as stated fails in three ways.  With the empty query the listing
    returns Eve, who has no skill at all.  With the query [x.d] it returns
    Ana, none of whose skills contains the text [x.d]: the dot of the
    pattern matches the space of [UX Design].  And of the 51 stored threads
    with a tag that contains [design], the listing returns 50. *)
Lemma query_is_not_always_a_substring_filter :
  (Sample.eval (list_freelancers (Some "")) Sample.db_eve =
     Return {| items :=
       [listed (Stored "000000000000000000000000" (EFreelancer Sample.eve))] |} ∧
   ¬ some_element_contains "skills" ""
       (raw_document (Stored "000000000000000000000000" (EFreelancer Sample.eve)))) ∧
  (Sample.eval (list_freelancers (Some "x.d")) Sample.db_ana =
     Return {| items := [listed (Stored Sample.ana_id (EFreelancer Sample.ana))] |} ∧
   ¬ some_element_contains "skills" "x.d"
       (raw_document (Stored Sample.ana_id (EFreelancer Sample.ana)))) ∧
  (length (Sample.ids (Sample.eval (list_threads (Some "design")) Sample.db_threads)) = 50%nat ∧
   length (filter (λ x, some_element_contains "tags" "design" (raw_document x))
             (collection Sample.db_threads "forumthread")) = 51%nat).
Proof.
  split_and!.
  - reflexivity.
  - by apply (bool_decide_eq_false_1 _).
  - reflexivity.
  - by apply (bool_decide_eq_false_1 _).
  - reflexivity.
  - by vm_compute.
Qed.

(** C5 as amended, for the query [ux] on the store that holds Ana. *)
Lemma literal_query_filters_by_substring_witness :
  "ux" ≠ "" ∧
  Regex.literal "ux" = true ∧
  list_freelancers (Some "ux") Sample.db_ana =
    (Return {| items :=
         listed <$> filter (λ x, some_element_contains "skills" "ux" (raw_document x))
                      (collection Sample.db_ana "freelancer") |}, Sample.db_ana) ∧
  Sample.ids (Sample.eval (list_freelancers (Some "ux")) Sample.db_ana) = [Sample.ana_id].
Proof.
  split; [done|]. split; [done|]. split; [|reflexivity].
  by apply (literal_query_filters_by_substring "ux" Sample.db_ana).
Defined.




(** C10 as stated fails on the listing of posts: with one post stored, the
    empty thread_id returns no item rather than every post. *)
Lemma empty_thread_id_is_a_filter_value :
  length (collection Sample.db_posted "forumpost") = 1%nat ∧
  list_posts "" Sample.db_posted = (Return {| items := [] |}, Sample.db_posted).
Proof. split; reflexivity. Qed.

(** C6 on the store with 51 threads, and on the store that holds Ana. *)
Lemma listing_limits_witness :
  length (collection Sample.db_threads "forumthread") = 51%nat ∧
  (length (Sample.ids (Sample.eval (list_threads None) Sample.db_threads)) ≤ 50)%nat ∧
  list_portfolio (Some Sample.ana_id) Sample.db_ana =
    (Return {| items :=
         listed <$> filter (λ x, passes "freelancer_id" (Some Sample.ana_id) (raw_document x))
                      (collection Sample.db_ana "portfolioitem") |}, Sample.db_ana).
Proof.
  split; [reflexivity|].
  destruct (listing_limits Sample.db_threads) as (_ & Hthreads & _).
  destruct (listing_limits Sample.db_ana) as (_ & _ & _ & _ & _ & Hportfolio & _).
  split; [|apply Hportfolio].
  unfold Sample.ids, Sample.eval.
  destruct (list_threads None Sample.db_threads) as [[l|e] db'] eqn:E; simpl; [|lia].
  rewrite length_fmap. by eapply Hthreads.
Defined.

(** C9 on the store with one thread and one post: a text that is no
    identifier is listed without complaint, and refused at creation. *)
Lemma posts_listed_without_validation_witness :
  list_posts "not an id" Sample.db_posted = (Return {| items := [] |}, Sample.db_posted) ∧
  create_post (Sample.reply_to "not an id") Sample.db_posted =
    (Raise (HTTPException 400 "Invalid thread_id"), Sample.db_posted).
Proof.
  destruct (posts_listed_without_validation "not an id" Sample.db_posted)
    as (_ & _ & Hnone & Hcreate).
  split.
  - apply Hnone. intros x Hx Hf.
    change (collection Sample.db_posted "forumpost") with
      [Stored "000000000000000000000001"
         (EForumPost (Sample.reply_to "000000000000000000000000"))] in Hx.
    apply list_elem_of_singleton in Hx. subst x. by vm_compute in Hf.
  - by apply (Hcreate (Sample.reply_to "not an id")).
Defined.

(** C10 as amended, on the store in which Ana is booked. *)
Lemma empty_parameter_is_absent_witness :
  list_reservations None (Some "") Sample.db_booked =
    (Return {| items := listed <$> collection Sample.db_booked "reservation" |},
     Sample.db_booked) ∧
  list_portfolio (Some "") Sample.db_booked =
    (Return {| items := listed <$> collection Sample.db_booked "portfolioitem" |},
     Sample.db_booked).
Proof.
  destruct (empty_parameter_is_absent Sample.db_booked)
    as (_ & [Hp Hp'] & (_ & Hr & Hr') & _).
  split.
  - by rewrite Hr, Hr'.
  - by rewrite Hp, Hp'.
Defined.

(** ** The sample service *)

Lemma scenario_reachable : reachable Scenario.db_busy.
Proof. by exists Scenario.process, Scenario.requests. Qed.

Lemma scenario_team_reachable : reachable Scenario.db_team.
Proof.
  by exists Scenario.process, (replicate 11 (POST_freelancers (Valid Sample.ana))).
Qed.

(** A listing by a skill leaves the busy store as it is. *)
Lemma get_requests_leave_store_witness :
  is_get (GET_freelancers (Some "ux")) = true ∧
  (app Scenario.process (GET_freelancers (Some "ux")) Scenario.db_busy).2 = Scenario.db_busy.
Proof.
  split; [done|].
  by apply (get_requests_leave_store Scenario.process (GET_freelancers (Some "ux"))).
Defined.

(** The busy store keeps each payload in its own collection. *)
Lemma collections_hold_their_schema_witness :
  reachable Scenario.db_busy ∧
  (∀ name x, x ∈ collection Scenario.db_busy name →
     collection_of (stored_entity x) = name) ∧
  collection Scenario.db_busy "users" = [].
Proof.
  split; [apply scenario_reachable|].
  destruct (collections_hold_their_schema Scenario.db_busy scenario_reachable)
    as [Hkind Hother].
  split; [exact Hkind|]. apply Hother. by apply (bool_decide_unpack _).
Defined.

(** In the busy store the portfolio item, the two reservations and the post
    name Ana and the thread. *)
Lemma stored_references_resolve_witness :
  reachable Scenario.db_busy ∧
  resolves Scenario.db_busy "freelancer" Sample.ana_id ∧
  resolves Scenario.db_busy "forumthread" "000000000000000000000005".
Proof.
  split; [apply scenario_reachable|].
  destruct (stored_references_resolve Scenario.db_busy scenario_reachable)
    as (Hitem & _ & Hpost).
  split.
  - apply (Hitem (@Stored Sample.runtime "000000000000000000000001"
                    (EPortfolioItem (Sample.portfolio_of Sample.ana_id)))
                 (Sample.portfolio_of Sample.ana_id)); [|done].
    change (collection Scenario.db_busy "portfolioitem") with
      [@Stored Sample.runtime "000000000000000000000001"
         (EPortfolioItem (Sample.portfolio_of Sample.ana_id))]. by left.
  - apply (Hpost (@Stored Sample.runtime "000000000000000000000006"
                    (EForumPost (Sample.reply_to "000000000000000000000005")))
                 (Sample.reply_to "000000000000000000000005")); [|done].
    change (collection Scenario.db_busy "forumpost") with
      [@Stored Sample.runtime "000000000000000000000006"
         (EForumPost (Sample.reply_to "000000000000000000000005"))]. by left.
Defined.

(** The advertisement of the busy store names Ana in its heading. *)
Lemma stored_business_ads_name_designers_witness :
  reachable Scenario.db_busy ∧
  Advertisement.designers Sample.ad ≠ [] ∧
  ∀ n, n ∈ Advertisement.designers Sample.ad →
       ci_substring n (Advertisement.heading Sample.ad).
Proof.
  split; [apply scenario_reachable|].
  destruct (stored_business_ads_name_designers Scenario.db_busy scenario_reachable
              (@Stored Sample.runtime "000000000000000000000004" (EAdvertisement Sample.ad))
              Sample.ad) as [Hne Hall]; [|done|done|].
  { change (collection Scenario.db_busy "advertisement") with
      [@Stored Sample.runtime "000000000000000000000004" (EAdvertisement Sample.ad)].
    by left. }
  split; [done|]. intros n Hn. destruct (Hall n Hn) as [_ Hci].
  apply list_elem_of_singleton in Hn as ->. by apply Hci.
Defined.

(** The two reservations of the busy store touch and share no instant. *)
Lemma stored_reservations_do_not_overlap_witness :
  reachable Scenario.db_busy ∧
  ¬ overlaps (Sample.booking 900 1000) (Sample.booking 1000 1100) ∧
  ¬ overlaps (Sample.booking 1000 1100) (Sample.booking 900 1000) ∧
  ¬ share_instant (Sample.booking 900 1000) (Sample.booking 1000 1100).
Proof.
  split; [apply scenario_reachable|].
  apply (stored_reservations_do_not_overlap Scenario.db_busy scenario_reachable 0 1
              (@Stored Sample.runtime "000000000000000000000002" (EReservation (Sample.booking 900 1000)))
              (@Stored Sample.runtime "000000000000000000000003" (EReservation (Sample.booking 1000 1100)))
              (Sample.booking 900 1000) (Sample.booking 1000 1100));
    [lia | reflexivity | reflexivity | reflexivity | reflexivity | reflexivity].
Defined.

(** On the store in which Ana is booked from 900 to 1000, the request from
    930 to 1030 shares the instant 930 with the booking and is answered
    409. *)
Lemma proper_reservation_rejected_iff_shared_instant_witness :
  resolves Sample.db_booked "freelancer" Sample.ana_id ∧
  (Reservation.start_time (Sample.booking 930 1030)
     < Reservation.end_time (Sample.booking 930 1030))%Z ∧
  share_instant (Sample.booking 900 1000) (Sample.booking 930 1030) ∧
  create_reservation (Sample.booking 930 1030) Sample.db_booked =
    (Raise (HTTPException 409 "Reservation overlaps with an existing booking"),
     Sample.db_booked).
Proof.
  assert (Hres : resolves Sample.db_booked "freelancer" Sample.ana_id)
    by by apply sample_ana_resolves.
  assert (Hshare : share_instant (Sample.booking 900 1000) (Sample.booking 930 1030)).
  { exists 930%Z. simpl. lia. }
  assert (Hstored : ∀ x r, x ∈ collection Sample.db_booked "reservation" →
    stored_entity x = EReservation r →
    (Reservation.start_time r < Reservation.end_time r)%Z).
  { intros x r Hx Ex.
    change (collection Sample.db_booked "reservation") with
      [@Stored Sample.runtime "000000000000000000000001" (EReservation (Sample.booking 900 1000))] in Hx.
    apply list_elem_of_singleton in Hx. subst x. simpl in Ex. by injection Ex as <-. }
  split_and!; [done | done | done |].
  apply (proper_reservation_rejected_iff_shared_instant
           (Sample.booking 930 1030) Sample.db_booked Hres); [done | done |].
  exists (@Stored Sample.runtime "000000000000000000000001" (EReservation (Sample.booking 900 1000))),
    (Sample.booking 900 1000).
  split_and!; [by left | done | done | done].
Defined.

(** The eleventh freelancer is booked twice for the same hour, once under
    ...0a and once under ...0A. *)
Lemma two_spellings_are_booked_twice_witness :
  ObjectId "00000000000000000000000a" = ObjectId "00000000000000000000000A" ∧
  create_reservation (Scenario.booking_of "00000000000000000000000a") Scenario.db_team =
    (Return {| id := "00000000000000000000000b" |},
     with_document Scenario.db_team "reservation"
       (EReservation (Scenario.booking_of "00000000000000000000000a"))) ∧
  create_reservation (Scenario.booking_of "00000000000000000000000A")
    (with_document Scenario.db_team "reservation"
       (EReservation (Scenario.booking_of "00000000000000000000000a"))) =
    (Return {| id := "00000000000000000000000c" |},
     with_document
       (with_document Scenario.db_team "reservation"
          (EReservation (Scenario.booking_of "00000000000000000000000a")))
       "reservation" (EReservation (Scenario.booking_of "00000000000000000000000A"))).
Proof.
  split; [done|].
  assert (Hno : ∀ r, ¬ conflicting Scenario.db_team r).
  { intros r Hc%conflicting_existsb. by vm_compute in Hc. }
  apply (two_spellings_are_booked_twice
           (Scenario.booking_of "00000000000000000000000a")
           (Scenario.booking_of "00000000000000000000000A") Scenario.db_team);
    [done | done | | apply Hno | apply Hno].
  exists "00000000000000000000000a". split; [done|]. by apply existsb_id.
Defined.

(** The seven documents of the busy store have seven identifiers. *)
Lemma stored_identifiers_are_distinct_witness :
  reachable Scenario.db_busy ∧
  NoDup (stored_id <$> all_documents Scenario.db_busy) ∧
  length (all_documents Scenario.db_busy) = 7%nat.
Proof.
  split; [apply scenario_reachable|].
  destruct (stored_identifiers_are_distinct Scenario.db_busy scenario_reachable)
    as (Hnodup & Hlen & _); [|by split].
  change (inserted Scenario.db_busy) with 7%nat. intros i j Hi Hj Heq.
  assert (Hgen : ∀ k, (k < 7)%nat →
    nth k (generate_oid <$> seq 0 7) "" = generate_oid k).
  { intros k Hk. do 7 (destruct k as [|k]; [done|]). lia. }
  rewrite <- (Hgen i Hi), <- (Hgen j Hj) in Heq. clear Hgen.
  do 7 (destruct i as [|i]; [do 7 (destruct j as [|j]; [done|]); lia|]). lia.
Defined.

(** Two advertisements that differ in content, business and freelancer_id
    only are both created, on different stores. *)
Lemma create_ad_reads_three_fields_witness :
  status_code_of (create_ad Sample.ad Scenario.db_busy).1 = 200%Z ∧
  status_code_of
    (create_ad
       {| Advertisement.ad_type := Advertisement.business;
          Advertisement.heading := "Ana's new page";
          Advertisement.content := "Another text";
          Advertisement.designers := ["Ana"];
          Advertisement.business_name := None;
          Advertisement.freelancer_id := Some "nobody" |} initial).1 = 200%Z.
Proof.
  split; [done|].
  by destruct (create_ad_reads_three_fields Sample.ad
    {| Advertisement.ad_type := Advertisement.business;
       Advertisement.heading := "Ana's new page";
       Advertisement.content := "Another text";
       Advertisement.designers := ["Ana"];
       Advertisement.business_name := None;
       Advertisement.freelancer_id := Some "nobody" |}
    Scenario.db_busy initial eq_refl eq_refl eq_refl) as [<- _].
Defined.

(** After fifty advertisements the listing is the same with one more. *)
Lemma full_listing_never_changes_witness :
  length (collection Scenario.db_ads "advertisement") = 50%nat ∧
  length (collection Scenario.db_ads_later "advertisement") = 51%nat ∧
  (respond (list_ads None) Scenario.db_ads_later).1 =
    (respond (list_ads None) Scenario.db_ads).1.
Proof.
  split; [by vm_compute|]. split; [by vm_compute|].
  destruct (full_listing_never_changes Scenario.db_ads Scenario.db_ads_later) as (Hads & _).
  apply Hads.
  - apply run_extends.
  - rewrite filter_passes_none by done.
    assert (Hl : length (collection Scenario.db_ads "advertisement") = 50%nat)
      by (vm_compute; reflexivity).
    rewrite Hl. lia.
Defined.

(** Max is registered with an infinite hourly rate, and the listing of
    freelancers that follows is answered 500, with and without the query
    [ux]. *)
Lemma unrenderable_rate_breaks_listing_witness :
  create_freelancer Scenario.priceless Sample.db_ana =
    (Return {| id := "000000000000000000000001" |}, Scenario.db_priceless) ∧
  status_code_of (respond (list_freelancers None) Scenario.db_priceless).1 = 500%Z ∧
  status_code_of (respond (list_freelancers (Some "ux")) Scenario.db_priceless).1 = 500%Z.
Proof.
  assert (Hrate : ¬ finite_rate (EFreelancer Scenario.priceless)) by (by vm_compute).
  split; [reflexivity|]. split.
  - apply (unrenderable_rate_breaks_listing Scenario.priceless None
             Sample.db_ana Scenario.db_priceless Scenario.db_priceless
             {| id := "000000000000000000000001" |} Hrate); [reflexivity | done | by left].
  - apply (unrenderable_rate_breaks_listing Scenario.priceless (Some "ux")
             Sample.db_ana Scenario.db_priceless Scenario.db_priceless
             {| id := "000000000000000000000001" |} Hrate); [reflexivity | done |].
    right. exists "ux", (Regex.search (Regex.chars "ux")). split_and!; [done | done |].
    exists (VStr <$> Freelancer.skills Scenario.priceless), "UX". split_and!.
    + reflexivity.
    + by left.
    + reflexivity.
Defined.

(** A process whose DATABASE_NAME is set to the empty text reports it as
    not set, and one whose DATABASE_URL is set reports that. *)
Lemma test_database_reports_environment_witness :
  test_database Scenario.process !! "database_url" = Some (VStr "✅ Set") ∧
  test_database Scenario.process !! "database_name" = Some (VStr "❌ Not Set") ∧
  test_database Scenario.process_down !! "database_name" = Some (VStr "❌ Not Set").
Proof.
  destruct (test_database_reports_environment Scenario.process) as (_ & _ & Hurl & Hname).
  destruct (test_database_reports_environment Scenario.process_down) as (_ & _ & _ & Hdown).
  split_and!; [exact Hurl | exact Hname | exact Hdown].
Defined.

(** Of the twelve collections the store lists, the first ten are reported;
    none when the listing is refused. *)
Lemma test_database_lists_ten_collections_witness :
  test_database Scenario.process !! "collections" =
    Some (strs ["a"; "b"; "c"; "d"; "e"; "f"; "g"; "h"; "i"; "j"]) ∧
  test_database Scenario.process_down !! "collections" = Some (strs []).
Proof.
  destruct (test_database_lists_ten_collections Scenario.process) as (_ & Hten & _).
  destruct (test_database_lists_ten_collections Scenario.process_down) as (_ & _ & Hnone).
  split.
  - by apply (Hten _ ["a"; "b"; "c"; "d"; "e"; "f"; "g"; "h"; "i"; "j"; "k"; "l"] eq_refl).
  - apply Hnone. right.
    eexists _, "connexion refusée par le serveur de données: délai dépassé (réseau)".
    split; [reflexivity|]. by right.
Defined.

(** A store that refuses the listing is reported as connected, with the
    first 50 characters of the text of the refusal, which are 53 bytes. *)
Lemma test_database_reports_connection_witness :
  test_database Scenario.process !! "database" = Some (VStr "✅ Connected & Working") ∧
  test_database Scenario.process_down !! "connection_status" = Some (VStr "Connected") ∧
  test_database Scenario.process_down !! "database" =
    Some (VStr "⚠️  Connected but Error: connexion refusée par le serveur de données: délai") ∧
  String.length "connexion refusée par le serveur de données: délai" = 53%nat.
Proof.
  destruct (test_database_reports_connection Scenario.process) as (_ & _ & _ & Hup).
  destruct (test_database_reports_connection Scenario.process_down) as (_ & _ & Hdown & _).
  destruct (Hup _ ["a"; "b"; "c"; "d"; "e"; "f"; "g"; "h"; "i"; "j"; "k"; "l"] eq_refl)
    as [Hdb _]; [done | done |].
  destruct (Hdown _ "connexion refusée par le serveur de données: délai dépassé (réseau)"
              eq_refl) as [Hdb' Hst]; [done | done |].
  split_and!; [exact Hdb | exact Hst | exact Hdb' | reflexivity].
Defined.

(** A freelancer is registered on the busy store, at the end of its
    collection. *)
Lemma requests_only_append_witness :
  collection Scenario.db_busy "freelancer" `prefix_of`
    collection (run Scenario.process [POST_freelancers (Valid Sample.eve)] Scenario.db_busy)
      "freelancer".
Proof.
  destruct (requests_only_append Scenario.process Scenario.db_busy) as [_ Hgrow].
  apply Hgrow.
Defined.

(** A listing of threads by an unbalanced pattern is answered 500, and a
    listing of posts without thread_id 422.  Without a store the listing of
    freelancers is not answered 200, and the registration of Ana is
    answered 500. *)
Lemma application_status_codes_witness :
  status_code_of
    (app Scenario.process (GET_forum_threads (Some "(")) Scenario.db_busy).1 = 500%Z ∧
  status_code_of
    (app Scenario.process (GET_forum_posts None) Scenario.db_busy).1 = 422%Z ∧
  status_code_of
    (app Scenario.process_bare (GET_freelancers None) initial).1 ≠ 200%Z ∧
  status_code_of
    (app Scenario.process_bare (POST_freelancers (Valid Sample.ana)) initial).1
    ∈ [400; 422; 500]%Z.
Proof.
  split_and!.
  - destruct (application_status_codes Scenario.process (GET_forum_threads (Some "("))
                Scenario.db_busy) as (_ & _ & _ & H500 & _).
    apply H500. exists "(". split; [by right|]. by split.
  - destruct (application_status_codes Scenario.process (GET_forum_posts None)
                Scenario.db_busy) as (_ & _ & H422 & _).
    by apply H422.
  - destruct (application_status_codes Scenario.process_bare (GET_freelancers None)
                initial) as (_ & _ & _ & _ & Hbare).
    destruct (Hbare eq_refl) as [_ Hget]. intros H200.
    apply (Hget eq_refl) in H200 as [? | [? | ?]]; discriminate.
  - destruct (application_status_codes Scenario.process_bare
                (POST_freelancers (Valid Sample.ana)) initial) as (_ & _ & _ & _ & Hbare).
    destruct (Hbare eq_refl) as [Hpost _]. by apply Hpost.
Defined.

(** A portfolio item whose freelancer_id is no identifier is answered 400
    with the same detail on the busy store and without a store. *)
Lemma early_rejections_need_no_store_witness :
  (app Scenario.process (POST_portfolio (Valid (Sample.portfolio_of "nobody")))
     Scenario.db_busy).1 = Raise (HTTPException 400 "Invalid freelancer_id") ∧
  (app Scenario.process_bare (POST_portfolio (Valid (Sample.portfolio_of "nobody")))
     initial).1 = Raise (HTTPException 400 "Invalid freelancer_id").
Proof.
  assert (Hbusy :
    (app Scenario.process (POST_portfolio (Valid (Sample.portfolio_of "nobody")))
       Scenario.db_busy).1 = Raise (HTTPException 400 "Invalid freelancer_id"))
    by reflexivity.
  split; [exact Hbusy|].
  apply (early_rejections_need_no_store Scenario.process Scenario.process_bare
           (POST_portfolio (Valid (Sample.portfolio_of "nobody")))
           Scenario.db_busy initial (HTTPException 400 "Invalid freelancer_id"));
    [done | done | right; by eexists | exact Hbusy].
Defined.
